(** * backtesthub: the orchestration engine [Backtest] and [Strategy]

    A shallow embedding of [backtesthub/backtest.py], of [Strategy.I],
    [Strategy.buy] and [Strategy.sell] in [backtesthub/strategy.py], and
    of the signatures of [backtesthub/indicators/indicators.py].

    - Python values that reach the run identity and the book label are
      an inductive type [PyVal] with Python's [repr], [str] and truth
      value.
    - [uuid.uuid3] is the standard library's: MD5 over
      [namespace.bytes + name.encode("utf-8")], with the version and
      variant bits set.
    - Objects shared by reference (the main clock, the three registries
      and the Base/Asset objects they hold) live in a [Store]; registries
      and data objects are named by locations; the orchestrator holds
      locations and hands them to the collaborators it constructs.
    - Methods are state transformers: they return a value or a raised
      exception, together with the state they leave behind.  Every call
      the orchestrator makes on a collaborator, and every advance of a
      cursor, is recorded in a trace, in call order.
    - The Broker and the Pipeline and Strategy subclasses are not among
      the sources.  Constructing a Pipeline or a Strategy returns or
      raises, as the class decides from the keywords it is called with.
      Every other call on a collaborator is taken to return: it is an
      arbitrary function on a state of the collaborators' own ([World])
      that reads the store.  Runs in which [init()], [next()] or a Broker
      method raises, or writes to a registered data object, are outside
      the model: the store (cursors and registries) is written by the
      orchestrator only, as the lifecycle of the data model has it. *)

From Stdlib Require Import ZArith QArith List String Ascii Bool Lia.
From Stdlib Require Import DecimalString Qabs.
From stdpp Require Import base option list strings.

Import ListNotations.
Local Open Scope string_scope.
Local Open Scope list_scope.

(** ** Python values *)

(** The values a configuration, a parameter dictionary or a process-wide
    constant can hold.  A [float] is carried by its [repr] (the shortest
    decimal that reads back as the same float); a [str] is a sequence of
    code points below 256. *)
#[warnings="-register-all"]
Inductive PyVal : Type :=
| PyNone
| PyBool (b : bool)
| PyInt (z : Z)
| PyFloat (r : string)
| PyStr (s : string)
| PyList (l : list PyVal)
| PyTuple (l : list PyVal)
| PyDict (l : list (PyVal * PyVal)).

Definition dquote : ascii := ascii_of_nat 34.
Definition squote : ascii := ascii_of_nat 39.
Definition backslash : ascii := ascii_of_nat 92.

Definition chr (c : ascii) : string := String c EmptyString.

Fixpoint join (sep : string) (l : list string) : string :=
  match l with
  | [] => ""
  | [x] => x
  | x :: rest => x +:+ sep +:+ join sep rest
  end.

Definition has_char (c : ascii) (s : string) : bool :=
  existsb (Ascii.eqb c) (list_ascii_of_string s).

Definition hex_digit (n : N) : ascii :=
  if (n <? 10)%N then ascii_of_N (48 + n) else ascii_of_N (87 + n).

Definition hex2 (n : N) : string :=
  String (hex_digit (n / 16)) (chr (hex_digit (n mod 16))).

(** [repr] of one character of a [str] inside the quote [q]. *)
Definition repr_char (q c : ascii) : string :=
  let n := N_of_ascii c in
  if Ascii.eqb c q || Ascii.eqb c backslash then String backslash (chr c)
  else if (n =? 9)%N then String backslash "t"
  else if (n =? 10)%N then String backslash "n"
  else if (n =? 13)%N then String backslash "r"
  else if (n <? 32)%N || (n =? 127)%N then String backslash ("x" +:+ hex2 n)
  else if (n <? 127)%N then chr c
  else if ((128 <=? n)%N && (n <=? 160)%N) || (n =? 173)%N
       then String backslash ("x" +:+ hex2 n)
  else chr c.

(** The quote [repr] picks: double quotes only when the string holds a
    single quote and no double quote. *)
Definition repr_quote (s : string) : ascii :=
  if has_char squote s && negb (has_char dquote s) then dquote else squote.

Definition repr_str (s : string) : string :=
  let q := repr_quote s in
  chr q +:+ String.concat "" (map (repr_char q) (list_ascii_of_string s)) +:+ chr q.

Definition repr_int (z : Z) : string := NilZero.string_of_int (Z.to_int z).

Fixpoint py_repr (v : PyVal) : string :=
  match v with
  | PyNone => "None"
  | PyBool true => "True"
  | PyBool false => "False"
  | PyInt z => repr_int z
  | PyFloat r => r
  | PyStr s => repr_str s
  | PyList l => "[" +:+ join ", " (map py_repr l) +:+ "]"
  | PyTuple [x] => "(" +:+ py_repr x +:+ ",)"
  | PyTuple l => "(" +:+ join ", " (map py_repr l) +:+ ")"
  | PyDict l =>
      "{" +:+ join ", " (map (fun kv => py_repr (fst kv) +:+ ": " +:+ py_repr (snd kv)) l) +:+ "}"
  end.

(** [str(v)]: the string itself for a [str], [repr] otherwise. *)
Definition py_str (v : PyVal) : string :=
  match v with
  | PyStr s => s
  | _ => py_repr v
  end.

(** Truth value of [v] in an [if]. *)
Definition py_truthy (v : PyVal) : bool :=
  match v with
  | PyNone => false
  | PyBool b => b
  | PyInt z => negb (z =? 0)%Z
  | PyFloat r => negb (String.eqb r "0.0" || String.eqb r "-0.0")
  | PyStr s => negb (String.eqb s "")
  | PyList l | PyTuple l => negb (Nat.eqb (length l) 0)
  | PyDict l => negb (Nat.eqb (length l) 0)
  end.


(** [hash(v)] raises for a list or a dictionary, and for a tuple that
    holds one: the type the error names is that of the first such value
    met, items in order. *)
Fixpoint unhashable_type (v : PyVal) : option string :=
  match v with
  | PyList _ => Some "list"
  | PyDict _ => Some "dict"
  | PyTuple l =>
      (fix first (l : list PyVal) : option string :=
         match l with
         | [] => None
         | x :: rest =>
             match unhashable_type x with
             | Some t => Some t
             | None => first rest
             end
         end) l
  | _ => None
  end.

(** The code points of a [str]. *)
Definition code_points (s : string) : list N :=
  map N_of_ascii (list_ascii_of_string s).

(** [str.upper()] of one code point below 256: the letters a to z and the
    accented letters from 0xe0 to 0xfe (the division sign 0xf7 apart) move
    32 places down; the capital of the micro sign 0xb5 is 0x39c and that
    of 0xff is 0x178, both above 255; the capital of the sharp s 0xdf is
    the two letters SS; every other code point is its own capital. *)
Definition upper_char (c : ascii) : list N :=
  let n := N_of_ascii c in
  if (97 <=? n)%N && (n <=? 122)%N then [(n - 32)%N]
  else if (n =? 181)%N then [924%N]
  else if (n =? 223)%N then [83%N; 83%N]
  else if (224 <=? n)%N && (n <=? 254)%N && negb (n =? 247)%N then [(n - 32)%N]
  else if (n =? 255)%N then [376%N]
  else [n].

(** [s.upper()], as the code points of the result. *)
Definition upper (s : string) : list N :=
  flat_map upper_char (list_ascii_of_string s).

(** [ticker.upper() == name], for a [name] of code points below 256. *)
Definition upper_is (ticker name : string) : bool :=
  bool_decide (upper ticker = code_points name).

(** [kwargs.get(key)]: the value bound to [key], [None] when absent.  A
    keyword can be bound once in a call, so the first binding is the
    only one. *)
Fixpoint kwargs_get (key : string) (kw : list (string * PyVal)) : PyVal :=
  match kw with
  | [] => PyNone
  | (k, v) :: kw' => if String.eqb k key then v else kwargs_get key kw'
  end.

(** ** [uuid.uuid3]: MD5 of the namespace bytes and the UTF-8 name *)

Module MD5.

Local Open Scope Z_scope.

Definition w32 (x : Z) : Z := x mod 2 ^ 32.

Definition rotl32 (x c : Z) : Z :=
  w32 (Z.lor (Z.shiftl x c) (Z.shiftr x (32 - c))).

Definition not32 (x : Z) : Z := Z.lxor x 0xFFFFFFFF.

Definition shifts : list Z :=
  [7; 12; 17; 22; 7; 12; 17; 22; 7; 12; 17; 22; 7; 12; 17; 22;
   5; 9; 14; 20; 5; 9; 14; 20; 5; 9; 14; 20; 5; 9; 14; 20;
   4; 11; 16; 23; 4; 11; 16; 23; 4; 11; 16; 23; 4; 11; 16; 23;
   6; 10; 15; 21; 6; 10; 15; 21; 6; 10; 15; 21; 6; 10; 15; 21].

Definition sines : list Z :=
  [0xd76aa478; 0xe8c7b756; 0x242070db; 0xc1bdceee;
   0xf57c0faf; 0x4787c62a; 0xa8304613; 0xfd469501;
   0x698098d8; 0x8b44f7af; 0xffff5bb1; 0x895cd7be;
   0x6b901122; 0xfd987193; 0xa679438e; 0x49b40821;
   0xf61e2562; 0xc040b340; 0x265e5a51; 0xe9b6c7aa;
   0xd62f105d; 0x02441453; 0xd8a1e681; 0xe7d3fbc8;
   0x21e1cde6; 0xc33707d6; 0xf4d50d87; 0x455a14ed;
   0xa9e3e905; 0xfcefa3f8; 0x676f02d9; 0x8d2a4c8a;
   0xfffa3942; 0x8771f681; 0x6d9d6122; 0xfde5380c;
   0xa4beea44; 0x4bdecfa9; 0xf6bb4b60; 0xbebfbc70;
   0x289b7ec6; 0xeaa127fa; 0xd4ef3085; 0x04881d05;
   0xd9d4d039; 0xe6db99e5; 0x1fa27cf8; 0xc4ac5665;
   0xf4292244; 0x432aff97; 0xab9423a7; 0xfc93a039;
   0x655b59c3; 0x8f0ccc92; 0xffeff47d; 0x85845dd1;
   0x6fa87e4f; 0xfe2ce6e0; 0xa3014314; 0x4e0811a1;
   0xf7537e82; 0xbd3af235; 0x2ad7d2bb; 0xeb86d391].

(** A little-endian word of [n] bytes. *)
Fixpoint le_bytes (n : nat) (x : Z) : list Z :=
  match n with
  | O => []
  | S k => x mod 256 :: le_bytes k (x / 256)
  end.

Fixpoint le_word (bs : list Z) : Z :=
  match bs with
  | [] => 0
  | b :: rest => b + 256 * le_word rest
  end.

(** The message followed by [0x80], zeros up to 56 modulo 64, and the bit
    length on eight bytes. *)
Definition pad (msg : list Z) : list Z :=
  let len := Z.of_nat (length msg) in
  let zeros := Z.to_nat ((55 - len) mod 64) in
  msg ++ [0x80] ++ repeat 0 zeros ++ le_bytes 8 ((8 * len) mod 2 ^ 64).

Fixpoint chunks (fuel : nat) (bs : list Z) : list (list Z) :=
  match fuel with
  | O => []
  | S k =>
      match bs with
      | [] => []
      | _ => firstn 64 bs :: chunks k (skipn 64 bs)
      end
  end.

Fixpoint words (n : nat) (bs : list Z) : list Z :=
  match n with
  | O => []
  | S k => le_word (firstn 4 bs) :: words k (skipn 4 bs)
  end.

Definition Regs : Type := Z * Z * Z * Z.

Definition round (m : list Z) (r : Regs) (i : nat) : Regs :=
  let '(a, b, c, d) := r in
  let iz := Z.of_nat i in
  let '(f, g) :=
    if iz <? 16 then (Z.lor (Z.land b c) (Z.land (not32 b) d), iz)
    else if iz <? 32 then (Z.lor (Z.land d b) (Z.land (not32 d) c), (5 * iz + 1) mod 16)
    else if iz <? 48 then (Z.lxor (Z.lxor b c) d, (3 * iz + 5) mod 16)
    else (Z.lxor c (Z.lor b (not32 d)), (7 * iz) mod 16) in
  let f' := w32 (f + a + nth i sines 0 + nth (Z.to_nat g) m 0) in
  (d, w32 (b + rotl32 f' (nth i shifts 0)), b, c).

Definition compress (r : Regs) (chunk : list Z) : Regs :=
  let m := words 16 chunk in
  let '(a, b, c, d) := fold_left (round m) (seq 0 64) r in
  let '(a0, b0, c0, d0) := r in
  (w32 (a0 + a), w32 (b0 + b), w32 (c0 + c), w32 (d0 + d)).

Definition init_regs : Regs := (0x67452301, 0xefcdab89, 0x98badcfe, 0x10325476).

(** The sixteen bytes of the digest. *)
Definition digest (msg : list Z) : list Z :=
  let p := pad msg in
  let '(a, b, c, d) := fold_left compress (chunks (length p) p) init_regs in
  le_bytes 4 a ++ le_bytes 4 b ++ le_bytes 4 c ++ le_bytes 4 d.

End MD5.

Module UUID.

Local Open Scope Z_scope.

(** A UUID is its 128-bit integer. *)
Definition t : Type := Z.

(** [int.from_bytes(bs, "big")]. *)
Definition from_bytes (bs : list Z) : Z :=
  fold_left (fun acc b => 256 * acc + b) bs 0.

(** [UUID.bytes]: sixteen bytes, most significant first. *)
Definition bytes (u : t) : list Z := rev (MD5.le_bytes 16 u).

(** [UUID(bytes=..., version=v)]: the variant bits are set to RFC 4122 and
    the version nibble to [v]. *)
Definition with_version (version : Z) (i : Z) : t :=
  let i := Z.land i (Z.lnot (Z.shiftl 0xc000 48)) in
  let i := Z.lor i (Z.shiftl 0x8000 48) in
  let i := Z.land i (Z.lnot (Z.shiftl 0xf000 64)) in
  Z.lor i (Z.shiftl version 76).

(** [NAMESPACE_DNS = UUID("6ba7b810-9dad-11d1-80b4-00c04fd430c8")]. *)
Definition NAMESPACE_DNS : t := 0x6ba7b8109dad11d180b400c04fd430c8.

(** [name.encode("utf-8")] for code points below 256. *)
Definition utf8_char (c : ascii) : list Z :=
  let n := Z.of_N (N_of_ascii c) in
  if n <? 128 then [n] else [Z.lor 0xC0 (Z.shiftr n 6); Z.lor 0x80 (Z.land n 0x3F)].

Definition utf8 (s : string) : list Z :=
  flat_map utf8_char (list_ascii_of_string s).

(** The integer of the first sixteen bytes of the MD5 digest of the
    namespace bytes followed by the encoded name. *)
Definition digest_int (namespace : t) (name : string) : Z :=
  from_bytes (firstn 16 (MD5.digest (bytes namespace ++ utf8 name))).

Definition uuid3 (namespace : t) (name : string) : t :=
  with_version 3 (digest_int namespace name).

(** [UUID.version]: the version nibble. *)
Definition version (u : t) : Z := Z.land (Z.shiftr u 76) 0xF.

Fixpoint hex_digits (n : nat) (x : Z) (acc : string) : string :=
  match n with
  | O => acc
  | S k => hex_digits k (x / 16) (String (hex_digit (Z.to_N (x mod 16))) acc)
  end.

(** [UUID.hex]: thirty-two lowercase hexadecimal digits. *)
Definition hex (u : t) : string := hex_digits 32 u "".

End UUID.

(** ** Exceptions and results *)

Inductive Exn : Type :=
| TypeError (msg : string)
| IndexError
| KeyError (key : string)
| AttributeError (attr : string)
| AssertionError
| ShapeError
| LineExhausted
| Exception (msg : string)
| Diverged.

(** What a call leaves: a value, or a raised exception. *)
Inductive Res (A : Type) : Type :=
| Ok (a : A)
| Raise (e : Exn).

Arguments Ok {A} a.
Arguments Raise {A} e.

(** The call returned. *)
Definition is_Ok {A} (r : Res A) : Prop := ∃ a, r = Ok a.

(** ** Lines, data objects and registries *)

(** A [datetime.date], by its ordinal. *)
Definition date : Type := Z.

(** A location in the store: the identity of a shared object. *)
Definition loc : Type := nat.

(** Modelled from the spec: the class [Line] of [utils/bases.py], which is
    not among the sources.  A Line is an array aligned to the date index
    together with a cursor; reading offset 0 gives the value under the
    cursor; advancing moves the cursor one step forward and fails when it
    is already at the end. *)
Record Line (A : Type) : Type := mkLine {
  l_array : list A;
  l_cursor : nat;
}.

Arguments mkLine {A} l_array l_cursor.
Arguments l_array {A} l.
Arguments l_cursor {A} l.

Definition Line_next {A} (l : Line A) : option (Line A) :=
  if (S (l_cursor l) <? length (l_array l))%nat
  then Some (mkLine (l_array l) (S (l_cursor l)))
  else None.

(** [line[0]]. *)
Definition Line_get0 {A} (l : Line A) : option A :=
  l_array l !! l_cursor l.

(** The dynamic type of a data object. *)
Inductive PyType : Type :=
| Base
| Asset
| Hedge
| OtherType (name : string).

Definition PyType_eqb (a b : PyType) : bool :=
  match a, b with
  | Base, Base | Asset, Asset | Hedge, Hedge => true
  | OtherType x, OtherType y => String.eqb x y
  | _, _ => false
  end.

(** An insertion-ordered dictionary from tickers to object locations
    ([OrderedDict]). *)
Definition Registry : Type := list (string * loc).

(** [d.update({k: v})]: a key that is present keeps its place and gets the
    new value; a new key goes last. *)
Fixpoint od_update (k : string) (v : loc) (d : Registry) : Registry :=
  match d with
  | [] => [(k, v)]
  | (k', v') :: d' =>
      if String.eqb k' k then (k', v) :: d' else (k', v') :: od_update k v d'
  end.

Fixpoint od_get (k : string) (d : Registry) : option loc :=
  match d with
  | [] => None
  | (k', v) :: d' => if String.eqb k' k then Some v else od_get k d'
  end.

(** [{**a, **b}]: [a], updated with the items of [b] in order. *)
Definition od_merge (a b : Registry) : Registry :=
  fold_left (fun acc kv => od_update (fst kv) (snd kv) acc) b a.

Definition od_values (d : Registry) : list loc := map snd d.

Definition od_keys (d : Registry) : list string := map fst d.

(** The types the development leaves abstract: a [pandas.DataFrame], the
    state of the collaborators (the Broker's ledger and whatever the
    Pipeline and Strategy instances keep), and the tables the Broker
    reports. *)
Class Payload : Type := {
  Frame : Type;
  World : Type;
  Table : Type;
}.

Section Objects.

Context `{Payload}.

(** Modelled from the spec: the classes [Base] and [Asset] of
    [utils/bases.py], which are not among the sources.  A data object is a
    named bundle of Lines over one index, advanced together: it has one
    cursor. *)
Record Data : Type := mkData {
  d_type : PyType;
  d_ticker : string;
  d_frame : Frame;
  d_comm : list (string * PyVal);
  d_index : list date;
  d_cursor : nat;
}.

Definition Data_next (d : Data) : option Data :=
  if (S (d_cursor d) <? length (d_index d))%nat
  then Some (mkData (d_type d) (d_ticker d) (d_frame d) (d_comm d) (d_index d) (S (d_cursor d)))
  else None.

(** The shared objects: the main clock, the registries and the data
    objects.  This is the time state of a run. *)
Record Store : Type := mkStore {
  st_main : Line date;
  st_regs : list Registry;
  st_objs : list Data;
}.

(** The registry a reference denotes. *)
Definition registry (st : Store) (r : loc) : Registry :=
  default [] (st_regs st !! r).

(** What calling a class does: given the names of the keyword arguments
    of the call, it returns or raises, and leaves the collaborators'
    state as the constructor made it. *)
Definition Constructor : Type := list string → Store → World → Res unit * World.

(** A Pipeline class: its name, the classes it derives from (itself
    included), what calling the class does, and what [init()] and
    [next()] on an instance do to the collaborators' state.  Collaborators
    read the store; they do not write it.  A Strategy class also has
    [get_params()]: [sc_get_params] gives the items of
    [dict(self.get_params())], in the order of that dictionary. *)
Record PipelineClass : Type := mkPipelineClass {
  pc_name : string;
  pc_mro : list string;
  pc_new : Constructor;
  pc_init : Store → World → World;
  pc_next : Store → World → World;
}.

Record StrategyClass : Type := mkStrategyClass {
  sc_name : string;
  sc_mro : list string;
  sc_new : Constructor;
  sc_init : Store → World → World;
  sc_next : Store → World → World;
  sc_get_params : World → list (PyVal * PyVal);
}.

(** [issubclass(c, K)]. *)
Definition issubclass (mro : list string) (K : string) : bool :=
  existsb (String.eqb K) mro.

(** [Strategy.__init__(self, broker, datas={})], called with keyword
    arguments only: a keyword that names no parameter is refused first,
    then a call that leaves [broker] without a value. *)
Definition Strategy_init_bind (kw : list string) : Res unit :=
  match List.find (fun k => negb (existsb (String.eqb k) ["broker"; "datas"])) kw with
  | Some k =>
      Raise (TypeError ("Strategy.__init__() got an unexpected keyword argument "
                        +:+ chr squote +:+ k +:+ chr squote))
  | None =>
      if existsb (String.eqb "broker") kw then Ok tt
      else Raise (TypeError "Strategy.__init__() missing 1 required positional argument: 'broker'")
  end.

(** Calling a class that derives from [Strategy] and defines no
    constructor of its own; [abstract] lists the abstract methods the
    class is left with, in sorted order.  A class with an abstract method
    is not instantiated; otherwise [Strategy.__init__] is called with the
    keywords. *)
Definition Strategy_new (name : string) (abstract : list string) : Constructor :=
  fun kw _ w =>
    match abstract with
    | [] => (Strategy_init_bind kw, w)
    | _ =>
        (Raise (TypeError ("Can't instantiate abstract class " +:+ name
                           +:+ " with abstract method"
                           +:+ (if (length abstract =? 1)%nat then "" else "s")
                           +:+ " " +:+ join ", " abstract)), w)
    end.

(** A Pipeline instance, as the orchestrator knows it: its class and the
    arguments it was constructed with, the holidays (when given) and the
    reference to a registry under the keyword [assets].  The main clock
    and the Broker, which every instance is given, are the store's and
    the state's own. *)
Record Pipeline : Type := mkPipeline {
  p_class : PipelineClass;
  p_holidays : option (list date);
  p_assets : loc;
}.

(** A Strategy instance, as the orchestrator knows it: its class and the
    arguments it was constructed with, the Pipeline under [pipeline] and
    the references to two registries under [bases] and [assets].  What an
    instance keeps of its arguments is up to the constructor of its
    class; [Strategy.__init__] itself takes none of the three. *)
Record Strategy : Type := mkStrategy {
  s_class : StrategyClass;
  s_pipeline : Pipeline;
  s_bases : loc;
  s_assets : loc;
}.

Record CalendarObj : Type := mkCalendar {
  cal_mro : list string;
  cal_index : list date;
  cal_holidays : list date;
}.

(** The attributes of a [Backtest] instance. *)
Record Backtest : Type := mkBacktest {
  bt_index : list date;
  bt_firstdate : date;
  bt_lastdate : date;
  bt_factor : PyVal;
  bt_market : PyVal;
  bt_asset : PyVal;
  bt_hedge : PyVal;
  bt_base : PyVal;
  bt_hbase : PyVal;
  bt_vertices : PyVal;
  bt_bases : loc;
  bt_assets : loc;
  bt_hedges : loc;
  bt_pipeline : Pipeline;
  bt_strategy : Strategy;
  bt_hpipeline : option Pipeline;
  bt_hstrategy : option Strategy;
  bt_hash : option PyVal;
  bt_uid : option UUID.t;
  bt_properties : option PyVal;
}.

(** Which Pipeline/Strategy pair a call goes to. *)
Inductive Track : Type := Primary | Hedging.

(** The calls the orchestrator makes, as they are made. *)
Inductive Event : Type :=
| EvMainNext
| EvBrokerNext
| EvDataNext (l : loc)
| EvBegOfPeriod
| EvEndOfPeriod
| EvPipelineNew (t : Track)
| EvStrategyNew (t : Track)
| EvPipelineInit (t : Track)
| EvStrategyInit (t : Track)
| EvPipelineNext (t : Track)
| EvStrategyNext (t : Track)
| EvAddCurr (l : loc)
| EvAddCarry (l : loc)
| EvAddMarket (l : loc).

(** A [Backtest] instance with everything it can reach: the shared store,
    the collaborators' state, the reading of the wall clock, and the calls
    made so far. *)
Record State : Type := mkState {
  self : Backtest;
  store : Store;
  broker : World;
  wallclock : string;
  trace : list Event;
}.

(** What [run()] returns. *)
Record Bundle : Type := mkBundle {
  meta : PyVal;
  quotas : Table;
  records : Table;
  broker_handle : World;
}.

End Objects.

(** The collaborators and the process-wide constants of [utils/config.py];
    neither is among the sources. *)
Class Externals `{Payload} : Type := {
  fill_OHLC : Frame → Frame;
  isoformat : date → string;
  (** the cursor of a newly built Line or data object *)
  line_start : nat;
  Broker_new : list date → bool → World;
  Broker_next : Store → World → World;
  beg_of_period : Store → World → World;
  end_of_period : Store → World → World;
  cum_return : World → Q;
  add_curr : loc → Store → World → World;
  add_carry : loc → Store → World → World;
  add_market : loc → Store → World → World;
  Broker_df : World → Table;
  Broker_rec : World → Table;
  _DEFAULT_BUFFER : PyVal;
  _DEFAULT_HEDGE : string;
  _DEFAULT_SIZING : PyVal;
  _DEFAULT_THRESH : PyVal;
  _DEFAULT_VPARAM : PyVal;
  _DEFAULT_MAX_LOSS : Q;
  _DEFAULT_VOLATILITY : PyVal;
  _DEFAULT_CARRY : string;
  _DEFAULT_PAIRS : list string;
  _DEFAULT_ECHO : bool;
  _DEFAULT_MARKET : string;
}.

(** ** Methods as state transformers *)

Section Monad.

Context `{Payload}.

Definition M (A : Type) : Type := State → Res A * State.

Definition ret {A} (a : A) : M A := fun s => (Ok a, s).

Definition raise {A} (e : Exn) : M A := fun s => (Raise e, s).

Definition bind {A B} (m : M A) (k : A → M B) : M B :=
  fun s =>
    match m s with
    | (Ok a, s') => k a s'
    | (Raise e, s') => (Raise e, s')
    end.

Definition get : M State := fun s => (Ok s, s).

Definition modify (f : State → State) : M unit := fun s => (Ok tt, f s).

Definition lift {A} (r : Res A) : M A := fun s => (r, s).

Definition when (b : bool) (m : M unit) : M unit :=
  if b then m else ret tt.

Definition with_self (b : Backtest) (s : State) : State :=
  mkState b (store s) (broker s) (wallclock s) (trace s).

Definition with_store (st : Store) (s : State) : State :=
  mkState (self s) st (broker s) (wallclock s) (trace s).

Definition with_broker (w : World) (s : State) : State :=
  mkState (self s) (store s) w (wallclock s) (trace s).

Definition with_trace (t : list Event) (s : State) : State :=
  mkState (self s) (store s) (broker s) (wallclock s) t.

Definition emit (e : Event) : M unit :=
  modify (fun s => with_trace (trace s ++ [e]) s).

(** A call on a collaborator: it is recorded, then it acts on the
    collaborators' state. *)
Definition call (e : Event) (f : Store → World → World) : M unit :=
  modify (fun s => with_broker (f (store s) (broker s)) (with_trace (trace s ++ [e]) s)).

(** A constructor call: it is recorded, then the constructor runs, and
    returns or raises. *)
Definition construct (e : Event) (new : Store → World → Res unit * World) : M unit :=
  fun s =>
    let '(r, w) := new (store s) (broker s) in
    (r, with_broker w (with_trace (trace s ++ [e]) s)).

End Monad.

Notation "'let*' x ':=' m 'in' k" := (bind m (fun x => k))
  (at level 10, x name, m at level 100, k at level 200).

Section Orchestrator.

Context `{Externals}.

Fixpoint foreach {A} (f : A → M unit) (l : list A) : M unit :=
  match l with
  | [] => ret tt
  | x :: rest => let* _ := f x in foreach f rest
  end.

Definition Q_ltb (x y : Q) : bool := negb (Qle_bool y x).

(** *** Store operations *)

(** [OrderedDict()]: a new, empty registry. *)
Definition new_registry (st : Store) : loc * Store :=
  (length (st_regs st), mkStore (st_main st) (st_regs st ++ [[]]) (st_objs st)).

(** A newly constructed data object. *)
Definition new_object (d : Data) : M loc :=
  fun s =>
    let st := store s in
    (Ok (length (st_objs st)),
     with_store (mkStore (st_main st) (st_regs st) (st_objs st ++ [d])) s).

(** [registry.update({ticker: obj})], in place. *)
Definition registry_update (r : loc) (ticker : string) (obj : loc) : M unit :=
  modify (fun s =>
    let st := store s in
    with_store
      (mkStore (st_main st) (<[r := od_update ticker obj (registry st r)]> (st_regs st)) (st_objs st))
      s).

(** *** [Backtest.__init__] *)

(** The store [__init__] builds before it constructs the collaborators:
    the main clock over the index and three empty registries. *)
Definition initial_store (index : list date) : Store :=
  let st0 := mkStore (mkLine index line_start) [] [] in
  let '(_, st1) := new_registry st0 in
  let '(_, st2) := new_registry st1 in
  let '(_, st3) := new_registry st2 in
  st3.

(** The keywords of the constructor calls: [__init__] passes the
    holidays to its Pipeline, [config_hedge] does not. *)
Definition pipeline_keywords (holidays : bool) : list string :=
  if holidays then ["main"; "holidays"; "broker"; "assets"]
  else ["main"; "broker"; "assets"].

Definition strategy_keywords : list string :=
  ["broker"; "pipeline"; "bases"; "assets"].

Definition Backtest_init (strategy : StrategyClass) (pipeline : PipelineClass)
    (calendar : CalendarObj) (config : list (string * PyVal)) (now : string) : Res State :=
  if negb (issubclass (sc_mro strategy) "Strategy")
  then Raise (TypeError "Arg `strategy` must be a `Strategy` subclass!")
  else if negb (issubclass (pc_mro pipeline) "Pipeline")
  then Raise (TypeError "Arg `pipeline` must be a `Pipeline` subclass!")
  else if negb (issubclass (cal_mro calendar) "Calendar")
  then Raise (TypeError "Arg `calendar` must be a `Calendar` instance!")
  else
    let index := cal_index calendar in
    match head index, last index with
    | Some firstdate, Some lastdate =>
        let st0 := mkStore (mkLine index line_start) [] [] in
        let '(bases, st1) := new_registry st0 in
        let '(assets, st2) := new_registry st1 in
        let '(hedges, st3) := new_registry st2 in
        let w0 := Broker_new index _DEFAULT_ECHO in
        match pc_new pipeline (pipeline_keywords true) st3 w0 with
        | (Raise e, _) => Raise e
        | (Ok _, w1) =>
            let p := mkPipeline pipeline (Some (cal_holidays calendar)) assets in
            match sc_new strategy strategy_keywords st3 w1 with
            | (Raise e, _) => Raise e
            | (Ok _, w2) =>
                let s := mkStrategy strategy p bases assets in
                Ok (mkState
                      (mkBacktest index firstdate lastdate
                         (kwargs_get "factor" config) (kwargs_get "market" config)
                         (kwargs_get "asset" config) (kwargs_get "hedge" config)
                         (kwargs_get "base" config) (kwargs_get "hbase" config)
                         (kwargs_get "vertices" config)
                         bases assets hedges p s None None None None None)
                      st3 w2 now [EvPipelineNew Primary; EvStrategyNew Primary])
            end
        end
    | _, _ => Raise IndexError
    end.

(** *** Attribute assignments on [self] *)

Definition set_hpipeline (hp : Pipeline) (b : Backtest) : Backtest :=
  mkBacktest (bt_index b) (bt_firstdate b) (bt_lastdate b) (bt_factor b) (bt_market b)
    (bt_asset b) (bt_hedge b) (bt_base b) (bt_hbase b) (bt_vertices b)
    (bt_bases b) (bt_assets b) (bt_hedges b) (bt_pipeline b) (bt_strategy b)
    (Some hp) (bt_hstrategy b) (bt_hash b) (bt_uid b) (bt_properties b).

Definition set_hstrategy (hs : Strategy) (b : Backtest) : Backtest :=
  mkBacktest (bt_index b) (bt_firstdate b) (bt_lastdate b) (bt_factor b) (bt_market b)
    (bt_asset b) (bt_hedge b) (bt_base b) (bt_hbase b) (bt_vertices b)
    (bt_bases b) (bt_assets b) (bt_hedges b) (bt_pipeline b) (bt_strategy b)
    (bt_hpipeline b) (Some hs) (bt_hash b) (bt_uid b) (bt_properties b).

Definition set_hash (h : PyVal) (b : Backtest) : Backtest :=
  mkBacktest (bt_index b) (bt_firstdate b) (bt_lastdate b) (bt_factor b) (bt_market b)
    (bt_asset b) (bt_hedge b) (bt_base b) (bt_hbase b) (bt_vertices b)
    (bt_bases b) (bt_assets b) (bt_hedges b) (bt_pipeline b) (bt_strategy b)
    (bt_hpipeline b) (bt_hstrategy b) (Some h) (bt_uid b) (bt_properties b).

Definition set_uid (u : UUID.t) (b : Backtest) : Backtest :=
  mkBacktest (bt_index b) (bt_firstdate b) (bt_lastdate b) (bt_factor b) (bt_market b)
    (bt_asset b) (bt_hedge b) (bt_base b) (bt_hbase b) (bt_vertices b)
    (bt_bases b) (bt_assets b) (bt_hedges b) (bt_pipeline b) (bt_strategy b)
    (bt_hpipeline b) (bt_hstrategy b) (bt_hash b) (Some u) (bt_properties b).

Definition set_properties (p : PyVal) (b : Backtest) : Backtest :=
  mkBacktest (bt_index b) (bt_firstdate b) (bt_lastdate b) (bt_factor b) (bt_market b)
    (bt_asset b) (bt_hedge b) (bt_base b) (bt_hbase b) (bt_vertices b)
    (bt_bases b) (bt_assets b) (bt_hedges b) (bt_pipeline b) (bt_strategy b)
    (bt_hpipeline b) (bt_hstrategy b) (bt_hash b) (bt_uid b) (Some p).

(** *** [Backtest.config_hedge] *)

Definition config_hedge (pipeline : PipelineClass) (strategy : StrategyClass) : M unit :=
  if negb (issubclass (sc_mro strategy) "Strategy")
  then raise (TypeError "Arg `strategy` must be a `Strategy` subclass!")
  else if negb (issubclass (pc_mro pipeline) "Pipeline")
  then raise (TypeError "Arg `pipeline` must be a `Pipeline` subclass!")
  else
    let* s := get in
    let b := self s in
    let* _ := construct (EvPipelineNew Hedging) (pc_new pipeline (pipeline_keywords false)) in
    let hp := mkPipeline pipeline None (bt_hedges b) in
    let* _ := modify (fun s => with_self (set_hpipeline hp (self s)) s) in
    let* _ := construct (EvStrategyNew Hedging) (sc_new strategy strategy_keywords) in
    let hs := mkStrategy strategy hp (bt_bases b) (bt_hedges b) in
    modify (fun s => with_self (set_hstrategy hs (self s)) s).

(** *** [Backtest.add_base], [add_asset], [add_hedge] *)

Definition add_base (ticker : string) (data : Frame) : M unit :=
  let* s := get in
  let* base := new_object (mkData Base ticker data [] (bt_index (self s)) line_start) in
  let* _ := registry_update (bt_bases (self s)) ticker base in
  let* _ := when (existsb (upper_is ticker) _DEFAULT_PAIRS)
                 (call (EvAddCurr base) (add_curr base)) in
  let* _ := when (upper_is ticker _DEFAULT_CARRY)
                 (call (EvAddCarry base) (add_carry base)) in
  when (upper_is ticker _DEFAULT_MARKET)
       (call (EvAddMarket base) (add_market base)).

Definition add_asset (ticker : string) (data : Frame) (commkwargs : list (string * PyVal)) : M unit :=
  let* s := get in
  let* asset :=
    new_object (mkData Asset ticker (fill_OHLC data) commkwargs (bt_index (self s)) line_start) in
  registry_update (bt_assets (self s)) ticker asset.

Definition add_hedge (ticker : string) (data : Frame) (commkwargs : list (string * PyVal)) : M unit :=
  let* s := get in
  let* hedge :=
    new_object (mkData Asset ticker (fill_OHLC data) commkwargs (bt_index (self s)) line_start) in
  registry_update (bt_hedges (self s)) ticker hedge.

(** *** Properties *)

(** [self.dt]: the date under the main clock's cursor. *)
Definition dt : M date :=
  fun s =>
    match Line_get0 (st_main (store s)) with
    | Some d => (Ok d, s)
    | None => (Raise IndexError, s)
    end.

(** [self.datas]: [{**bases, **assets, **hedges}]. *)
Definition datas (s : State) : Registry :=
  let st := store s in
  let b := self s in
  od_merge (od_merge (registry st (bt_bases b)) (registry st (bt_assets b)))
           (registry st (bt_hedges b)).

Definition mapper : list (string * string) := [("EXPO", "/"); ("BETA", "#")].

Fixpoint dict_getitem (k : string) (d : list (string * string)) : Res string :=
  match d with
  | [] => Raise (KeyError k)
  | (k', v) :: d' => if String.eqb k' k then Ok v else dict_getitem k d'
  end.

(** The book name formula, on the values it reads: the four configuration
    values and the configured hedge method. *)
Definition book_label (method : string) (factor market asset hedge : PyVal) : Res string :=
  let book := py_str factor +:+ "-" +:+ py_str market +:+ "-" +:+ py_str asset in
  if py_truthy hedge then
    match dict_getitem method mapper with
    | Ok sep => Ok (book +:+ sep +:+ py_str hedge)
    | Raise e => Raise e
    end
  else Ok book.

(** [self.bookname]. *)
Definition bookname (b : Backtest) : Res string :=
  book_label _DEFAULT_HEDGE (bt_factor b) (bt_market b) (bt_asset b) (bt_hedge b).

(** *** [Backtest.config_backtest] *)

(** The items of [self.__hash], in the order of the dictionary display. *)
Definition hash_items (b : Backtest) (w : World) : list (PyVal * PyVal) :=
  [(PyStr "factor", bt_factor b);
   (PyStr "market", bt_market b);
   (PyStr "asset", bt_asset b);
   (PyStr "hedge", bt_hedge b);
   (PyStr "base", bt_base b);
   (PyStr "hbase", bt_hbase b);
   (PyStr "vertices", bt_vertices b);
   (PyStr "pipeline", PyStr (pc_name (p_class (bt_pipeline b))));
   (PyStr "model", PyStr (sc_name (s_class (bt_strategy b))));
   (PyStr "params", PyDict (sc_get_params (s_class (bt_strategy b)) w));
   (PyStr "budget", _DEFAULT_VOLATILITY);
   (PyStr "buffer", _DEFAULT_BUFFER)].

(** The identifier of a canonical map: [uuid3(NAMESPACE_DNS, str(map))]. *)
Definition uid_of (h : PyVal) : UUID.t :=
  UUID.uuid3 UUID.NAMESPACE_DNS (py_str h).

Definition config_backtest : M unit :=
  let* s := get in
  let b := self s in
  let h := hash_items b (broker s) in
  let* _ := modify (fun s => with_self (set_hash (PyDict h) (self s)) s) in
  let uid := uid_of (PyDict h) in
  let* _ := modify (fun s => with_self (set_uid uid (self s)) s) in
  let* book := lift (bookname b) in
  modify (fun s =>
    with_self
      (set_properties
         (PyDict (h ++ [(PyStr "uid", PyStr (UUID.hex uid));
                        (PyStr "sdate", PyStr (isoformat (bt_firstdate b)));
                        (PyStr "edate", PyStr (isoformat (bt_lastdate b)));
                        (PyStr "updtime", PyStr (wallclock s));
                        (PyStr "sizing", _DEFAULT_SIZING);
                        (PyStr "thresh", _DEFAULT_THRESH);
                        (PyStr "vparam", _DEFAULT_VPARAM);
                        (PyStr "bookname", PyStr book)]))
         (self s))
      s).

(** *** [Backtest.__advance_buffers] *)

(** [self.__main.next()]. *)
Definition main_next : M unit :=
  let* _ := emit EvMainNext in
  let* s := get in
  let st := store s in
  match Line_next (st_main st) with
  | Some l => modify (with_store (mkStore l (st_regs st) (st_objs st)))
  | None => raise LineExhausted
  end.

(** [data.next()] on the object at [l]. *)
Definition data_next (l : loc) : M unit :=
  let* _ := emit (EvDataNext l) in
  let* s := get in
  let st := store s in
  match st_objs st !! l with
  | Some d =>
      match Data_next d with
      | Some d' => modify (with_store (mkStore (st_main st) (st_regs st) (<[l := d']> (st_objs st))))
      | None => raise LineExhausted
      end
  | None => raise (AttributeError "next")
  end.

Definition advance_buffers : M unit :=
  let* _ := main_next in
  let* _ := call EvBrokerNext Broker_next in
  let* s := get in
  foreach data_next (od_values (datas s)).

(** *** [Backtest.run] *)

(** [self.__hpipeline]: the attribute exists once [config_hedge] has run. *)
Definition hpipeline : M Pipeline :=
  let* s := get in
  match bt_hpipeline (self s) with
  | Some p => ret p
  | None => raise (AttributeError "_Backtest__hpipeline")
  end.

Definition hstrategy : M Strategy :=
  let* s := get in
  match bt_hstrategy (self s) with
  | Some p => ret p
  | None => raise (AttributeError "_Backtest__hstrategy")
  end.

(** The truth value of a registry: not empty. *)
Definition nonempty (d : Registry) : bool :=
  match d with
  | [] => false
  | _ => true
  end.

Definition hedges_registered : M bool :=
  let* s := get in
  ret (nonempty (registry (store s) (bt_hedges (self s)))).

(** The two [init()] calls of a pair, and its two [next()] calls. *)
Definition hedge_init : M unit :=
  let* hp := hpipeline in
  let* _ := call (EvPipelineInit Hedging) (pc_init (p_class hp)) in
  let* hs := hstrategy in
  call (EvStrategyInit Hedging) (sc_init (s_class hs)).

Definition hedge_next : M unit :=
  let* hp := hpipeline in
  let* _ := call (EvPipelineNext Hedging) (pc_next (p_class hp)) in
  let* hs := hstrategy in
  call (EvStrategyNext Hedging) (sc_next (s_class hs)).

(** The body of the [while] loop, up to and including
    [end_of_period()]. *)
Definition tick : M unit :=
  let* _ := advance_buffers in
  let* _ := call EvBegOfPeriod beg_of_period in
  let* s := get in
  let* _ := call (EvPipelineNext Primary) (pc_next (p_class (bt_pipeline (self s)))) in
  let* _ := call (EvStrategyNext Primary) (sc_next (s_class (bt_strategy (self s)))) in
  let* hs := hedges_registered in
  let* _ := when hs hedge_next in
  call EvEndOfPeriod end_of_period.

(** [self.__broker.cum_return < _DEFAULT_MAX_LOSS]. *)
Definition max_loss_hit (s : State) : bool :=
  Q_ltb (cum_return (broker s)) _DEFAULT_MAX_LOSS.

(** The [while] loop.  [fuel] bounds the number of guard evaluations; the
    loop that runs out of it reports [Diverged]. *)
Fixpoint run_loop (fuel : nat) : M unit :=
  match fuel with
  | O => raise Diverged
  | S k =>
      let* d := dt in
      let* s := get in
      if (d <? bt_lastdate (self s))%Z then
        let* _ := tick in
        let* s' := get in
        if max_loss_hit s' then ret tt else run_loop k
      else ret tt
  end.

(** The [while] loop of [run()] and its [return]. *)
Definition simulate : M (option Bundle) :=
  let* s1 := get in
  let* _ := run_loop (S (length (l_array (st_main (store s1))))) in
  let* s2 := get in
  match bt_properties (self s2) with
  | Some m =>
      ret (Some (mkBundle m (Broker_df (broker s2)) (Broker_rec (broker s2)) (broker s2)))
  | None => raise (AttributeError "_Backtest__properties")
  end.

Definition run : M (option Bundle) :=
  let* s0 := get in
  if negb (nonempty (registry (store s0) (bt_assets (self s0)))) then ret None
  else
    let* _ := config_backtest in
    let* _ := call (EvPipelineInit Primary) (pc_init (p_class (bt_pipeline (self s0)))) in
    let* _ := call (EvStrategyInit Primary) (sc_init (s_class (bt_strategy (self s0)))) in
    let* hs := hedges_registered in
    let* _ := when hs hedge_init in
    simulate.

End Orchestrator.

(** ** Vocabulary of the statements *)

Section Vocabulary.

Context `{Externals}.

Definition main_cursor (s : State) : nat := l_cursor (st_main (store s)).

Definition main_length (s : State) : nat := length (l_array (st_main (store s))).

(** Whether the hedge registry holds anything: the test [if self.__hedges]. *)
Definition hedged (s : State) : bool :=
  nonempty (registry (store s) (bt_hedges (self s))).

(** The calls of one [__advance_buffers()]. *)
Definition advance_events (s : State) : list Event :=
  [EvMainNext; EvBrokerNext] ++ map EvDataNext (od_values (datas s)).

(** The calls of one iteration after the advance. *)
Definition period_events (hedge : bool) : list Event :=
  [EvBegOfPeriod; EvPipelineNext Primary; EvStrategyNext Primary]
  ++ (if hedge then [EvPipelineNext Hedging; EvStrategyNext Hedging] else [])
  ++ [EvEndOfPeriod].

(** The calls of one complete iteration. *)
Definition tick_events (s : State) : list Event :=
  advance_events s ++ period_events (hedged s).

(** The [init()] calls of [run()]. *)
Definition init_events (hedge : bool) : list Event :=
  [EvPipelineInit Primary; EvStrategyInit Primary]
  ++ (if hedge then [EvPipelineInit Hedging; EvStrategyInit Hedging] else []).

(** What no step of [run()] changes: the attributes of the instance that
    [config_backtest] does not assign, the wall clock, the registries and
    the array of the main clock; and the metadata record, once assigned,
    stays assigned. *)
Definition keeps (s s' : State) : Prop :=
  bt_index (self s') = bt_index (self s) ∧
  bt_lastdate (self s') = bt_lastdate (self s) ∧
  bt_bases (self s') = bt_bases (self s) ∧
  bt_assets (self s') = bt_assets (self s) ∧
  bt_hedges (self s') = bt_hedges (self s) ∧
  bt_pipeline (self s') = bt_pipeline (self s) ∧
  bt_strategy (self s') = bt_strategy (self s) ∧
  bt_hpipeline (self s') = bt_hpipeline (self s) ∧
  bt_hstrategy (self s') = bt_hstrategy (self s) ∧
  wallclock s' = wallclock s ∧
  st_regs (store s') = st_regs (store s) ∧
  l_array (st_main (store s')) = l_array (st_main (store s)) ∧
  (is_Some (bt_properties (self s)) → is_Some (bt_properties (self s'))).

(** A hedge registry that holds something comes with a configured hedge
    pair. *)
Definition hedge_ready (s : State) : Prop :=
  hedged s = true →
  is_Some (bt_hpipeline (self s)) ∧ is_Some (bt_hstrategy (self s)).

(** The number of [self.__main.next()] calls among the calls [t]. *)
Definition advance_steps (t : list Event) : nat :=
  length (List.filter (fun e => match e with EvMainNext => true | _ => false end) t).

(** The references of a built instance: the three registries are distinct
    objects of the store, and every collaborator was handed the
    orchestrator's own references. *)
Definition wired (s : State) : Prop :=
  let b := self s in
  let n := length (st_regs (store s)) in
  bt_bases b < n ∧ bt_assets b < n ∧ bt_hedges b < n ∧
  bt_bases b ≠ bt_assets b ∧ bt_bases b ≠ bt_hedges b ∧ bt_assets b ≠ bt_hedges b ∧
  p_assets (bt_pipeline b) = bt_assets b ∧
  s_bases (bt_strategy b) = bt_bases b ∧
  s_assets (bt_strategy b) = bt_assets b ∧
  (∀ hp, bt_hpipeline b = Some hp → p_assets hp = bt_hedges b) ∧
  (∀ hs, bt_hstrategy b = Some hs → s_bases hs = bt_bases b ∧ s_assets hs = bt_hedges b).

(** A call of one of the public methods after construction. *)
Inductive Method : Type :=
| CallConfigHedge (pipeline : PipelineClass) (strategy : StrategyClass)
| CallAddBase (ticker : string) (data : Frame)
| CallAddAsset (ticker : string) (data : Frame) (commkwargs : list (string * PyVal))
| CallAddHedge (ticker : string) (data : Frame) (commkwargs : list (string * PyVal))
| CallRun.

(** The state a method call leaves, whether it returned or raised. *)
Definition invoke (m : Method) (s : State) : State :=
  match m with
  | CallConfigHedge p st => snd (config_hedge p st s)
  | CallAddBase t d => snd (add_base t d s)
  | CallAddAsset t d kw => snd (add_asset t d kw s)
  | CallAddHedge t d kw => snd (add_hedge t d kw s)
  | CallRun => snd (run s)
  end.

(** The state after a sequence of method calls, first call first. *)
Definition history (ms : list Method) (s : State) : State :=
  fold_left (fun s m => invoke m s) ms s.




(** The state after [n] iterations of the loop body. *)
Definition after_ticks (n : nat) (s : State) : State :=
  Nat.iter n (fun s => snd (tick s)) s.


End Vocabulary.

(** ** [Strategy.I] *)

(** What the indicator declaration relies on from [pandas] and from
    [utils/bases.py]: the value an indicator function returns, the test
    [isinstance(ind, pd.DataFrame)], [ind.values.T], and the constructor
    [Line(array=..., index=...)], which refuses an array whose length
    differs from the index's (a shape error). *)
Class IndicatorLib : Type := {
  Ind : Type;
  LineObj : Type;
  is_DataFrame : Ind → bool;
  values_T : Ind → Ind;
  Line_new : Ind → list date → option LineObj;
  (** whether two hashable values are one dictionary key: equal hashes
      and [==]; two strs are one key when they are the same string *)
  same_key : PyVal → PyVal → bool;
  same_key_str : ∀ a b : string, same_key (PyStr a) (PyStr b) = String.eqb a b;
}.

Section StrategyI.

Context `{Payload} `{IndicatorLib}.

(** An indicator function: [f.__name__], when it has one, and what
    calling it on keyword arguments does. *)
Record Callable : Type := mkCallable {
  f_name : option string;
  f_call : list (string * PyVal) → Res Ind;
}.

(** The part of a Strategy instance [I] touches: the dictionary
    [self.indicators], in insertion order, and the keyword arguments of
    every invocation of an indicator function so far. *)
Record Indicators : Type := mkIndicators {
  indicators : list (PyVal * LineObj);
  invoked : list (list (string * PyVal));
}.

(** [d[key] = line]: an entry whose key is the same key keeps its place
    and its key object, and gets the new value; a new key goes last. *)
Fixpoint dict_set (key : PyVal) (line : LineObj) (d : list (PyVal * LineObj))
    : list (PyVal * LineObj) :=
  match d with
  | [] => [(key, line)]
  | (k, v) :: d' =>
      if same_key k key then (k, line) :: d' else (k, v) :: dict_set key line d'
  end.

(** [key in d]. *)
Definition dict_has (key : PyVal) (d : list (PyVal * LineObj)) : bool :=
  existsb (fun kv => same_key (fst kv) key) d.

(** [params.pop("name", None)]: the value and what is left. *)
Fixpoint kwargs_pop (key : string) (kw : list (string * PyVal)) : PyVal * list (string * PyVal) :=
  match kw with
  | [] => (PyNone, [])
  | (k, v) :: kw' =>
      if String.eqb k key then (v, kw')
      else let '(r, rest) := kwargs_pop key kw' in (r, (k, v) :: rest)
  end.

(** [tuple(params.items())]. *)
Definition items_tuple (kw : list (string * PyVal)) : PyVal :=
  PyTuple (map (fun kv => PyTuple [PyStr (fst kv); snd kv]) kw).

(** [str(e)] for the exceptions of this development. *)
Definition exn_str (e : Exn) : string :=
  match e with
  | TypeError m | Exception m => m
  | KeyError k => repr_str k
  | AttributeError a => a
  | IndexError | AssertionError | ShapeError | LineExhausted | Diverged => ""
  end.

Definition Strategy_I (data : Data) (f : Callable) (params : list (string * PyVal))
    (st : Indicators) : Res unit * Indicators :=
  if negb (PyType_eqb (d_type data) Asset) then (Raise AssertionError, st)
  else
    let '(name, params) := kwargs_pop "name" params in
    let name_or_error :=
      match name with
      | PyNone =>
          match f_name f with
          | Some n => Ok (PyStr (n +:+ py_str (items_tuple params)))
          | None => Raise (AttributeError "__name__")
          end
      | _ => Ok name
      end in
    match name_or_error with
    | Raise e => (Raise e, st)
    | Ok name =>
        let st1 := mkIndicators (indicators st) (invoked st ++ [params]) in
        match f_call f params with
        | Raise e => (Raise (Exception (exn_str e)), st1)
        | Ok ind =>
            let ind := if is_DataFrame ind then values_T ind else ind in
            match Line_new ind (d_index data) with
            | None => (Raise ShapeError, st1)
            | Some line =>
                match unhashable_type name with
                | Some t =>
                    (Raise (TypeError ("unhashable type: " +:+ chr squote +:+ t +:+ chr squote)), st1)
                | None =>
                    (Ok tt, mkIndicators (dict_set name line (indicators st1)) (invoked st1))
                end
            end
        end
    end.

End StrategyI.

(** ** The accessors of [Backtest] and [__repr__] *)

Section Accessors.

Context `{Externals}.

(** [tuple(d.values())[0]] and [tuple(d.values())[-1]]. *)
Definition first_value (d : Registry) : Res loc :=
  match head (od_values d) with
  | Some l => Ok l
  | None => Raise IndexError
  end.

Definition last_value (d : Registry) : Res loc :=
  match last (od_values d) with
  | Some l => Ok l
  | None => Raise IndexError
  end.

(** [self.base] and [self.hbase]. *)
Definition base : M loc :=
  let* s := get in lift (first_value (registry (store s) (bt_bases (self s)))).

Definition hbase : M loc :=
  let* s := get in lift (last_value (registry (store s) (bt_bases (self s)))).







End Accessors.

(** ** Invariants of a built instance *)

Section Invariants.

Context `{Externals}.

(** The objects the three registries hold. *)
Definition owned (s : State) : list loc :=
  od_values (registry (store s) (bt_bases (self s)))
  ++ od_values (registry (store s) (bt_assets (self s)))
  ++ od_values (registry (store s) (bt_hedges (self s))).

(** A built instance: the references are in place; the main clock runs
    over the index, whose last date is the recorded last date; every data
    object runs over the same index and is not ahead of the main clock;
    the registries hold objects of the store, no object twice, and no
    ticker twice in one registry. *)
Definition synced (s : State) : Prop :=
  wired s ∧
  l_array (st_main (store s)) = bt_index (self s) ∧
  last (bt_index (self s)) = Some (bt_lastdate (self s)) ∧
  (line_start ≤ main_cursor s)%nat ∧
  (∀ l d, st_objs (store s) !! l = Some d →
          d_index d = bt_index (self s) ∧ (d_cursor d ≤ main_cursor s)%nat) ∧
  (∀ l, l ∈ owned s → l < length (st_objs (store s))) ∧
  NoDup (owned s) ∧
  NoDup (od_keys (registry (store s) (bt_bases (self s)))) ∧
  NoDup (od_keys (registry (store s) (bt_assets (self s)))) ∧
  NoDup (od_keys (registry (store s) (bt_hedges (self s)))).

(** The same instance, as far as its references, its index and its last
    date go. *)
Definition same_self (s s' : State) : Prop :=
  bt_index (self s') = bt_index (self s) ∧
  bt_lastdate (self s') = bt_lastdate (self s) ∧
  bt_bases (self s') = bt_bases (self s) ∧
  bt_assets (self s') = bt_assets (self s) ∧
  bt_hedges (self s') = bt_hedges (self s) ∧
  bt_pipeline (self s') = bt_pipeline (self s) ∧
  bt_strategy (self s') = bt_strategy (self s) ∧
  bt_hpipeline (self s') = bt_hpipeline (self s) ∧
  bt_hstrategy (self s') = bt_hstrategy (self s).

(** Every object of the merged view is on the position of the main
    clock. *)
Definition in_step (s : State) : Prop :=
  ∀ l, l ∈ od_values (datas s) →
       d_cursor <$> st_objs (store s) !! l = Some (main_cursor s).

(** The same data object, possibly further along. *)
Definition same_data (d d' : Data) : Prop :=
  d_type d' = d_type d ∧ d_ticker d' = d_ticker d ∧ d_frame d' = d_frame d ∧
  d_comm d' = d_comm d ∧ d_index d' = d_index d ∧ (d_cursor d ≤ d_cursor d')%nat.

(** A call that prepares a run: anything but [run()] itself. *)
Definition is_setup (m : Method) : bool :=
  match m with
  | CallRun => false
  | _ => true
  end.

(** The registry a call registers into, and the ticker it registers. *)
Definition registers (m : Method) (b : Backtest) : option (loc * string) :=
  match m with
  | CallAddBase t _ => Some (bt_bases b, t)
  | CallAddAsset t _ _ => Some (bt_assets b, t)
  | CallAddHedge t _ _ => Some (bt_hedges b, t)
  | _ => None
  end.

(** The loop goes on from [s]: the date under the cursor is before the
    last date. *)
Definition goes_on (s : State) : Prop :=
  ∃ d, Line_get0 (st_main (store s)) = Some d ∧ (d < bt_lastdate (self s))%Z.

(** The loop has no reason to go on from [s]: the date under the cursor
    is the last date or a later one, or the circuit breaker has tripped. *)
Definition stopped (s : State) : Prop :=
  (∃ d, Line_get0 (st_main (store s)) = Some d ∧ (bt_lastdate (self s) ≤ d)%Z)
  ∨ max_loss_hit s = true.

End Invariants.

(** ** [Strategy.buy] and [Strategy.sell] *)

Section Orders.

Context {Ledger Receipt : Type}.

(** [self.__broker.order(ticker, size, price)], on the Broker's ledger;
    the Broker is not among the sources. *)
Variable order : string → Q → Q → Ledger → Receipt * Ledger.

(** A size is a finite number. *)
Definition buy (ticker : string) (size price : Q) : Ledger → Receipt * Ledger :=
  order ticker (Qabs size) price.

Definition sell (ticker : string) (size price : Q) : Ledger → Receipt * Ledger :=
  order ticker (- Qabs size)%Q price.

End Orders.

(** ** The functions of [indicators/indicators.py], as [I] calls them *)

Section IndicatorFunctions.

Context `{IndicatorLib}.

Definition quoted (name : string) : string := chr squote +:+ name +:+ chr squote.

(** The names of the missing arguments, as the interpreter lists them. *)
Definition name_list (names : list string) : string :=
  match names with
  | [] => ""
  | [a] => quoted a
  | [a; b] => quoted a +:+ " and " +:+ quoted b
  | _ =>
      join ", " (map quoted (removelast names))
      +:+ ", and " +:+ quoted (List.last names "")
  end.

(** The call [f(..kw)] of a function [def f(p1, ..., pn, *args)] with
    keyword arguments only: a keyword that names no parameter is refused
    first, then the parameters left without a value. *)
Definition bind_keywords (name : string) (params : list string)
    (kw : list (string * PyVal)) : Res (list PyVal) :=
  match List.find (fun kv => negb (existsb (String.eqb (fst kv)) params)) kw with
  | Some (k, _) =>
      Raise (TypeError (name +:+ "() got an unexpected keyword argument " +:+ quoted k))
  | None =>
      match List.filter (fun p => negb (existsb (String.eqb p) (map fst kw))) params with
      | [] => Ok (map (fun p => kwargs_get p kw) params)
      | missing =>
          Raise (TypeError
            (name +:+ "() missing " +:+ repr_int (Z.of_nat (length missing))
             +:+ " required positional argument"
             +:+ (if (length missing =? 1)%nat then "" else "s")
             +:+ ": " +:+ name_list missing))
      end
  end.

(** A function [def name(p1, ..., pn, *args)] with the given body. *)
Definition def (name : string) (params : list string)
    (body : list PyVal → Res Ind) : Callable :=
  mkCallable (Some name)
    (fun kw =>
       match bind_keywords name params kw with
       | Ok args => body args
       | Raise e => Raise e
       end).

(** The name and the parameters of each function of the module; each also
    takes [*args]. *)
Definition indicators_py : list (string * list string) :=
  [("Buy_n_Hold", ["data"]);
   ("Sell_n_Hold", ["data"]);
   ("SMACross", ["data"; "p1"; "p2"]);
   ("SMARatio", ["data"; "p1"; "p2"]);
   ("RevSMACross", ["data"; "p1"; "p2"]);
   ("EMACross", ["data"; "p1"; "p2"])].

End IndicatorFunctions.

(** ** A concrete instance

    The collaborators' state is the number of periods the Broker has
    closed; the cumulative return is 0 for the first two periods and -1
    afterwards, against a max-loss threshold of -1/2. *)

Module Demo.

#[local] Instance payload : Payload :=
  {| Frame := list Z; World := nat; Table := nat |}.

#[local] Instance ext : Externals :=
  {| fill_OHLC := fun d => d;
     isoformat := repr_int;
     line_start := 0;
     Broker_new := fun _ _ => 0;
     Broker_next := fun _ w => w;
     beg_of_period := fun _ w => w;
     end_of_period := fun _ w => S w;
     cum_return := fun w => if (3 <=? w)%nat then (-1)%Q else 0%Q;
     add_curr := fun _ _ w => w;
     add_carry := fun _ _ w => w;
     add_market := fun _ _ w => w;
     Broker_df := fun w => w;
     Broker_rec := fun w => w;
     _DEFAULT_BUFFER := PyInt 200;
     _DEFAULT_HEDGE := "EXPO";
     _DEFAULT_SIZING := PyStr "EWMA";
     _DEFAULT_THRESH := PyFloat "0.0";
     _DEFAULT_VPARAM := PyFloat "0.05";
     _DEFAULT_MAX_LOSS := (-1 # 2)%Q;
     _DEFAULT_VOLATILITY := PyFloat "0.1";
     _DEFAULT_CARRY := "CARRY";
     _DEFAULT_PAIRS := ["USDBRL"; "EURBRL"];
     _DEFAULT_ECHO := false;
     _DEFAULT_MARKET := "IBOV" |}.

Definition idle : Store → World → World := fun _ w => w.

(** A constructor that takes the keywords it is called with. *)
Definition accepting : Constructor := fun _ _ w => (Ok tt, w).

Definition Single : PipelineClass :=
  mkPipelineClass "Single" ["Single"; "Pipeline"; "object"] accepting idle idle.

Definition Rolling : PipelineClass :=
  mkPipelineClass "Rolling" ["Rolling"; "Pipeline"; "object"] accepting idle idle.

(** Two Strategy subclasses with a constructor of their own, which takes
    the four keywords [Backtest] passes. *)
Definition Riskpar_BuyNHold : StrategyClass :=
  mkStrategyClass "Riskpar_BuyNHold" ["Riskpar_BuyNHold"; "Strategy"; "object"]
    accepting idle idle (fun _ => []).

Definition Hedge_Expo : StrategyClass :=
  mkStrategyClass "Hedge_Expo" ["Hedge_Expo"; "Strategy"; "object"]
    accepting idle idle (fun _ => []).

(** A Strategy subclass that defines [init] and [next] and inherits the
    constructor of [Strategy]. *)
Definition Plain : StrategyClass :=
  mkStrategyClass "Plain" ["Plain"; "Strategy"; "object"]
    (Strategy_new "Plain" []) idle idle (fun _ => []).



(** Six trading days. *)
Definition calendar : CalendarObj :=
  mkCalendar ["Calendar"; "object"] [738000; 738001; 738002; 738005; 738006; 738007]%Z [].

Definition config : list (string * PyVal) :=
  [("factor", PyStr "RISKPAR"); ("market", PyStr "COMMODITIES");
   ("asset", PyStr "BIAU39"); ("hedge", PyStr "DOL");
   ("base", PyStr "XAU"); ("hbase", PyStr "USDBRL")].

(** The state a method leaves, whatever it returned. *)
Definition after {A} (m : M A) (s : State) : State := snd (m s).

(** The index positions after the main cursor. *)
Definition main_steps_left (s : State) : nat := main_length s - 1 - main_cursor s.

(** An instance with nothing in it, standing for the instance that was
    never built when the constructor raises. *)
Definition blank : State :=
  let p := mkPipeline Single None 0 in
  mkState
    (mkBacktest [] 0%Z 0%Z PyNone PyNone PyNone PyNone PyNone PyNone PyNone 0 0 0
       p (mkStrategy Riskpar_BuyNHold p 0 0) None None None None None)
    (mkStore (mkLine [] 0) [] []) 0 "" [].

Definition built (r : Res State) : State :=
  match r with
  | Ok s => s
  | Raise _ => blank
  end.

(** [Backtest(strategy=Riskpar_BuyNHold, pipeline=Single, calendar=cal, ..cfg)]. *)
Definition fresh_on (cal : CalendarObj) (cfg : list (string * PyVal)) (now : string) : State :=
  built (Backtest_init Riskpar_BuyNHold Single cal cfg now).

Definition fresh : State := fresh_on calendar config "2021-06-01T12:00:00".

(** Three trading days. *)
Definition short_calendar : CalendarObj :=
  mkCalendar ["Calendar"; "object"] [738000; 738001; 738002]%Z [].

(** A set-up after [examples/single_receipts.py]: a hedge pair, three
    bases, an asset and two hedge contracts. *)
Definition receipts : State :=
  after (add_hedge "DOLN21" [] [("multiplier", PyInt 50)])
  (after (add_hedge "DOLM21" [] [("multiplier", PyInt 50)])
  (after (add_asset "BIAU39" [] [])
  (after (add_base "USDBRL" [])
  (after (add_base "carry" [])
  (after (add_base "XAU" [])
  (after (config_hedge Rolling Hedge_Expo) fresh)))))).


(** A hedge contract is registered and no asset is. *)
Definition only_hedges : State :=
  after (add_hedge "DOLM21" [] [])
  (after (config_hedge Rolling Hedge_Expo) fresh).

(** The ticker "XAU" is registered as a base and as an asset, over the
    three-day calendar. *)
Definition shadowed : State :=
  after (add_asset "XAU" [] [])
  (after (add_base "XAU" []) (fresh_on short_calendar config "2021-06-01T12:00:00")).









(** Indicator values are arrays of integers; a Line takes an array as
    long as its index; the names of indicators are strs. *)
#[local] Instance indlib : IndicatorLib :=
  {| Ind := list Z;
     LineObj := list Z;
     is_DataFrame := fun _ => false;
     values_T := fun i => i;
     Line_new := fun ind idx =>
       if (length ind =? length idx)%nat then Some ind else None;
     same_key := fun a b =>
       match a, b with
       | PyStr x, PyStr y => String.eqb x y
       | _, _ => false
       end;
     same_key_str := fun _ _ => eq_refl |}.

(** An Asset over the six-day calendar. *)
Definition biau39 : Data :=
  mkData Asset "BIAU39" [] [] (cal_index calendar) 0.

(** [np.ones(len(data))] over six days, whatever the arguments. *)
Definition six_ones : list PyVal → Res Ind := fun _ => Ok [1; 1; 1; 1; 1; 1]%Z.

(** An indicator function that takes any keywords and returns six ones. *)
Definition ones : Callable :=
  mkCallable (Some "ones") (fun _ => Ok [1; 1; 1; 1; 1; 1]%Z).

End Demo.


(** * Properties *)

Section Proofs.

Context `{Externals}.

(** ** Frame facts *)

Lemma keeps_refl (s : State) : keeps s s.
Proof. unfold keeps. split_and!; auto. Qed.

Lemma keeps_trans (s1 s2 s3 : State) : keeps s1 s2 → keeps s2 s3 → keeps s1 s3.
Proof. unfold keeps. intros H12 H23. intuition congruence. Qed.

Lemma keeps_datas (s s' : State) : keeps s s' → datas s' = datas s.
Proof.
  unfold keeps, datas, registry. intros K.
  destruct K as (_ & _ & -> & -> & -> & _ & _ & _ & _ & _ & -> & _). reflexivity.
Qed.

Lemma keeps_hedged (s s' : State) : keeps s s' → hedged s' = hedged s.
Proof.
  unfold keeps, hedged, registry. intros K.
  destruct K as (_ & _ & _ & _ & -> & _ & _ & _ & _ & _ & -> & _). reflexivity.
Qed.

Lemma keeps_tick_events (s s' : State) : keeps s s' → tick_events s' = tick_events s.
Proof.
  intros K. unfold tick_events, advance_events.
  rewrite (keeps_datas _ _ K), (keeps_hedged _ _ K). reflexivity.
Qed.

Lemma keeps_main_length (s s' : State) : keeps s s' → main_length s' = main_length s.
Proof. unfold keeps, main_length. intros K. destruct K as (_&_&_&_&_&_&_&_&_&_&_& -> &_). reflexivity. Qed.

(** ** One advance *)

Lemma data_next_spec (l : loc) (s : State) :
  ∃ r s', data_next l s = (r, s') ∧ keeps s s' ∧
    trace s' = trace s ++ [EvDataNext l] ∧ broker s' = broker s ∧
    st_main (store s') = st_main (store s) ∧ r ≠ Raise Diverged.
Proof.
  unfold data_next, bind, emit, modify, get, raise, keeps. simpl.
  destruct (st_objs (store s) !! l) as [d|]; [destruct (Data_next d)|];
    simpl; do 2 eexists; split_and!; auto; discriminate.
Qed.

Lemma foreach_data_next_spec (ls : list loc) (s : State) :
  ∃ r s' done, foreach data_next ls s = (r, s') ∧ keeps s s' ∧
    trace s' = trace s ++ map EvDataNext done ∧ done `prefix_of` ls ∧
    (r = Ok tt → done = ls) ∧
    broker s' = broker s ∧ st_main (store s') = st_main (store s) ∧
    r ≠ Raise Diverged.
Proof.
  revert s. induction ls as [|l ls IH]; intros s; simpl.
  - exists (Ok tt), s, []. unfold ret. rewrite app_nil_r.
    split_and!; auto using keeps_refl.
  - unfold bind.
    destruct (data_next_spec l s) as (r & s1 & -> & K1 & T1 & B1 & M1 & D1).
    destruct r as [[]|e].
    + destruct (IH s1) as (r2 & s2 & done & -> & K2 & T2 & P2 & O2 & B2 & M2 & D2).
      exists r2, s2, (l :: done). split_and!.
      * reflexivity.
      * eauto using keeps_trans.
      * rewrite T2, T1. simpl. rewrite <- app_assoc. reflexivity.
      * apply prefix_cons, P2.
      * intros E. f_equal. auto.
      * congruence.
      * congruence.
      * exact D2.
    + exists (Raise e), s1, [l]. split_and!; auto.
      * apply prefix_cons, prefix_nil.
      * discriminate.
Qed.

Lemma keeps_hedge_ready (s s' : State) : keeps s s' → hedge_ready s → hedge_ready s'.
Proof.
  intros K R. unfold hedge_ready. rewrite (keeps_hedged _ _ K).
  destruct K as (_&_&_&_&_&_&_& -> & -> &_). exact R.
Qed.

Lemma prefix_map {A B} (f : A → B) (l1 l2 : list A) :
  l1 `prefix_of` l2 → map f l1 `prefix_of` map f l2.
Proof. intros [k ->]. rewrite map_app. by apply prefix_app_r. Qed.

Lemma main_next_spec (s : State) :
  ∃ r s', main_next s = (r, s') ∧ keeps s s' ∧
    trace s' = trace s ++ [EvMainNext] ∧ broker s' = broker s ∧
    (r = Ok tt → main_cursor s' = S (main_cursor s) ∧ S (main_cursor s) < main_length s) ∧
    r ≠ Raise Diverged.
Proof.
  unfold main_next, bind, emit, modify, get, raise, Line_next, keeps, main_cursor, main_length.
  simpl. destruct (S _ <? _)%nat eqn:E; simpl; do 2 eexists;
    split_and!; try reflexivity; try discriminate; auto.
  intros _. split; [reflexivity|]. by apply Nat.ltb_lt.
Qed.

Lemma advance_buffers_spec (s : State) :
  ∃ r s' done, advance_buffers s = (r, s') ∧ keeps s s' ∧
    trace s' = trace s ++ done ∧ done `prefix_of` advance_events s ∧
    (r = Ok tt → done = advance_events s ∧
       main_cursor s' = S (main_cursor s) ∧ S (main_cursor s) < main_length s) ∧
    r ≠ Raise Diverged.
Proof.
  unfold advance_buffers, bind.
  destruct (main_next_spec s) as (r1 & s1 & -> & K1 & T1 & B1 & C1 & D1).
  destruct r1 as [[]|e].
  - unfold call, modify, get. simpl.
    set (s2 := with_broker _ _).
    assert (K2 : keeps s s2) by (revert K1; unfold keeps; simpl; tauto).
    destruct (foreach_data_next_spec (od_values (datas s2)) s2)
      as (r3 & s3 & done & -> & K3 & T3 & P3 & O3 & _ & M3 & D3).
    rewrite (keeps_datas _ _ K2) in *.
    exists r3, s3, ([EvMainNext; EvBrokerNext] ++ map EvDataNext done). split_and!.
    + reflexivity.
    + eauto using keeps_trans.
    + rewrite T3. subst s2. simpl. rewrite T1, <- !app_assoc. reflexivity.
    + unfold advance_events. apply prefix_app, prefix_map, P3.
    + intros E. rewrite (O3 E). split; [reflexivity|].
      destruct (C1 eq_refl) as [C L]. unfold main_cursor in *. rewrite M3.
      subst s2. simpl. auto.
    + exact D3.
  - exists (Raise e), s1, [EvMainNext]. split_and!; auto.
    + unfold advance_events. simpl. apply prefix_cons, prefix_nil.
    + discriminate.
Qed.

(** ** One iteration *)

Ltac pair_call :=
  unfold hpipeline, hstrategy, bind, get, ret, raise, call, modify; simpl;
  match goal with s : State |- _ =>
    destruct (bt_hpipeline (self s)) as [hp|]; simpl;
    [destruct (bt_hstrategy (self s)) as [hs|]; simpl|]
  end;
  do 3 eexists;
  (split_and!;
   [reflexivity
   |unfold keeps; simpl; split_and!; auto
   |first [symmetry; apply app_nil_r | simpl; rewrite <- ?app_assoc; simpl; reflexivity]
   |simpl; reflexivity
   |try (repeat apply prefix_cons; apply prefix_nil)
   |try discriminate; try (intros _; reflexivity)
   |try (intros _; reflexivity); intros [[? ?] [? ?]]; discriminate
   |discriminate]).

Lemma hedge_next_spec (s : State) :
  ∃ r s' done, hedge_next s = (r, s') ∧ keeps s s' ∧
    trace s' = trace s ++ done ∧ st_main (store s') = st_main (store s) ∧
    done `prefix_of` [EvPipelineNext Hedging; EvStrategyNext Hedging] ∧
    (r = Ok tt → done = [EvPipelineNext Hedging; EvStrategyNext Hedging]) ∧
    (is_Some (bt_hpipeline (self s)) ∧ is_Some (bt_hstrategy (self s)) → r = Ok tt) ∧
    r ≠ Raise Diverged.
Proof. unfold hedge_next. pair_call. Qed.

Lemma hedge_init_spec (s : State) :
  ∃ r s' done, hedge_init s = (r, s') ∧ keeps s s' ∧
    trace s' = trace s ++ done ∧ st_main (store s') = st_main (store s) ∧
    done `prefix_of` [EvPipelineInit Hedging; EvStrategyInit Hedging] ∧
    (r = Ok tt → done = [EvPipelineInit Hedging; EvStrategyInit Hedging]) ∧
    (is_Some (bt_hpipeline (self s)) ∧ is_Some (bt_hstrategy (self s)) → r = Ok tt) ∧
    r ≠ Raise Diverged.
Proof. unfold hedge_init. pair_call. Qed.

Lemma tick_spec (s : State) :
  ∃ r s' done, tick s = (r, s') ∧ keeps s s' ∧
    trace s' = trace s ++ done ∧ done `prefix_of` tick_events s ∧
    (r = Ok tt → done = tick_events s ∧
       main_cursor s' = S (main_cursor s) ∧ S (main_cursor s) < main_length s) ∧
    (r ≠ Ok tt → hedge_ready s → done `prefix_of` advance_events s) ∧
    r ≠ Raise Diverged.
Proof.
  unfold tick, bind.
  destruct (advance_buffers_spec s) as (r1 & s1 & done & -> & K1 & T1 & P1 & O1 & D1).
  destruct r1 as [[]|e].
  2:{ exists (Raise e), s1, done. split_and!; auto.
      - unfold tick_events. by apply prefix_app_r.
      - discriminate. }
  destruct (O1 eq_refl) as (-> & C1 & L1).
  unfold call, modify, get, hedges_registered, bind, get, ret. simpl.
  set (s2 := with_broker _ (with_trace _ (with_broker _ _))).
  assert (K2 : keeps s s2) by (revert K1; unfold keeps; simpl; tauto).
  assert (T2 : trace s2 = trace s ++ advance_events s ++
                 [EvBegOfPeriod; EvPipelineNext Primary; EvStrategyNext Primary]).
  { subst s2. simpl. rewrite T1, <- !app_assoc. reflexivity. }
  assert (C2 : main_cursor s2 = S (main_cursor s)) by (rewrite <- C1; reflexivity).
  change (registry (store s1) (bt_hedges (self s1))) with
    (registry (store s2) (bt_hedges (self s2))).
  fold (hedged s2). rewrite (keeps_hedged _ _ K2).
  clearbody s2. clear dependent s1.
  unfold tick_events, period_events.
  destruct (hedged s) eqn:Eh; unfold when.
  - destruct (hedge_next_spec s2) as (r3 & s3 & done & -> & K3 & T3 & M3 & P3 & O3 & R3 & D3).
    destruct r3 as [[]|e].
    + rewrite (O3 eq_refl) in *. do 3 eexists. split_and!; [reflexivity| | | | | |discriminate].
      * apply (keeps_trans _ s2); [exact K2|]. apply (keeps_trans _ s3); [exact K3|].
        unfold keeps; simpl; split_and!; auto.
      * simpl. rewrite T3, T2, <- !app_assoc. simpl. reflexivity.
      * reflexivity.
      * intros _. split_and!; [reflexivity| |exact L1].
        unfold main_cursor in *. simpl. rewrite M3. exact C2.
      * intros N. by destruct N.
    + exists (Raise e), s3, (advance_events s ++
        [EvBegOfPeriod; EvPipelineNext Primary; EvStrategyNext Primary] ++ done).
      split_and!; [reflexivity| | | | | |exact D3].
      * eauto using keeps_trans.
      * rewrite T3, T2, <- !app_assoc. reflexivity.
      * apply prefix_app. do 3 apply prefix_cons. by apply prefix_app_r.
      * discriminate.
      * intros _ R. destruct (R Eh) as [R1 R2].
        assert (K2' := K2). destruct K2' as (_&_&_&_&_&_&_& E1 & E2 &_).
        rewrite <- E1 in R1. rewrite <- E2 in R2. discriminate (R3 (conj R1 R2)).
  - unfold ret. do 3 eexists. split_and!; [reflexivity| | | | | |discriminate].
    + apply (keeps_trans _ s2); [exact K2|]. unfold keeps; simpl; split_and!; auto.
    + simpl. rewrite T2, <- !app_assoc. simpl. reflexivity.
    + reflexivity.
    + intros _. split_and!; [reflexivity|exact C2|exact L1].
    + intros N. by destruct N.
Qed.

(** ** The loop *)

Lemma dt_in_range (s : State) (d : date) :
  Line_get0 (st_main (store s)) = Some d → main_cursor s < main_length s.
Proof. unfold Line_get0, main_cursor, main_length. apply lookup_lt_Some. Qed.

Lemma run_loop_spec (fuel : nat) : ∀ s,
  ∃ r s' k tail, run_loop fuel s = (r, s') ∧ keeps s s' ∧
    trace s' = trace s ++ concat (replicate k (tick_events s)) ++ tail ∧
    tail `prefix_of` tick_events s ∧
    (k ≤ main_length s - 1 - main_cursor s)%nat ∧
    (r = Ok tt → tail = [] ∧ main_cursor s' = main_cursor s + k ∧
                 main_cursor s' < main_length s) ∧
    (r ≠ Ok tt → hedge_ready s → tail `prefix_of` advance_events s) ∧
    (main_length s - main_cursor s < fuel → r ≠ Raise Diverged).
Proof.
  induction fuel as [|fuel IH]; intros s.
  - exists (Raise Diverged), s, 0, []. simpl. rewrite app_nil_r.
    split_and!; auto using keeps_refl, prefix_nil; try lia. discriminate.
  - simpl. unfold bind, dt, get.
    destruct (Line_get0 (st_main (store s))) as [d|] eqn:Ed.
    2:{ exists (Raise IndexError), s, 0, []. simpl. rewrite app_nil_r.
        split_and!; auto using keeps_refl, prefix_nil; try lia; discriminate. }
    pose proof (dt_in_range _ _ Ed) as Hin. simpl.
    destruct (d <? bt_lastdate (self s))%Z.
    2:{ exists (Ok tt), s, 0, []. unfold ret. simpl. rewrite app_nil_r.
        split_and!; auto using keeps_refl, prefix_nil; try lia; try discriminate;
          try (intros N; by destruct N). }
    destruct (tick_spec s) as (r1 & s1 & done & -> & K1 & T1 & P1 & O1 & R1 & D1).
    destruct r1 as [[]|e]; simpl.
    2:{ exists (Raise e), s1, 0, done. simpl.
        split_and!; auto; try lia; discriminate. }
    destruct (O1 eq_refl) as (-> & C1 & L1).
    pose proof (keeps_main_length _ _ K1) as Hlen.
    destruct (max_loss_hit s1).
    + exists (Ok tt), s1, 1, []. unfold ret. simpl. rewrite !app_nil_r.
      split_and!; auto using prefix_nil; try lia; try discriminate;
        try (intros N; by destruct N).
      intros _. split_and!; [reflexivity|lia|lia].
    + destruct (IH s1) as (r2 & s2 & k & tail & -> & K2 & T2 & P2 & B2 & O2 & R2 & D2).
      rewrite (keeps_tick_events _ _ K1) in *.
      exists r2, s2, (S k), tail. split_and!.
      * reflexivity.
      * eauto using keeps_trans.
      * rewrite T2, T1. cbn [replicate concat]. rewrite <- !app_assoc. reflexivity.
      * exact P2.
      * lia.
      * intros E. destruct (O2 E) as (-> & C2 & L2). split_and!; [reflexivity|lia|lia].
      * intros N R. unfold advance_events in *. rewrite <- (keeps_datas _ _ K1).
        apply R2; [exact N|]. eauto using keeps_hedge_ready.
      * intros F. apply D2. lia.
Qed.

(** ** [config_backtest] and [run] *)

Lemma config_backtest_spec (s : State) :
  ∃ r s', config_backtest s = (r, s') ∧ keeps s s' ∧
    trace s' = trace s ∧ broker s' = broker s ∧ store s' = store s ∧
    bt_hash (self s') = Some (PyDict (hash_items (self s) (broker s))) ∧
    bt_uid (self s') = Some (uid_of (PyDict (hash_items (self s) (broker s)))) ∧
    (is_Some (bt_properties (self s)) → is_Some (bt_properties (self s'))) ∧
    match bookname (self s) with
    | Ok _ => r = Ok tt ∧ is_Some (bt_properties (self s'))
    | Raise e => r = Raise e ∧ ∃ k, e = KeyError k
    end.
Proof.
  unfold config_backtest, bind, get, modify, lift. simpl.
  assert (Hk : ∀ e, bookname (self s) = Raise e → ∃ k, e = KeyError k).
  { unfold bookname, book_label. destruct (py_truthy _); [|discriminate].
    generalize mapper. induction l as [|[k v] l IH]; simpl.
    - intros e [= <-]. eauto.
    - destruct (String.eqb k _); [discriminate|exact IH]. }
  destruct (bookname (self s)) as [book|e]; simpl;
    do 2 eexists; (split_and!; [reflexivity|unfold keeps; simpl; split_and!; auto|..]);
    simpl; try reflexivity; eauto.
Qed.

Lemma simulate_spec (s : State) :
  is_Some (bt_properties (self s)) →
  ∃ r s' k tail, simulate s = (r, s') ∧ keeps s s' ∧
    trace s' = trace s ++ concat (replicate k (tick_events s)) ++ tail ∧
    r ≠ Raise Diverged ∧
    tail `prefix_of` tick_events s ∧
    (hedge_ready s → tail `prefix_of` advance_events s) ∧
    (k ≤ main_length s - 1 - main_cursor s)%nat ∧
    (is_Ok r → tail = [] ∧ main_cursor s' = main_cursor s + k ∧
               main_cursor s' < main_length s).
Proof.
  intros P. unfold simulate, bind, get.
  destruct (run_loop_spec (S (length (l_array (st_main (store s))))) s)
    as (r3 & s3 & k & tail & -> & K3 & T3 & Pt & Bk & O3 & R3 & D3).
  assert (Hfuel : r3 ≠ Raise Diverged).
  { apply D3. fold (main_length s). lia. }
  destruct r3 as [[]|e].
  - destruct (O3 eq_refl) as (-> & C3 & L3).
    assert (P3 : is_Some (bt_properties (self s3))).
    { destruct K3 as (_&_&_&_&_&_&_&_&_&_&_&_& K3). auto. }
    destruct P3 as [m Em]. rewrite Em. unfold ret.
    do 4 eexists.
    split_and!; [reflexivity|exact K3|exact T3|discriminate|..]; auto using prefix_nil.
  - do 4 eexists. split_and!; [reflexivity|exact K3|exact T3|congruence|..]; auto.
    intros [? [=]].
Qed.

(** The shape of every run that gets past the early exit: the [init()]
    calls, a number of complete iterations, and what the iteration that
    raised got to. *)
Lemma run_spec (s : State) :
  nonempty (registry (store s) (bt_assets (self s))) = true →
  ∃ r s' done, run s = (r, s') ∧ keeps s s' ∧ trace s' = trace s ++ done ∧
    r ≠ Raise Diverged ∧
    match bookname (self s) with
    | Raise e => r = Raise e ∧ done = []
    | Ok _ =>
        ∃ inits k tail,
          done = inits ++ concat (replicate k (tick_events s)) ++ tail ∧
          inits `prefix_of` init_events (hedged s) ∧
          (hedge_ready s → inits = init_events (hedged s)) ∧
          tail `prefix_of` tick_events s ∧
          (hedge_ready s → tail `prefix_of` advance_events s) ∧
          (k ≤ main_length s - 1 - main_cursor s)%nat ∧
          (is_Ok r → tail = [] ∧ inits = init_events (hedged s) ∧
                     main_cursor s' = main_cursor s + k ∧
                     main_cursor s' < main_length s)
    end.
Proof.
  intros Ha. unfold run, bind, get. cbn beta iota. rewrite Ha. cbn [negb].
  destruct (config_backtest_spec s) as (r0 & s0 & -> & K0 & T0 & B0 & S0 & _ & _ & _ & Hb).
  destruct (bookname (self s)) as [book|e].
  2:{ destruct Hb as (-> & k & ->). exists (Raise (KeyError k)), s0, [].
      rewrite app_nil_r. split_and!; auto; discriminate. }
  destruct Hb as (-> & Hp).
  unfold call, modify, hedges_registered, bind, get, ret. cbn beta iota.
  set (s1 := with_broker _ (with_trace _ (with_broker _ _))).
  assert (K1 : keeps s s1) by (revert K0; unfold keeps; simpl; tauto).
  assert (T1 : trace s1 = trace s ++ [EvPipelineInit Primary; EvStrategyInit Primary]).
  { subst s1. simpl. rewrite T0, <- !app_assoc. reflexivity. }
  assert (C1 : main_cursor s1 = main_cursor s).
  { subst s1. unfold main_cursor. simpl. rewrite S0. reflexivity. }
  assert (P1 : is_Some (bt_properties (self s1))) by exact Hp.
  change (registry (store s1) (bt_hedges (self s1))) with
    (registry (store s1) (bt_hedges (self s1))).
  fold (hedged s1). rewrite (keeps_hedged _ _ K1).
  clearbody s1. clear dependent s0.
  assert (Hloop : ∀ s2 inits, keeps s s2 → trace s2 = trace s ++ inits →
            main_cursor s2 = main_cursor s → is_Some (bt_properties (self s2)) →
            inits = init_events (hedged s) →
            ∃ r s' done, simulate s2 = (r, s') ∧ keeps s s' ∧ trace s' = trace s ++ done ∧
              r ≠ Raise Diverged ∧
              ∃ inits k tail,
                done = inits ++ concat (replicate k (tick_events s)) ++ tail ∧
                inits `prefix_of` init_events (hedged s) ∧
                (hedge_ready s → inits = init_events (hedged s)) ∧
                tail `prefix_of` tick_events s ∧
                (hedge_ready s → tail `prefix_of` advance_events s) ∧
                (k ≤ main_length s - 1 - main_cursor s)%nat ∧
                (is_Ok r → tail = [] ∧ inits = init_events (hedged s) ∧
                           main_cursor s' = main_cursor s + k ∧
                           main_cursor s' < main_length s)).
  { intros s2 inits K2 T2 C2 P2 ->.
    destruct (simulate_spec s2 P2) as (r3 & s3 & k & tail & -> & K3 & T3 & D3 & Pt & R3 & Bk & O3).
    rewrite (keeps_tick_events _ _ K2) in *.
    rewrite (keeps_main_length _ _ K2), C2 in *.
    exists r3, s3, (init_events (hedged s) ++ concat (replicate k (tick_events s)) ++ tail).
    split_and!; [reflexivity|eauto using keeps_trans| |exact D3|].
    - rewrite T3, T2, <- !app_assoc. reflexivity.
    - exists (init_events (hedged s)), k, tail. split_and!; auto.
      + intros R. unfold advance_events. rewrite <- (keeps_datas _ _ K2).
        apply R3. eauto using keeps_hedge_ready.
      + intros E. destruct (O3 E) as (? & ? & ?). auto. }
  unfold init_events in *.
  destruct (hedged s) eqn:Eh; unfold when.
  - destruct (hedge_init_spec s1) as (r2 & s2 & dh & -> & K2 & T2 & M2 & P2 & O2 & R2 & D2).
    destruct r2 as [[]|e].
    + rewrite (O2 eq_refl) in *.
      apply (Hloop s2 ([EvPipelineInit Primary; EvStrategyInit Primary] ++
                       [EvPipelineInit Hedging; EvStrategyInit Hedging])).
      * eauto using keeps_trans.
      * rewrite T2, T1, <- !app_assoc. reflexivity.
      * unfold main_cursor in *. rewrite M2. exact C1.
      * destruct K2 as (_&_&_&_&_&_&_&_&_&_&_&_& K2). auto.
      * reflexivity.
    + exists (Raise e), s2, ([EvPipelineInit Primary; EvStrategyInit Primary] ++ dh).
      split_and!; [reflexivity|eauto using keeps_trans| |congruence|].
      * rewrite T2, T1, <- !app_assoc. reflexivity.
      * exists ([EvPipelineInit Primary; EvStrategyInit Primary] ++ dh), 0, [].
        assert (Hnr : ¬ hedge_ready s).
        { intros R. destruct (R Eh) as [R1' R2'].
          assert (K1' := K1). destruct K1' as (_&_&_&_&_&_&_& E1 & E2 &_).
          rewrite <- E1 in R1'. rewrite <- E2 in R2'. discriminate (R2 (conj R1' R2')). }
        simpl. rewrite app_nil_r. split_and!; auto using prefix_nil; try lia.
        -- do 2 apply prefix_cons. exact P2.
        -- intros R. by destruct Hnr.
        -- intros [? [=]].
  - apply (Hloop s1 ([EvPipelineInit Primary; EvStrategyInit Primary] ++ [])); auto.
Qed.

End Proofs.

Section Claims.

Context `{Externals}.

(** ** The early exit of [run()] *)

(** C4.  On a Backtest whose asset registry is empty, [run()] returns
    [None] and leaves the whole state as it was: no call is recorded, the
    collaborators' state and every cursor are untouched.  Nothing else of
    the instance is looked at, the hedge registry included. *)
Theorem run_without_assets (s : State) :
  registry (store s) (bt_assets (self s)) = [] → run s = (Ok None, s).
Proof.
  intros Hempty. unfold run, bind, get. cbn beta iota.
  rewrite Hempty. cbn [nonempty negb]. reflexivity.
Qed.

(** ** The circuit breaker *)

Lemma Q_ltb_lt (x y : Q) : Q_ltb x y = true ↔ (x < y)%Q.
Proof.
  unfold Q_ltb. rewrite negb_true_iff, <- not_true_iff_false, Qle_bool_iff.
  split; [apply Qnot_le_lt | apply Qlt_not_le].
Qed.

Lemma after_ticks_S (n : nat) (s : State) :
  after_ticks (S n) s = after_ticks n (snd (tick s)).
Proof. exact (Nat.iter_succ_r n (λ s : State, snd (tick s)) s). Qed.

(** What [n + 1] completed iterations leave. *)
Lemma after_ticks_spec (n : nat) : ∀ s : State,
  (∀ i, (i ≤ n)%nat → fst (tick (after_ticks i s)) = Ok tt) →
  let s' := after_ticks (S n) s in
  keeps s s' ∧
  trace s' = trace s ++ concat (replicate (S n) (tick_events s)) ∧
  main_cursor s' = (main_cursor s + S n)%nat ∧
  (main_cursor s' < main_length s)%nat.
Proof.
  induction n as [|n IH]; intros s Hok.
  - pose proof (Hok 0%nat (le_n _)) as Hz. cbn zeta.
    change (after_ticks 1 s) with (snd (tick s)).
    change (after_ticks 0 s) with s in Hz.
    destruct (tick_spec s) as (r & s1 & done & E & K & T & _ & O & _).
    rewrite E in Hz |- *. cbn [fst snd] in Hz |- *. subst r.
    destruct (O eq_refl) as (-> & Hc & Hl).
    cbn [replicate concat]. rewrite app_nil_r. split_and!; [exact K|exact T|lia|lia].
  - cbn zeta. rewrite after_ticks_S.
    pose proof (Hok 0%nat (Nat.le_0_l _)) as Hz. change (after_ticks 0 s) with s in Hz.
    destruct (tick_spec s) as (r & s1 & done & E & K & T & _ & O & _).
    rewrite E in Hz |- *. cbn [fst snd] in Hz |- *. subst r.
    destruct (O eq_refl) as (-> & Hc & Hl).
    destruct (IH s1) as (K' & T' & C' & L').
    { intros i Hi. specialize (Hok (S i) ltac:(lia)).
      rewrite after_ticks_S, E in Hok. exact Hok. }
    split_and!.
    + eapply keeps_trans; eassumption.
    + rewrite T', T, (keeps_tick_events _ _ K).
      change (replicate (S (S n)) (tick_events s))
        with (tick_events s :: replicate (S n) (tick_events s)).
      cbn [concat]. rewrite <- !app_assoc. reflexivity.
    + lia.
    + rewrite (keeps_main_length _ _ K) in L'. exact L'.
Qed.

(** The loop over iterations that complete, the last of which is the
    first to end below the threshold. *)
Lemma run_loop_breach (n : nat) : ∀ (fuel : nat) (s : State),
  (n < fuel)%nat →
  (∀ i, (i ≤ n)%nat →
     goes_on (after_ticks i s) ∧ fst (tick (after_ticks i s)) = Ok tt) →
  (∀ i, (1 ≤ i ≤ n)%nat →
     ¬ (cum_return (broker (after_ticks i s)) < _DEFAULT_MAX_LOSS)%Q) →
  (cum_return (broker (after_ticks (S n) s)) < _DEFAULT_MAX_LOSS)%Q →
  run_loop fuel s = (Ok tt, after_ticks (S n) s).
Proof.
  induction n as [|n IH]; intros fuel s Hfuel Hgo Hnot Hhit;
    (destruct fuel as [|fuel]; [lia|]);
    destruct (Hgo 0%nat (Nat.le_0_l _)) as ((d & Hd & Hlt) & Hok);
    change (after_ticks 0 s) with s in Hd, Hlt, Hok;
    cbn [run_loop]; unfold bind, dt, get; rewrite Hd;
    apply Z.ltb_lt in Hlt; rewrite Hlt;
    destruct (tick s) as [r s1] eqn:E; cbn [fst] in Hok; subst r.
  - change (after_ticks 1 s) with (snd (tick s)) in Hhit |- *. rewrite E in Hhit |- *.
    cbn [snd] in Hhit |- *. apply Q_ltb_lt in Hhit. unfold max_loss_hit.
    rewrite Hhit. reflexivity.
  - assert (Hs1 : ∀ i, after_ticks (S i) s = after_ticks i s1).
    { intros i. rewrite after_ticks_S, E. reflexivity. }
    pose proof (Hnot 1%nat ltac:(lia)) as H1. rewrite (Hs1 0%nat) in H1.
    change (after_ticks 0 s1) with s1 in H1.
    unfold max_loss_hit. destruct (Q_ltb _ _) eqn:Eq.
    { apply Q_ltb_lt in Eq. contradiction. }
    rewrite Hs1. apply IH.
    + lia.
    + intros i Hi. rewrite <- Hs1. apply Hgo. lia.
    + intros i Hi. rewrite <- Hs1. apply Hnot. lia.
    + rewrite <- Hs1. exact Hhit.
Qed.

(** An iteration starts with the advance of the main clock, whatever
    comes of it. *)
Lemma advance_buffers_begins (s : State) :
  ∃ rest, trace (snd (advance_buffers s)) = trace s ++ EvMainNext :: rest.
Proof.
  unfold advance_buffers, bind.
  destruct (main_next_spec s) as (r1 & s1 & -> & _ & T1 & _).
  destruct r1 as [[]|e].
  - unfold call, modify, get. simpl.
    set (s2 := with_broker _ _).
    destruct (foreach_data_next_spec (od_values (datas s2)) s2)
      as (r3 & s3 & done & -> & _ & T3 & _).
    exists (EvBrokerNext :: map EvDataNext done). cbn [snd].
    rewrite T3. subst s2. simpl. rewrite T1, <- !app_assoc. reflexivity.
  - exists []. exact T1.
Qed.

Lemma tick_begins (s : State) :
  ∃ rest, trace (snd (tick s)) = trace s ++ EvMainNext :: rest.
Proof.
  unfold tick, bind at 1.
  destruct (advance_buffers_begins s) as [rest1 T1].
  destruct (advance_buffers s) as [[[]|e] s1]; [|exists rest1; exact T1].
  cbn [snd] in T1.
  unfold call, modify, get, hedges_registered, bind, get, ret. cbn beta iota.
  set (s2 := with_broker _ (with_trace _ (with_broker _ _))).
  assert (T2 : trace s2 = trace s ++ EvMainNext :: rest1 ++
                 [EvBegOfPeriod; EvPipelineNext Primary; EvStrategyNext Primary]).
  { subst s2. simpl. rewrite T1, <- !app_assoc. reflexivity. }
  clearbody s2.
  destruct (nonempty _); unfold when.
  - destruct (hedge_next_spec s2) as (r3 & s3 & done & -> & _ & T3 & _).
    destruct r3 as [[]|e]; cbn [snd].
    + eexists. simpl. rewrite T3, T2, <- !app_assoc. cbn [app]. rewrite <- !app_assoc.
      reflexivity.
    + eexists. rewrite T3, T2, <- !app_assoc. cbn [app]. rewrite <- !app_assoc.
      reflexivity.
  - unfold ret. eexists. simpl. rewrite T2, <- !app_assoc. cbn [app].
    rewrite <- !app_assoc. reflexivity.
Qed.

(** The guard of the loop looks at the date only: from a date before the
    last date, the loop begins an iteration. *)
Lemma run_loop_begins (fuel : nat) (s : State) :
  goes_on s →
  ∃ rest, trace (snd (run_loop (S fuel) s)) = trace s ++ EvMainNext :: rest.
Proof.
  intros (d & Hd & Hlt). cbn [run_loop]. unfold bind, dt, get. rewrite Hd.
  apply Z.ltb_lt in Hlt. rewrite Hlt.
  destruct (tick_begins s) as [rest T].
  destruct (tick s) as [[[]|e] s1]; cbn [snd] in T; [|exists rest; exact T].
  destruct (max_loss_hit s1); [exists rest; exact T|].
  destruct (run_loop_spec fuel s1) as (r2 & s2 & k & tail & -> & _ & T2 & _).
  eexists. cbn [snd]. rewrite T2, T, <- !app_assoc. cbn [app]. reflexivity.
Qed.

(** So does [run()], after its [init()] calls. *)
Lemma run_begins (s : State) :
  nonempty (registry (store s) (bt_assets (self s))) = true →
  is_Ok (bookname (self s)) → hedge_ready s → goes_on s →
  ∃ rest, trace (snd (run s)) = trace s ++ init_events (hedged s) ++ EvMainNext :: rest.
Proof.
  intros Ha [book Hb] R Hgo. unfold run, bind, get. cbn beta iota. rewrite Ha. cbn [negb].
  destruct (config_backtest_spec s) as (r0 & s0 & -> & K0 & T0 & _ & S0 & _ & _ & _ & Hok).
  rewrite Hb in Hok. destruct Hok as (-> & P0).
  unfold call, modify, hedges_registered, bind, get, ret. cbn beta iota.
  set (s1 := with_broker _ (with_trace _ (with_broker _ _))).
  assert (K1 : keeps s s1) by (revert K0; unfold keeps; simpl; tauto).
  assert (T1 : trace s1 = trace s ++ [EvPipelineInit Primary; EvStrategyInit Primary]).
  { subst s1. simpl. rewrite T0, <- !app_assoc. reflexivity. }
  assert (S1 : store s1 = store s) by exact S0.
  assert (P1 : is_Some (bt_properties (self s1))) by exact P0.
  fold (hedged s1). rewrite (keeps_hedged _ _ K1).
  clearbody s1. clear dependent s0.
  assert (Hsim : ∀ s2, store s2 = store s → keeps s s2 →
            ∃ rest, trace (snd (simulate s2)) = trace s2 ++ EvMainNext :: rest).
  { intros s2 S2 K2. unfold simulate, bind, get.
    destruct (run_loop_begins (length (l_array (st_main (store s2)))) s2) as [rest T].
    { destruct Hgo as (d & Hd & Hlt). exists d. rewrite S2.
      destruct K2 as (_ & -> & _). auto. }
    destruct (run_loop _ s2) as [[[]|e] s3]; cbn [snd] in T; [|exists rest; exact T].
    destruct (bt_properties (self s3)); exists rest; exact T. }
  unfold init_events.
  destruct (hedged s) eqn:Eh; unfold when.
  - pose proof (hedge_init_spec s1) as (r2 & s2 & dh & E2 & K2 & T2 & M2 & _ & O2 & R2 & _).
    rewrite E2.
    destruct (R Eh) as [R1' R2'].
    assert (K1' := K1). destruct K1' as (_&_&_&_&_&_&_& E1 & E3 &_).
    rewrite <- E1 in R1'. rewrite <- E3 in R2'.
    pose proof (R2 (conj R1' R2')) as ->. rewrite (O2 eq_refl) in T2.
    assert (S2 : store s2 = store s).
    { revert E2. unfold hedge_init, hpipeline, hstrategy, bind, get, ret, raise, call, modify.
      cbn beta iota.
      destruct (bt_hpipeline (self s1)); [|discriminate]. cbn [self with_broker with_trace].
      destruct (bt_hstrategy (self s1)); [|discriminate].
      intros [= <-]. exact S1. }
    destruct (Hsim s2 S2 (keeps_trans _ _ _ K1 K2)) as [rest T].
    exists rest. cbn beta iota. rewrite T, T2, T1, <- !app_assoc. reflexivity.
  - destruct (Hsim s1 S1 K1) as [rest T].
    exists rest. unfold ret. cbn beta iota. rewrite T, T1, <- !app_assoc. reflexivity.
Qed.

(** C3, as amended.  A run of the loop whose first [n] iterations
    complete without the cumulative return falling below the max-loss
    threshold, and whose next iteration completes with the return below
    it, ends there: the loop returns within that iteration, for any
    number of guard evaluations beyond it, and [run()] returns its bundle
    from the state that iteration left.  No later iteration begins in
    that call (the main clock has made exactly [n + 1] steps and the
    calls are those of [n + 1] iterations) and nothing is rolled back
    (the state is the one the iteration left).  The stop is not latched:
    a later [run()] on that state, with the date under the main clock
    still before the last date, makes its [init()] calls and begins a
    further iteration. *)
Theorem max_loss_stops_loop (n : nat) (s : State) :
  is_Some (bt_properties (self s)) →
  (∀ i, (i ≤ n)%nat →
     goes_on (after_ticks i s) ∧ fst (tick (after_ticks i s)) = Ok tt) →
  (∀ i, (1 ≤ i ≤ n)%nat →
     ¬ (cum_return (broker (after_ticks i s)) < _DEFAULT_MAX_LOSS)%Q) →
  (cum_return (broker (after_ticks (S n) s)) < _DEFAULT_MAX_LOSS)%Q →
  let s' := after_ticks (S n) s in
  (∀ fuel, (n < fuel)%nat → run_loop fuel s = (Ok tt, s')) ∧
  (∃ m, simulate s
        = (Ok (Some (mkBundle m (Broker_df (broker s')) (Broker_rec (broker s')) (broker s'))),
           s')) ∧
  trace s' = trace s ++ concat (replicate (S n) (tick_events s)) ∧
  main_cursor s' = (main_cursor s + S n)%nat ∧
  advance_steps (trace s') = (advance_steps (trace s) + S n)%nat ∧
  (nonempty (registry (store s') (bt_assets (self s'))) = true →
   is_Ok (bookname (self s')) → hedge_ready s' → goes_on s' →
   ∃ rest, trace (snd (run s')) = trace s' ++ init_events (hedged s') ++ EvMainNext :: rest).
Proof.
  intros Hm Hgo Hnot Hhit s'.
  assert (Hloop : ∀ fuel, (n < fuel)%nat → run_loop fuel s = (Ok tt, s')).
  { intros fuel Hfuel. apply run_loop_breach; assumption. }
  destruct (after_ticks_spec n s) as (K & T & C & L).
  { intros i Hi. apply Hgo, Hi. }
  fold s' in K, T, C, L.
  split_and!.
  - exact Hloop.
  - unfold simulate, bind, get.
    change (length (l_array (st_main (store s)))) with (main_length s).
    rewrite Hloop by lia.
    destruct K as (_ & _ & _ & _ & _ & _ & _ & _ & _ & _ & _ & _ & Hp).
    destruct (Hp Hm) as [m Em]. rewrite Em. exists m. reflexivity.
  - exact T.
  - exact C.
  - rewrite T. unfold advance_steps. rewrite List.filter_app, length_app. f_equal.
    generalize (S n) as k. intros k. induction k as [|k IHk]; [reflexivity|].
    cbn [replicate concat]. rewrite List.filter_app, length_app, IHk. f_equal.
    unfold tick_events, advance_events, period_events.
    rewrite !List.filter_app, !length_app.
    assert (Hd : ∀ ls, length (List.filter
                  (λ e : Event, match e with EvMainNext => true | _ => false end)
                  (map EvDataNext ls)) = 0%nat).
    { intros ls. induction ls as [|x ls IHl]; [reflexivity|exact IHl]. }
    rewrite Hd. destruct (hedged s); reflexivity.
  - apply run_begins.
Qed.

(** ** Forwarding of bases to the Broker *)






(** ** The book label *)

Lemma append_assoc (a b c : string) : (a +:+ b) +:+ c = a +:+ b +:+ c.
Proof.
  induction a as [|x a IH]; [reflexivity|].
  change (String x ((a +:+ b) +:+ c) = String x (a +:+ b +:+ c)). congruence.
Qed.

(** C7.  The book label is factor, market and asset joined by "-";
    a configured (non-empty) hedge ticker is appended after "/" under the
    hedge method EXPO and after "#" under BETA; with no hedge ticker
    ([None] or the empty string) nothing is appended, whatever the
    method.  [bookname] is this formula on the instance's attributes and
    the configured method.  The two labels of the scenario follow. *)
Theorem bookname_format :
  (∀ b : Backtest,
     bookname b
     = book_label _DEFAULT_HEDGE (bt_factor b) (bt_market b) (bt_asset b) (bt_hedge b)) ∧
  (∀ (factor market asset : string) (c : ascii) (hedge : string),
     book_label "EXPO" (PyStr factor) (PyStr market) (PyStr asset) (PyStr (String c hedge))
     = Ok (factor +:+ "-" +:+ market +:+ "-" +:+ asset +:+ "/" +:+ String c hedge) ∧
     book_label "BETA" (PyStr factor) (PyStr market) (PyStr asset) (PyStr (String c hedge))
     = Ok (factor +:+ "-" +:+ market +:+ "-" +:+ asset +:+ "#" +:+ String c hedge)) ∧
  (∀ (method factor market asset : string),
     book_label method (PyStr factor) (PyStr market) (PyStr asset) PyNone
     = Ok (factor +:+ "-" +:+ market +:+ "-" +:+ asset) ∧
     book_label method (PyStr factor) (PyStr market) (PyStr asset) (PyStr "")
     = Ok (factor +:+ "-" +:+ market +:+ "-" +:+ asset)) ∧
  book_label "EXPO" (PyStr "RISKPAR") (PyStr "COMMODITIES") (PyStr "BIAU39") (PyStr "DOL")
  = Ok "RISKPAR-COMMODITIES-BIAU39/DOL" ∧
  book_label "EXPO" (PyStr "RISKPAR") (PyStr "COMMODITIES") (PyStr "BIAU39") PyNone
  = Ok "RISKPAR-COMMODITIES-BIAU39".
Proof.
  split_and!.
  - intros b. reflexivity.
  - intros factor market asset c hedge. unfold book_label. cbn [py_truthy py_str].
    split; cbn [dict_getitem mapper String.eqb Ascii.eqb Bool.eqb];
      rewrite !append_assoc; reflexivity.
  - intros method factor market asset. split; reflexivity.
  - reflexivity.
  - reflexivity.
Qed.

End Claims.

(** ** The assertion of [Strategy.I] *)

Section IndicatorClaims.

Context `{Payload} `{IndicatorLib}.

Lemma PyType_eqb_eq (a b : PyType) : PyType_eqb a b = true ↔ a = b.
Proof.
  destruct a, b; simpl; split; try congruence; try discriminate.
  - intros E. apply String.eqb_eq in E. congruence.
  - intros [= ->]. apply String.eqb_refl.
Qed.

(** C10.  [I(data, f, ..params)] on a [data] whose type is not exactly
    [Asset] (a [Base] and a [Hedge] in particular) raises
    [AssertionError] and leaves the instance as it was: no indicator is
    stored and [f] has not been invoked.  On an [Asset] the call does not
    end in [AssertionError]. *)
Theorem I_requires_exact_Asset (data : Data) (f : Callable)
    (params : list (string * PyVal)) (st : Indicators) :
  (d_type data ≠ Asset → Strategy_I data f params st = (Raise AssertionError, st)) ∧
  (d_type data = Base ∨ d_type data = Hedge →
     Strategy_I data f params st = (Raise AssertionError, st)) ∧
  (d_type data = Asset → fst (Strategy_I data f params st) ≠ Raise AssertionError).
Proof.
  assert (Hne : d_type data ≠ Asset → Strategy_I data f params st = (Raise AssertionError, st)).
  { intros Hty. unfold Strategy_I.
    destruct (PyType_eqb (d_type data) Asset) eqn:E; [|reflexivity].
    apply PyType_eqb_eq in E. contradiction. }
  split_and!.
  - exact Hne.
  - intros [E|E]; apply Hne; rewrite E; discriminate.
  - intros Hty. unfold Strategy_I.
    apply PyType_eqb_eq in Hty. rewrite Hty. cbn [negb].
    destruct (kwargs_pop "name" params) as [name rest].
    destruct name; try destruct (f_name f); cbn -[unhashable_type];
      try discriminate;
      destruct (f_call f rest); cbn -[unhashable_type]; try discriminate;
      (destruct (Line_new _ _); cbn -[unhashable_type]; [|discriminate]);
      destruct (unhashable_type _); cbn; discriminate.
Qed.

End IndicatorClaims.

(** ** Shared registries *)

Section Sharing.

Context `{Externals}.

Lemma od_get_update (k : string) (v : loc) (d : Registry) :
  od_get k (od_update k v d) = Some v.
Proof.
  induction d as [|[k' v'] d IH]; simpl.
  - by rewrite String.eqb_refl.
  - destruct (String.eqb k' k) eqn:E; simpl; rewrite E; [reflexivity|exact IH].
Qed.

Lemma registry_after_update (r r' : loc) (ticker : string) (obj : loc) (s : State) :
  registry (store (snd (registry_update r ticker obj s))) r'
  = if decide (r' = r ∧ r < length (st_regs (store s)))
    then od_update ticker obj (registry (store s) r)
    else registry (store s) r'.
Proof.
  unfold registry_update, modify, registry. simpl.
  destruct (decide _) as [[-> Hlt]|Hn].
  - by rewrite list_lookup_insert_eq.
  - destruct (decide (r' = r)) as [->|Hne].
    + rewrite list_insert_ge; [reflexivity|]. lia.
    + by rewrite list_lookup_insert_ne.
Qed.

Lemma add_asset_registry ticker data kw (s : State) (r' : loc) :
  registry (store (snd (add_asset ticker data kw s))) r'
  = if decide (r' = bt_assets (self s) ∧ bt_assets (self s) < length (st_regs (store s)))
    then od_update ticker (length (st_objs (store s))) (registry (store s) (bt_assets (self s)))
    else registry (store s) r'.
Proof.
  unfold add_asset, bind, get, new_object. cbn beta iota.
  rewrite registry_after_update. reflexivity.
Qed.

Lemma add_hedge_registry ticker data kw (s : State) (r' : loc) :
  registry (store (snd (add_hedge ticker data kw s))) r'
  = if decide (r' = bt_hedges (self s) ∧ bt_hedges (self s) < length (st_regs (store s)))
    then od_update ticker (length (st_objs (store s))) (registry (store s) (bt_hedges (self s)))
    else registry (store s) r'.
Proof.
  unfold add_hedge, bind, get, new_object. cbn beta iota.
  rewrite registry_after_update. reflexivity.
Qed.

Lemma add_base_registry ticker data (s : State) (r' : loc) :
  registry (store (snd (add_base ticker data s))) r'
  = if decide (r' = bt_bases (self s) ∧ bt_bases (self s) < length (st_regs (store s)))
    then od_update ticker (length (st_objs (store s))) (registry (store s) (bt_bases (self s)))
    else registry (store s) r'.
Proof.
  unfold add_base, bind, get, new_object, when, call. cbn beta iota.
  rewrite <- (registry_after_update (bt_bases (self s)) r' ticker (length (st_objs (store s)))
               (with_store (mkStore (st_main (store s)) (st_regs (store s))
                  (st_objs (store s) ++
                   [mkData Base ticker data [] (bt_index (self s)) line_start])) s)).
  destruct (registry_update _ _ _ _) as [[[]|e] s1] eqn:E;
    [|unfold registry_update, modify in E; discriminate].
  destruct (existsb _ _); destruct (upper_is _ _); destruct (upper_is _ _);
    unfold modify, ret; reflexivity.
Qed.

(** What a constructor that returned was passed, and what it left. *)
Lemma Backtest_init_built sc pc cal cfg now (s : State) :
  Backtest_init sc pc cal cfg now = Ok s →
  ∃ firstdate lastdate w1,
    head (cal_index cal) = Some firstdate ∧ last (cal_index cal) = Some lastdate ∧
    pc_new pc (pipeline_keywords true) (initial_store (cal_index cal))
      (Broker_new (cal_index cal) _DEFAULT_ECHO) = (Ok tt, w1) ∧
    sc_new sc strategy_keywords (initial_store (cal_index cal)) w1 = (Ok tt, broker s) ∧
    s = (let p := mkPipeline pc (Some (cal_holidays cal)) 1 in
         mkState
           (mkBacktest (cal_index cal) firstdate lastdate
              (kwargs_get "factor" cfg) (kwargs_get "market" cfg)
              (kwargs_get "asset" cfg) (kwargs_get "hedge" cfg)
              (kwargs_get "base" cfg) (kwargs_get "hbase" cfg)
              (kwargs_get "vertices" cfg)
              0 1 2 p (mkStrategy sc p 0 1) None None None None None)
           (initial_store (cal_index cal)) (broker s) now
           [EvPipelineNew Primary; EvStrategyNew Primary]).
Proof.
  unfold Backtest_init.
  destruct (negb _); [discriminate|]. destruct (negb _); [discriminate|].
  destruct (negb _); [discriminate|].
  destruct (head _) as [fd|]; [|discriminate]. destruct (last _) as [ld|]; [|discriminate].
  cbn [new_registry st_regs st_main st_objs length app].
  change (mkStore (mkLine (cal_index cal) line_start) [[]; []; []] [])
    with (initial_store (cal_index cal)).
  destruct (pc_new pc _ _ _) as [[[]|e] w1] eqn:E1; [|discriminate].
  destruct (sc_new sc _ _ _) as [[[]|e] w2] eqn:E2; [|discriminate].
  intros [= <-]. exists fd, ld, w1. split_and!; try reflexivity; assumption.
Qed.

(** The constructor [Strategy] itself defines does not take the keywords
    [Backtest] passes. *)
Lemma Strategy_new_refuses (name : string) (abstract : list string) (st : Store) (w : World) :
  ∃ msg, Strategy_new name abstract strategy_keywords st w = (Raise (TypeError msg), w).
Proof. destruct abstract; eexists; reflexivity. Qed.

Lemma Backtest_init_wired sc pc cal cfg now (s : State) :
  Backtest_init sc pc cal cfg now = Ok s → wired s.
Proof.
  intros Hinit.
  destruct (Backtest_init_built _ _ _ _ _ _ Hinit) as (fd & ld & w1 & _ & _ & _ & _ & ->).
  unfold wired. simpl. split_and!; try lia; try reflexivity; discriminate.
Qed.

Lemma run_keeps (s : State) : keeps s (snd (run s)).
Proof.
  destruct (nonempty (registry (store s) (bt_assets (self s)))) eqn:E.
  - destruct (run_spec s E) as (r & s' & done & -> & K & _). exact K.
  - unfold run, bind, get. cbn beta iota. rewrite E. apply keeps_refl.
Qed.

Lemma keeps_wired (s s' : State) :
  keeps s s' → bt_hedges (self s') = bt_hedges (self s) →
  wired s → wired s'.
Proof.
  unfold keeps, wired. cbn zeta.
  intros (_ & _ & -> & -> & _ & -> & -> & -> & -> & _ & -> & _) ->. tauto.
Qed.

(** Every method keeps the references, and the primary pair is never
    replaced. *)
Lemma invoke_wired (m : Method) (s : State) :
  wired s →
  wired (invoke m s) ∧
  bt_pipeline (self (invoke m s)) = bt_pipeline (self s) ∧
  bt_strategy (self (invoke m s)) = bt_strategy (self s).
Proof.
  intros W. destruct m as [p st|t d|t d kw|t d kw|]; simpl.
  - unfold config_hedge.
    destruct (negb _); [unfold raise; simpl; auto|].
    destruct (negb _); [unfold raise; simpl; auto|].
    unfold bind, get, construct, modify. cbn beta iota zeta.
    destruct (pc_new p _ _ _) as [[[]|e] w1]; [|simpl; auto].
    cbn [store broker with_broker with_trace with_self self].
    destruct (sc_new st _ _ _) as [[[]|e] w2]; simpl; (split; [|auto]);
      revert W; unfold wired; simpl; intros W;
      split_and!; try tauto;
      try (intros hp [= <-]; reflexivity); intros hs [= <-]; tauto.
  - unfold add_base, bind, get, new_object, registry_update, modify, when, call.
    cbn beta iota zeta.
    destruct (existsb _ _); destruct (upper_is _ _); destruct (upper_is _ _);
      unfold modify, ret; simpl; (split; [|auto]);
      revert W; unfold wired; simpl; rewrite length_insert; tauto.
  - unfold add_asset, bind, get, new_object, registry_update, modify. simpl.
    split; [|auto]. revert W; unfold wired; simpl; rewrite length_insert; tauto.
  - unfold add_hedge, bind, get, new_object, registry_update, modify. simpl.
    split; [|auto]. revert W; unfold wired; simpl; rewrite length_insert; tauto.
  - pose proof (run_keeps s) as K. split.
    + apply (keeps_wired s); [exact K| |exact W].
      by destruct K as (_&_&_&_& ? &_).
    + destruct K as (_&_&_&_&_& ? & ? &_). auto.
Qed.

Lemma history_wired (ms : list Method) : ∀ s,
  wired s →
  wired (history ms s) ∧
  bt_pipeline (self (history ms s)) = bt_pipeline (self s) ∧
  bt_strategy (self (history ms s)) = bt_strategy (self s).
Proof.
  induction ms as [|m ms IH]; intros s W; simpl.
  - auto.
  - destruct (invoke_wired m s W) as (W1 & <- & <-). apply IH, W1.
Qed.

(** C9, as amended.  A constructor that returned has called the Pipeline
    class, then the Strategy class, by keyword; the Strategy class is not
    one that inherits the constructor of [Strategy], which takes none of
    [pipeline], [bases] and [assets].  The Pipeline was handed the very
    asset registry, and the Strategy the very base and asset registries,
    that the add-methods update in place, and after any later method
    calls the instance still has that Pipeline and that Strategy.  So an
    asset registered now is found through both references that were
    handed over, and a base through the Strategy's.  A hedge goes to the
    separate hedge registry: the registries the primary pair was handed
    are unchanged by it, and a configured hedge pair was handed the hedge
    registry. *)
Theorem registries_shared_by_reference (sc : StrategyClass) (pc : PipelineClass)
    (cal : CalendarObj) (cfg : list (string * PyVal)) (now : string)
    (s0 : State) (ms : list Method) :
  Backtest_init sc pc cal cfg now = Ok s0 →
  let s := history ms s0 in
  let P := bt_pipeline (self s0) in
  let S := bt_strategy (self s0) in
  let new := length (st_objs (store s)) in
  (∃ w1 w2,
     pc_new pc (pipeline_keywords true) (initial_store (cal_index cal))
       (Broker_new (cal_index cal) _DEFAULT_ECHO) = (Ok tt, w1) ∧
     sc_new sc strategy_keywords (initial_store (cal_index cal)) w1 = (Ok tt, w2)) ∧
  (∀ name abstract, sc_new sc ≠ Strategy_new name abstract) ∧
  p_class P = pc ∧ s_class S = sc ∧ s_pipeline S = P ∧
  bt_pipeline (self s) = P ∧ bt_strategy (self s) = S ∧
  p_assets P = bt_assets (self s) ∧
  s_assets S = bt_assets (self s) ∧
  s_bases S = bt_bases (self s) ∧
  (∀ ticker data kw,
     let s' := snd (add_asset ticker data kw s) in
     od_get ticker (registry (store s') (p_assets P)) = Some new ∧
     od_get ticker (registry (store s') (s_assets S)) = Some new) ∧
  (∀ ticker data,
     let s' := snd (add_base ticker data s) in
     od_get ticker (registry (store s') (s_bases S)) = Some new) ∧
  (∀ ticker data kw,
     let s' := snd (add_hedge ticker data kw s) in
     od_get ticker (registry (store s') (bt_hedges (self s))) = Some new ∧
     registry (store s') (p_assets P) = registry (store s) (p_assets P) ∧
     registry (store s') (s_assets S) = registry (store s) (s_assets S) ∧
     registry (store s') (s_bases S) = registry (store s) (s_bases S)) ∧
  (∀ hp hs, bt_hpipeline (self s) = Some hp → bt_hstrategy (self s) = Some hs →
     p_assets hp = bt_hedges (self s) ∧ s_assets hs = bt_hedges (self s) ∧
     s_bases hs = bt_bases (self s)).
Proof.
  intros Hinit. cbn zeta.
  pose proof (Backtest_init_wired _ _ _ _ _ _ Hinit) as W0.
  destruct (Backtest_init_built _ _ _ _ _ _ Hinit)
    as (fd & ld & w1 & _ & _ & Hpc & Hsc & Es0).
  assert (Hcls : p_class (bt_pipeline (self s0)) = pc ∧
                 s_class (bt_strategy (self s0)) = sc ∧
                 s_pipeline (bt_strategy (self s0)) = bt_pipeline (self s0)).
  { rewrite Es0. cbn. auto. }
  destruct Hcls as (Hc1 & Hc2 & Hc3).
  destruct (history_wired ms s0 W0) as (W & EP & ES).
  set (s := history ms s0) in *. clearbody s.
  rewrite <- EP in Hc1, Hc3. rewrite <- ES in Hc2, Hc3. rewrite <- EP, <- ES.
  destruct W as (Lb & La & Lh & Nba & Nbh & Nah & WP & WSb & WSa & WH & WHs).
  cbn zeta in *.
  split_and!; auto.
  - exists w1, (broker s0). auto.
  - intros name abstract E. rewrite E in Hsc.
    destruct (Strategy_new_refuses name abstract (initial_store (cal_index cal)) w1)
      as [msg Hmsg].
    rewrite Hmsg in Hsc. discriminate.
  - intros ticker data kw.
    rewrite WP, WSa, add_asset_registry. rewrite decide_True by auto.
    split; apply od_get_update.
  - intros ticker data.
    rewrite WSb, add_base_registry. rewrite decide_True by auto.
    apply od_get_update.
  - intros ticker data kw.
    rewrite WP, WSa, WSb, !add_hedge_registry.
    rewrite decide_True by auto.
    rewrite !decide_False by (intros [? _]; congruence).
    split_and!; auto using od_get_update.
  - intros hp hs Ehp Ehs. destruct (WHs hs Ehs). auto.
Qed.

End Sharing.

(** ** The hedge pair *)

Section HedgePair.

Context `{Externals}.


End HedgePair.

(** ** The run identity *)

(** *** The version nibble *)

Section Version.

Local Open Scope Z_scope.




(** The example of the [uuid] documentation, and the identifier of the
    receipts configuration. *)
Example uuid3_python_org :
  UUID.hex (UUID.uuid3 UUID.NAMESPACE_DNS "python.org") = "6fa459eaee8a3ca4894edb77e160355e".
Proof. vm_compute. reflexivity. Qed.

End Version.




(** ** The order of calls in an iteration, and the number of iterations *)

Section LoopFacts.

Context `{Externals}.

Lemma data_next_objs (l : loc) (s s' : State) :
  data_next l s = (Ok tt, s') →
  ∃ d d', st_objs (store s) !! l = Some d ∧ Data_next d = Some d' ∧
          st_objs (store s') = <[l := d']> (st_objs (store s)).
Proof.
  unfold data_next, bind, emit, modify, get, raise. simpl.
  destruct (st_objs (store s) !! l) as [d|] eqn:Ed; [|discriminate].
  destruct (Data_next d) as [d'|] eqn:Ed'; [|discriminate].
  intros [= <-]. exists d, d'. split_and!; [reflexivity|exact Ed'|reflexivity].
Qed.

(** A pass over distinct locations advances each of them once and leaves
    every other object alone. *)
Lemma foreach_data_next_objs (ls : list loc) : ∀ s s',
  NoDup ls → foreach data_next ls s = (Ok tt, s') →
  ∀ l, st_objs (store s') !! l
       = if decide (l ∈ ls) then st_objs (store s) !! l ≫= Data_next
         else st_objs (store s) !! l.
Proof.
  induction ls as [|l0 ls IH]; intros s s' Hnd Hrun l.
  - cbn [foreach] in Hrun. unfold ret in Hrun. injection Hrun as <-.
    rewrite decide_False; [reflexivity|apply not_elem_of_nil].
  - cbn [foreach] in Hrun. unfold bind in Hrun.
    destruct (data_next l0 s) as [[[]|e] s1] eqn:E1; [|discriminate].
    apply data_next_objs in E1 as (d & d' & Hd & Hd' & Hobjs).
    apply NoDup_cons in Hnd as [Hnotin Hnd].
    rewrite (IH s1 s' Hnd Hrun l), Hobjs.
    destruct (decide (l = l0)) as [->|Hne].
    + rewrite decide_False by exact Hnotin.
      rewrite decide_True by left.
      rewrite list_lookup_insert_eq by (by eapply lookup_lt_Some).
      unfold loc in *. rewrite Hd. symmetry. exact Hd'.
    + rewrite list_lookup_insert_ne by congruence.
      destruct (decide (l ∈ ls)) as [Hin|Hnin].
      * rewrite decide_True by (by right). reflexivity.
      * rewrite decide_False; [reflexivity|].
        intros [?|?]%elem_of_cons; [congruence|contradiction].
Qed.

Lemma hedge_next_store (s : State) : store (snd (hedge_next s)) = store s.
Proof.
  unfold hedge_next, hpipeline, hstrategy, bind, get, ret, raise, call, modify. simpl.
  destruct (bt_hpipeline (self s)); simpl; [|reflexivity].
  destruct (bt_hstrategy (self s)); reflexivity.
Qed.

(** The calls on collaborators read the store: an iteration leaves the
    store as its advance left it. *)
Lemma tick_store (s s' : State) :
  tick s = (Ok tt, s') →
  ∃ s1, advance_buffers s = (Ok tt, s1) ∧ store s' = store s1.
Proof.
  unfold tick, bind at 1.
  destruct (advance_buffers s) as [[[]|e] s1]; [|discriminate].
  intros Hrest. exists s1. split; [reflexivity|].
  revert Hrest. unfold call, modify, get, hedges_registered, bind, get, ret. cbn beta iota.
  set (s2 := with_broker _ (with_trace _ (with_broker _ _))).
  assert (E2 : store s2 = store s1) by reflexivity.
  destruct (nonempty _); unfold when.
  - pose proof (hedge_next_store s2) as E3.
    destruct (hedge_next s2) as [[[]|e] s3]; [|discriminate].
    intros [= <-]. cbn in *. congruence.
  - unfold ret. intros [= <-]. exact E2.
Qed.

Lemma advance_buffers_objs (s s1 : State) :
  NoDup (od_values (datas s)) → advance_buffers s = (Ok tt, s1) →
  ∀ l, st_objs (store s1) !! l
       = if decide (l ∈ od_values (datas s)) then st_objs (store s) !! l ≫= Data_next
         else st_objs (store s) !! l.
Proof.
  intros Hnd. unfold advance_buffers, bind at 1.
  destruct (main_next_spec s) as (r1 & s0 & E0 & K0 & _).
  rewrite E0. destruct r1 as [[]|e]; [|discriminate].
  assert (O0 : st_objs (store s0) = st_objs (store s)).
  { revert E0. unfold main_next, bind, emit, modify, get, raise. simpl.
    destruct (Line_next _); [|discriminate]. by intros [= <-]. }
  unfold call, modify, get, bind. cbn beta iota.
  set (s2 := with_broker _ _).
  assert (K2 : keeps s s2) by (revert K0; unfold keeps; simpl; tauto).
  rewrite (keeps_datas _ _ K2).
  intros Hrun l.
  rewrite (foreach_data_next_objs _ s2 s1 Hnd Hrun l).
  change (st_objs (store s2)) with (st_objs (store s0)). rewrite O0. reflexivity.
Qed.

(** Every iteration that completes makes its calls in one order: the main
    clock, the Broker's clock and each data object of the merged view
    [datas] are advanced; then the Broker opens the period; then the
    primary Pipeline and the primary Strategy; then, when the hedge
    registry is not empty, the hedge Pipeline and the hedge Strategy; then
    the Broker closes the period.  The main cursor moves one step, each
    object of [datas] moves one step and every other object stays (the
    calls on collaborators being calls that return and that leave the
    data objects alone). *)
Theorem tick_call_order (s s' : State) :
  NoDup (od_values (datas s)) →
  tick s = (Ok tt, s') →
  trace s' =
    trace s
    ++ [EvMainNext; EvBrokerNext] ++ map EvDataNext (od_values (datas s))
    ++ [EvBegOfPeriod; EvPipelineNext Primary; EvStrategyNext Primary]
    ++ (if hedged s then [EvPipelineNext Hedging; EvStrategyNext Hedging] else [])
    ++ [EvEndOfPeriod] ∧
  main_cursor s' = S (main_cursor s) ∧
  (∀ l, st_objs (store s') !! l
        = if decide (l ∈ od_values (datas s)) then st_objs (store s) !! l ≫= Data_next
          else st_objs (store s) !! l).
Proof.
  intros Hnd Htick.
  destruct (tick_spec s) as (r & s2 & done & E & _ & T & _ & O & _).
  rewrite Htick in E. injection E as <- <-.
  destruct (O eq_refl) as (-> & C & _).
  destruct (tick_store s s' Htick) as (s1 & Ha & Hs).
  split_and!.
  - rewrite T. unfold tick_events, advance_events, period_events.
    rewrite <- !app_assoc. reflexivity.
  - exact C.
  - intros l. rewrite Hs. apply (advance_buffers_objs s s1 Hnd Ha).
Qed.

Lemma advance_steps_app (a b : list Event) :
  advance_steps (a ++ b) = advance_steps a + advance_steps b.
Proof. unfold advance_steps. by rewrite List.filter_app, length_app. Qed.

Lemma advance_steps_data (ls : list loc) : advance_steps (map EvDataNext ls) = 0.
Proof. induction ls as [|l ls IH]; [reflexivity|exact IH]. Qed.

Lemma advance_steps_tick (s : State) : advance_steps (tick_events s) = 1.
Proof.
  unfold tick_events, advance_events, period_events.
  rewrite !advance_steps_app, advance_steps_data. by destruct (hedged s).
Qed.

Lemma advance_steps_ticks (k : nat) (s : State) :
  advance_steps (concat (replicate k (tick_events s))) = k.
Proof.
  induction k as [|k IH]; [reflexivity|].
  cbn [replicate concat]. rewrite advance_steps_app, advance_steps_tick, IH. reflexivity.
Qed.

(** [run()] always comes back: the loop never runs out of the iterations
    the length of the calendar allows.  When it returns, it has advanced
    the main clock [k] times, [k] at most the number of index positions
    after the cursor it started from, and the cursor is on an index
    position: the last one, or an earlier one. *)
Theorem run_advance_bound (s : State) (r : Res (option Bundle)) (s' : State) :
  run s = (r, s') →
  r ≠ Raise Diverged ∧
  (is_Ok r →
   ∃ k : nat,
     advance_steps (trace s') = advance_steps (trace s) + k ∧
     main_cursor s' = main_cursor s + k ∧
     (k ≤ main_length s - 1 - main_cursor s)%nat ∧
     (nonempty (registry (store s) (bt_assets (self s))) = true →
      main_cursor s' < main_length s)).
Proof.
  intros Hrun.
  destruct (nonempty (registry (store s) (bt_assets (self s)))) eqn:Ha.
  - destruct (run_spec s Ha) as (r0 & s0 & done & E & _ & T & D & Hshape).
    rewrite Hrun in E. injection E as <- <-.
    split; [exact D|]. intros Hok.
    destruct (bookname (self s)) as [book|e].
    2:{ destruct Hshape as [-> _]. by destruct Hok. }
    destruct Hshape as (inits & k & tail & -> & _ & _ & _ & _ & Hk & Hret).
    destruct (Hret Hok) as (-> & -> & C & L).
    exists k. split_and!; auto.
    rewrite T, !advance_steps_app, advance_steps_ticks.
    assert (advance_steps (init_events (hedged s)) = 0) as -> by (by destruct (hedged s)).
    cbn. lia.
  - revert Hrun. unfold run, bind, get. cbn beta iota. rewrite Ha.
    intros [= <- <-]. split; [discriminate|]. intros _.
    exists 0. split_and!; try lia; discriminate.
Qed.

(** A successful [config_hedge] configures the hedge pair. *)
Lemma config_hedge_configures (pc : PipelineClass) (sc : StrategyClass) (s s' : State) :
  config_hedge pc sc s = (Ok tt, s') →
  is_Some (bt_hpipeline (self s')) ∧ is_Some (bt_hstrategy (self s')).
Proof.
  unfold config_hedge.
  destruct (negb _); [discriminate|]. destruct (negb _); [discriminate|].
  unfold bind, get, construct, modify. cbn beta iota zeta.
  destruct (pc_new pc _ _ _) as [[[]|e] w1]; [|discriminate].
  cbn [store broker with_broker with_trace with_self self].
  destruct (sc_new sc _ _ _) as [[[]|e] w2]; [|discriminate].
  intros [= <-]. cbn. eauto.
Qed.

End LoopFacts.
(** ** Ordered dictionaries *)

Section Dictionaries.

Lemma od_get_update_ne (k k' : string) (v : loc) (d : Registry) :
  k' ≠ k → od_get k' (od_update k v d) = od_get k' d.
Proof.
  intros Hne. induction d as [|[k0 v0] d IH]; simpl.
  - destruct (String.eqb_spec k k'); [congruence|reflexivity].
  - destruct (String.eqb_spec k0 k) as [->|Hk]; simpl.
    + destruct (String.eqb_spec k k'); [congruence|reflexivity].
    + destruct (String.eqb_spec k0 k'); [reflexivity|exact IH].
Qed.

Lemma od_get_None (k : string) (d : Registry) :
  od_get k d = None ↔ k ∉ od_keys d.
Proof.
  induction d as [|[k0 v0] d IH]; simpl.
  - split; [intros _; apply not_elem_of_nil|reflexivity].
  - rewrite not_elem_of_cons. destruct (String.eqb_spec k0 k) as [->|Hk].
    + split; [discriminate|intros [? _]; congruence].
    + rewrite IH. split; [intros ?; split; congruence|tauto].
Qed.

Lemma od_get_elem_of (k : string) (v : loc) (d : Registry) :
  od_get k d = Some v → v ∈ od_values d.
Proof.
  induction d as [|[k0 v0] d IH]; simpl; [discriminate|].
  destruct (String.eqb k0 k).
  - intros [= ->]. left.
  - intros E. right. auto.
Qed.

Lemma od_values_elem_of (v : loc) (d : Registry) :
  NoDup (od_keys d) → v ∈ od_values d → ∃ k, od_get k d = Some v.
Proof.
  induction d as [|[k0 v0] d IH]; simpl.
  - intros _ Hin. by apply elem_of_nil in Hin.
  - intros [Hk Hnd]%NoDup_cons [->|Hin]%elem_of_cons.
    + exists k0. by rewrite String.eqb_refl.
    + destruct (IH Hnd Hin) as [k Ek]. exists k.
      destruct (String.eqb_spec k0 k) as [->|_]; [|exact Ek].
      apply od_get_None in Hk. congruence.
Qed.

Lemma od_keys_update (k : string) (v : loc) (d : Registry) :
  od_keys (od_update k v d)
  = if decide (k ∈ od_keys d) then od_keys d else od_keys d ++ [k].
Proof.
  induction d as [|[k0 v0] d IH]; cbn [od_update].
  - destruct (decide _) as [Hin|_]; [by apply elem_of_nil in Hin|reflexivity].
  - destruct (String.eqb_spec k0 k) as [->|Hk].
    + rewrite decide_True by left. reflexivity.
    + change (k0 :: od_keys (od_update k v d)
              = if decide (k ∈ k0 :: od_keys d) then k0 :: od_keys d
                else (k0 :: od_keys d) ++ [k]).
      rewrite IH.
      destruct (decide (k ∈ od_keys d)) as [Hin|Hnin].
      * rewrite decide_True by (by right). reflexivity.
      * rewrite decide_False; [reflexivity|].
        intros [?|?]%elem_of_cons; congruence.
Qed.

Lemma od_values_update (k : string) (v x : loc) (d : Registry) :
  x ∈ od_values (od_update k v d) → x = v ∨ x ∈ od_values d.
Proof.
  induction d as [|[k0 v0] d IH]; simpl.
  - intros [->|Hin]%elem_of_cons; [by left|by apply elem_of_nil in Hin].
  - destruct (String.eqb k0 k); simpl.
    + intros [->|Hin]%elem_of_cons; [by left|right; by right].
    + intros [->|Hin]%elem_of_cons; [right; left|].
      destruct (IH Hin); [by left|right; by right].
Qed.

Lemma od_update_NoDup_keys (k : string) (v : loc) (d : Registry) :
  NoDup (od_keys d) → NoDup (od_keys (od_update k v d)).
Proof.
  intros Hnd. rewrite od_keys_update. destruct (decide _) as [|Hnin]; [exact Hnd|].
  apply NoDup_app. split_and!; [exact Hnd| |apply NoDup_singleton].
  intros x Hx [->|Hin]%elem_of_cons; [contradiction|by apply elem_of_nil in Hin].
Qed.

Lemma od_update_NoDup_values (k : string) (v : loc) (d : Registry) :
  NoDup (od_values d) → v ∉ od_values d → NoDup (od_values (od_update k v d)).
Proof.
  induction d as [|[k0 v0] d IH]; simpl; intros Hnd Hv.
  - apply NoDup_singleton.
  - apply NoDup_cons in Hnd as [Hv0 Hnd]. apply not_elem_of_cons in Hv as [Hne Hv].
    destruct (String.eqb k0 k); simpl; apply NoDup_cons.
    + split; [exact Hv|exact Hnd].
    + split; [|by apply IH].
      intros [->|Hin]%od_values_update; [congruence|contradiction].
Qed.

Lemma od_values_merge (a b : Registry) (x : loc) :
  x ∈ od_values (od_merge a b) → x ∈ od_values a ∨ x ∈ od_values b.
Proof.
  unfold od_merge. revert a. induction b as [|[k v] b IH]; intros a; simpl.
  - by left.
  - intros Hin. destruct (IH _ Hin) as [Ha|Hb].
    + destruct (od_values_update _ _ _ _ Ha) as [->|Ha']; [right; left|by left].
    + right. by right.
Qed.

Lemma od_merge_NoDup_keys (a b : Registry) :
  NoDup (od_keys a) → NoDup (od_keys (od_merge a b)).
Proof.
  unfold od_merge. revert a. induction b as [|[k v] b IH]; intros a Hnd; simpl.
  - exact Hnd.
  - apply IH. by apply od_update_NoDup_keys.
Qed.

Lemma od_merge_NoDup_values (a b : Registry) :
  NoDup (od_values a ++ od_values b) → NoDup (od_values (od_merge a b)).
Proof.
  unfold od_merge. revert a. induction b as [|[k v] b IH]; intros a; simpl.
  - by rewrite app_nil_r.
  - intros (Ha & Hab & Hb)%NoDup_app. apply NoDup_cons in Hb as [Hv Hb].
    apply IH. apply NoDup_app. split_and!.
    + apply od_update_NoDup_values; [exact Ha|].
      intros Hin. apply (Hab v Hin). left.
    + intros x [->|Hx]%od_values_update; [exact Hv|].
      intros Hin. apply (Hab x Hx). by right.
    + exact Hb.
Qed.

(** A lookup in [{**a, **b}] finds the binding of [b], and that of [a]
    when [b] has none. *)
Lemma od_get_merge (k : string) (a b : Registry) :
  NoDup (od_keys b) →
  od_get k (od_merge a b)
  = match od_get k b with
    | Some v => Some v
    | None => od_get k a
    end.
Proof.
  unfold od_merge. revert a. induction b as [|[k0 v0] b IH]; intros a; simpl.
  - reflexivity.
  - intros [Hk Hnd]%NoDup_cons. rewrite (IH _ Hnd).
    destruct (String.eqb_spec k0 k) as [->|Hne].
    + apply od_get_None in Hk. rewrite Hk. apply od_get_update.
    + rewrite od_get_update_ne by congruence. reflexivity.
Qed.

Lemma od_update_new (k : string) (v : loc) (d : Registry) :
  k ∉ od_keys d → od_update k v d = d ++ [(k, v)].
Proof.
  induction d as [|[k0 v0] d IH]; simpl; [reflexivity|].
  intros [Hne Hk]%not_elem_of_cons.
  destruct (String.eqb_spec k0 k); [congruence|]. by rewrite IH.
Qed.

(** With no key in common, [{**a, **b}] is [a] followed by [b]. *)
Lemma od_merge_disjoint (a b : Registry) :
  NoDup (od_keys b) → (∀ k, k ∈ od_keys b → k ∉ od_keys a) →
  od_merge a b = a ++ b.
Proof.
  unfold od_merge. revert a. induction b as [|[k v] b IH]; intros a; simpl.
  - by rewrite app_nil_r.
  - intros [Hk Hnd]%NoDup_cons Hdis.
    rewrite od_update_new by (apply Hdis; left).
    rewrite IH; [by rewrite <- app_assoc|exact Hnd|].
    intros x Hx. unfold od_keys. rewrite map_app. simpl.
    intros [Hin|[->|Hin]%elem_of_cons]%elem_of_app.
    + apply (Hdis x); [by right|exact Hin].
    + contradiction.
    + by apply elem_of_nil in Hin.
Qed.

End Dictionaries.

(** ** The invariant of a built instance *)

Section Built.

Context `{Externals}.

Lemma keeps_same_self (s s' : State) : keeps s s' → same_self s s'.
Proof. unfold keeps, same_self. tauto. Qed.

Lemma same_self_sym (s s' : State) : same_self s s' → same_self s' s.
Proof. unfold same_self. intuition congruence. Qed.

Lemma same_self_trans (s1 s2 s3 : State) :
  same_self s1 s2 → same_self s2 s3 → same_self s1 s3.
Proof. unfold same_self. intuition congruence. Qed.

Lemma same_view_owned (s s' : State) :
  store s' = store s → same_self s s' → owned s' = owned s.
Proof.
  unfold owned, same_self. intros -> (_ & _ & -> & -> & -> & _). reflexivity.
Qed.

Lemma same_view_datas (s s' : State) :
  store s' = store s → same_self s s' → datas s' = datas s.
Proof.
  unfold datas, same_self. intros -> (_ & _ & -> & -> & -> & _). reflexivity.
Qed.

(** The invariant looks at the store and at the references only. *)
Lemma synced_view (s s' : State) :
  store s' = store s → same_self s s' → synced s → synced s'.
Proof.
  intros Hst Hself. pose proof (same_view_owned _ _ Hst Hself) as Ho.
  unfold synced, wired, main_cursor. rewrite Ho, Hst.
  destruct Hself as (-> & -> & -> & -> & -> & -> & -> & -> & ->). tauto.
Qed.

Lemma Backtest_init_synced sc pc cal cfg now (s : State) :
  Backtest_init sc pc cal cfg now = Ok s →
  synced s ∧ main_cursor s = line_start ∧ st_objs (store s) = [] ∧
  bt_index (self s) = cal_index cal ∧
  registry (store s) (bt_bases (self s)) = [] ∧
  registry (store s) (bt_assets (self s)) = [] ∧
  registry (store s) (bt_hedges (self s)) = [].
Proof.
  intros Hinit. pose proof (Backtest_init_wired _ _ _ _ _ _ Hinit) as W.
  destruct (Backtest_init_built _ _ _ _ _ _ Hinit)
    as (d0 & dn & w1 & _ & El & _ & _ & Es).
  rewrite Es in W |- *. clear Es Hinit.
  unfold synced, owned, main_cursor, registry. simpl in *.
  split_and!; auto; try apply NoDup_nil_2; try lia.
  - intros l d Hl. by rewrite lookup_nil in Hl.
  - intros l Hl. by apply elem_of_nil in Hl.
Qed.

End Built.

(** ** Registrations *)

Section Registrations.

Context `{Externals}.

Lemma NoDup_front_step (X X' R : list loc) (v : loc) :
  NoDup (X ++ R) → v ∉ X ++ R → NoDup X' →
  (∀ x, x ∈ X' → x = v ∨ x ∈ X) → NoDup (X' ++ R).
Proof.
  intros (HX & HXR & HR)%NoDup_app Hv HX' Hsub. apply NoDup_app. split_and!; auto.
  intros x Hx Hr. destruct (Hsub x Hx) as [->|Hin].
  - apply Hv, elem_of_app. by right.
  - by apply (HXR x).
Qed.

(** The three add-methods have one shape: the new object goes to the end of
    the store, and one registry binds the ticker to it. *)
Lemma add_base_shape (ticker : string) (data : Frame) (s : State) :
  let s' := snd (add_base ticker data s) in
  self s' = self s ∧ st_main (store s') = st_main (store s) ∧
  st_regs (store s')
  = <[bt_bases (self s) := od_update ticker (length (st_objs (store s)))
                             (registry (store s) (bt_bases (self s)))]> (st_regs (store s)) ∧
  st_objs (store s')
  = st_objs (store s) ++ [mkData Base ticker data [] (bt_index (self s)) line_start].
Proof.
  unfold add_base, bind, get, new_object, registry_update, modify, when, call.
  cbn beta iota zeta.
  destruct (existsb _ _); destruct (upper_is _ _); destruct (upper_is _ _);
    unfold modify, ret; simpl; auto.
Qed.

Lemma add_asset_shape (ticker : string) (data : Frame) kw (s : State) :
  let s' := snd (add_asset ticker data kw s) in
  self s' = self s ∧ st_main (store s') = st_main (store s) ∧
  st_regs (store s')
  = <[bt_assets (self s) := od_update ticker (length (st_objs (store s)))
                              (registry (store s) (bt_assets (self s)))]> (st_regs (store s)) ∧
  st_objs (store s')
  = st_objs (store s) ++ [mkData Asset ticker (fill_OHLC data) kw (bt_index (self s)) line_start].
Proof.
  unfold add_asset, bind, get, new_object, registry_update, modify. simpl. auto.
Qed.

Lemma add_hedge_shape (ticker : string) (data : Frame) kw (s : State) :
  let s' := snd (add_hedge ticker data kw s) in
  self s' = self s ∧ st_main (store s') = st_main (store s) ∧
  st_regs (store s')
  = <[bt_hedges (self s) := od_update ticker (length (st_objs (store s)))
                              (registry (store s) (bt_hedges (self s)))]> (st_regs (store s)) ∧
  st_objs (store s')
  = st_objs (store s) ++ [mkData Asset ticker (fill_OHLC data) kw (bt_index (self s)) line_start].
Proof.
  unfold add_hedge, bind, get, new_object, registry_update, modify. simpl. auto.
Qed.

Lemma registry_insert (regs : list Registry) (r r' : loc) (d : Registry) (st st' : Store) :
  st_regs st' = <[r := d]> (st_regs st) → r < length (st_regs st) →
  registry st' r' = if decide (r' = r) then d else registry st r'.
Proof.
  intros E Hlt. unfold registry. rewrite E.
  destruct (decide (r' = r)) as [->|Hne].
  - by rewrite list_lookup_insert_eq.
  - by rewrite list_lookup_insert_ne.
Qed.

(** What a registration does to the three registries. *)
Lemma register_registries (r : loc) (ticker : string) (s s' : State) :
  self s' = self s →
  st_regs (store s')
  = <[r := od_update ticker (length (st_objs (store s))) (registry (store s) r)]>
      (st_regs (store s)) →
  r = bt_bases (self s) ∨ r = bt_assets (self s) ∨ r = bt_hedges (self s) →
  wired s →
  ∀ r', r' = bt_bases (self s) ∨ r' = bt_assets (self s) ∨ r' = bt_hedges (self s) →
    registry (store s') r'
    = if decide (r' = r)
      then od_update ticker (length (st_objs (store s))) (registry (store s) r)
      else registry (store s) r'.
Proof.
  intros Hself Hregs Hr W r' Hr'.
  apply (registry_insert (st_regs (store s))); [exact Hregs|].
  destruct W as (? & ? & ? & _). destruct Hr as [-> | [-> | ->]]; assumption.
Qed.

Lemma register_owned (r : loc) (ticker : string) (s s' : State) :
  self s' = self s →
  st_regs (store s')
  = <[r := od_update ticker (length (st_objs (store s))) (registry (store s) r)]>
      (st_regs (store s)) →
  r = bt_bases (self s) ∨ r = bt_assets (self s) ∨ r = bt_hedges (self s) →
  wired s → NoDup (owned s) → length (st_objs (store s)) ∉ owned s →
  (∀ x, x ∈ owned s' → x = length (st_objs (store s)) ∨ x ∈ owned s) ∧
  NoDup (owned s').
Proof.
  intros Hself Hregs Hr W Hnd Hfresh.
  pose proof (register_registries r ticker s s' Hself Hregs Hr W) as Hreg.
  set (n := length (st_objs (store s))) in *.
  assert (Wd := W). destruct Wd as (_ & _ & _ & Nba & Nbh & Nah & _).
  assert (Eb := Hreg (bt_bases (self s)) (or_introl eq_refl)).
  assert (Ea := Hreg (bt_assets (self s)) (or_intror (or_introl eq_refl))).
  assert (Eh := Hreg (bt_hedges (self s)) (or_intror (or_intror eq_refl))).
  clear Hreg. unfold owned in *. rewrite Hself.
  destruct Hr as [-> | [-> | ->]];
    first [rewrite decide_True in Eb by reflexivity | rewrite decide_False in Eb by congruence];
    first [rewrite decide_True in Ea by reflexivity | rewrite decide_False in Ea by congruence];
    first [rewrite decide_True in Eh by reflexivity | rewrite decide_False in Eh by congruence];
    rewrite Eb, Ea, Eh; (split;
      [intros x; rewrite !elem_of_app; intros [Hx|[Hx|Hx]]; try (right; tauto);
       apply od_values_update in Hx as [->|Hx]; tauto|]).
  - apply (NoDup_front_step (od_values (registry (store s) (bt_bases (self s)))) _ _ n);
      [exact Hnd|exact Hfresh| |intros x; apply od_values_update].
    apply od_update_NoDup_values; [by apply NoDup_app in Hnd as (? & _)|].
    intros Hin. apply Hfresh, elem_of_app. by left.
  - rewrite Permutation_app_swap_app. rewrite Permutation_app_swap_app in Hnd, Hfresh.
    apply (NoDup_front_step (od_values (registry (store s) (bt_assets (self s)))) _ _ n);
      [exact Hnd|exact Hfresh| |intros x; apply od_values_update].
    apply od_update_NoDup_values; [by apply NoDup_app in Hnd as (? & _)|].
    intros Hin. apply Hfresh, elem_of_app. by left.
  - rewrite app_assoc, Permutation_app_comm.
    rewrite app_assoc, Permutation_app_comm in Hnd, Hfresh.
    apply (NoDup_front_step (od_values (registry (store s) (bt_hedges (self s)))) _ _ n);
      [exact Hnd|exact Hfresh| |intros x; apply od_values_update].
    apply od_update_NoDup_values; [by apply NoDup_app in Hnd as (? & _)|].
    intros Hin. apply Hfresh, elem_of_app. by left.
Qed.

Lemma register_synced (r : loc) (ticker : string) (d : Data) (s s' : State) :
  self s' = self s → st_main (store s') = st_main (store s) →
  st_regs (store s')
  = <[r := od_update ticker (length (st_objs (store s))) (registry (store s) r)]>
      (st_regs (store s)) →
  st_objs (store s') = st_objs (store s) ++ [d] →
  d_index d = bt_index (self s) → d_cursor d = line_start →
  r = bt_bases (self s) ∨ r = bt_assets (self s) ∨ r = bt_hedges (self s) →
  synced s → synced s'.
Proof.
  intros Hself Hmain Hregs Hobjs Hdi Hdc Hr
    (W & Hidx & Hlast & Hstart & Hobj & Hown & Hnd & Kb & Ka & Kh).
  pose proof (register_registries r ticker s s' Hself Hregs Hr W) as Hreg.
  assert (Hfresh : length (st_objs (store s)) ∉ owned s).
  { intros Hin. apply Hown in Hin. lia. }
  destruct (register_owned r ticker s s' Hself Hregs Hr W Hnd Hfresh) as [Hsub Hnd'].
  assert (Wd := W). destruct Wd as (Lb & La & Lh & Nba & Nbh & Nah & WP & WSb & WSa & WH & WHs).
  assert (Eb := Hreg (bt_bases (self s)) (or_introl eq_refl)).
  assert (Ea := Hreg (bt_assets (self s)) (or_intror (or_introl eq_refl))).
  assert (Eh := Hreg (bt_hedges (self s)) (or_intror (or_intror eq_refl))).
  unfold synced. split_and!.
  - unfold wired. rewrite Hself, Hregs, length_insert. split_and!; auto.
  - rewrite Hmain, Hself. exact Hidx.
  - rewrite Hself. exact Hlast.
  - unfold main_cursor in *. rewrite Hmain. exact Hstart.
  - intros l d0. rewrite Hobjs, Hself. unfold main_cursor in *. rewrite Hmain.
    intros Hl. apply lookup_app_Some in Hl as [Hl|[Hge Hl]].
    + eauto.
    + apply list_lookup_singleton_Some in Hl as [_ <-]. rewrite Hdc. auto.
  - intros l Hl. rewrite Hobjs, length_app. simpl.
    destruct (Hsub l Hl) as [->|Hin]; [lia|]. apply Hown in Hin. lia.
  - exact Hnd'.
  - rewrite Hself, Eb. destruct (decide (bt_bases (self s) = r)) as [<-|];
      [by apply od_update_NoDup_keys|exact Kb].
  - rewrite Hself, Ea. destruct (decide (bt_assets (self s) = r)) as [<-|];
      [by apply od_update_NoDup_keys|exact Ka].
  - rewrite Hself, Eh. destruct (decide (bt_hedges (self s) = r)) as [<-|];
      [by apply od_update_NoDup_keys|exact Kh].
Qed.

End Registrations.

(** ** One advance on a built instance *)

Section Advance.

Context `{Externals}.

Lemma same_data_refl (d : Data) : same_data d d.
Proof. unfold same_data. split_and!; auto. Qed.

Lemma same_data_trans (d1 d2 d3 : Data) :
  same_data d1 d2 → same_data d2 d3 → same_data d1 d3.
Proof. unfold same_data. intuition (try congruence; try lia). Qed.

Lemma Data_next_same (d d' : Data) : Data_next d = Some d' → same_data d d'.
Proof.
  unfold Data_next. destruct (_ <? _)%nat; [|discriminate].
  intros [= <-]. unfold same_data. simpl. split_and!; auto.
Qed.

Lemma Forall2_same_refl (l : list Data) : Forall2 same_data l l.
Proof. apply Forall_Forall2_diag, Forall_forall. intros d _. apply same_data_refl. Qed.

Lemma Forall2_same_trans (l1 l2 l3 : list Data) :
  Forall2 same_data l1 l2 → Forall2 same_data l2 l3 → Forall2 same_data l1 l3.
Proof.
  intros H12. revert l3. induction H12 as [|x y l k Hxy _ IH]; intros l3 H23.
  - by inversion H23.
  - inversion H23 as [|? z ? k' Hyz Hk]; subst. constructor; eauto using same_data_trans.
Qed.

(** [data.next()] moves the cursor of one object, or nothing. *)
Lemma data_next_same (l : loc) (s : State) :
  let s' := snd (data_next l s) in
  Forall2 same_data (st_objs (store s)) (st_objs (store s')) ∧
  st_regs (store s') = st_regs (store s) ∧ st_main (store s') = st_main (store s) ∧
  self s' = self s.
Proof.
  unfold data_next, bind, emit, modify, get, raise. simpl.
  destruct (st_objs (store s) !! l) as [d|] eqn:Ed; simpl;
    [destruct (Data_next d) as [d'|] eqn:Ed'; simpl|];
    split_and!; auto using Forall2_same_refl.
  rewrite <- (list_insert_id _ _ _ Ed) at 1.
  apply Forall2_insert; [apply Forall2_same_refl|by apply Data_next_same].
Qed.

Lemma foreach_data_next_same (ls : list loc) : ∀ s,
  let s' := snd (foreach data_next ls s) in
  Forall2 same_data (st_objs (store s)) (st_objs (store s')) ∧
  st_regs (store s') = st_regs (store s) ∧ st_main (store s') = st_main (store s) ∧
  self s' = self s.
Proof.
  induction ls as [|l ls IH]; intros s; cbn [foreach].
  - unfold ret. simpl. split_and!; auto using Forall2_same_refl.
  - unfold bind. pose proof (data_next_same l s) as H1. cbn zeta in H1.
    destruct (data_next l s) as [[[]|e] s1]; simpl in H1.
    + specialize (IH s1). cbn zeta in IH.
      destruct H1 as (F1 & R1 & M1 & S1), IH as (F2 & R2 & M2 & S2).
      split_and!; [eauto using Forall2_same_trans|congruence..].
    + exact H1.
Qed.

(** A pass over distinct objects that all have a position left
    completes. *)
Lemma foreach_data_next_ok (ls : list loc) : ∀ s,
  NoDup ls →
  (∀ l, l ∈ ls → ∃ d, st_objs (store s) !! l = Some d ∧
                      S (d_cursor d) < length (d_index d)) →
  fst (foreach data_next ls s) = Ok tt.
Proof.
  induction ls as [|l ls IH]; intros s Hnd Hall; cbn [foreach].
  - reflexivity.
  - apply NoDup_cons in Hnd as [Hl Hnd].
    destruct (Hall l) as (d & Ed & Hd); [left|].
    unfold bind.
    assert (E1 : data_next l s
                 = (Ok tt, with_store
                             (mkStore (st_main (store s)) (st_regs (store s))
                                (<[l := mkData (d_type d) (d_ticker d) (d_frame d) (d_comm d)
                                          (d_index d) (S (d_cursor d))]> (st_objs (store s))))
                             (with_trace (trace s ++ [EvDataNext l]) s))).
    { unfold data_next, bind, emit, modify, get, raise. simpl. rewrite Ed.
      unfold Data_next. apply Nat.ltb_lt in Hd. rewrite Hd. reflexivity. }
    rewrite E1. apply IH; [exact Hnd|].
    intros l' Hl'. simpl. rewrite list_lookup_insert_ne by (intros ->; contradiction).
    apply Hall. by right.
Qed.

(** After the advance, an iteration writes nothing to the store, however
    it ends. *)
Lemma tick_store_any (s : State) :
  store (snd (tick s)) = store (snd (advance_buffers s)).
Proof.
  unfold tick, bind at 1.
  destruct (advance_buffers s) as [[[]|e] s1]; [|reflexivity].
  unfold call, modify, get, hedges_registered, bind, get, ret. cbn beta iota.
  set (s2 := with_broker _ (with_trace _ (with_broker _ _))).
  assert (E2 : store s2 = store s1) by reflexivity.
  destruct (nonempty _); unfold when.
  - pose proof (hedge_next_store s2) as E3.
    destruct (hedge_next s2) as [[[]|e] s3]; simpl in *; congruence.
  - exact E2.
Qed.

Lemma goes_on_room (s : State) :
  synced s → goes_on s → S (main_cursor s) < main_length s.
Proof.
  intros (_ & Hidx & Hlast & _) (d & Ed & Hlt).
  unfold Line_get0 in Ed. unfold main_cursor, main_length.
  pose proof (lookup_lt_Some _ _ _ Ed) as Hc.
  destruct (decide (S (l_cursor (st_main (store s))) = length (l_array (st_main (store s)))))
    as [E|]; [|lia].
  rewrite <- Hidx, last_lookup, <- E in Hlast. simpl in Hlast.
  rewrite Ed in Hlast. injection Hlast as ->. lia.
Qed.

Lemma datas_owned (s : State) (l : loc) : l ∈ od_values (datas s) → l ∈ owned s.
Proof.
  unfold datas, owned. rewrite !elem_of_app.
  intros [[?|?]%od_values_merge|?]%od_values_merge; auto.
Qed.

Lemma datas_NoDup (s : State) : NoDup (owned s) → NoDup (od_values (datas s)).
Proof.
  unfold owned, datas. rewrite app_assoc.
  intros (Hba & Hdis & Hh)%NoDup_app.
  apply od_merge_NoDup_values, NoDup_app. split_and!.
  - by apply od_merge_NoDup_values.
  - intros x [?|?]%od_values_merge; apply Hdis, elem_of_app; auto.
  - exact Hh.
Qed.

(** On a built instance the advance the loop asks for completes: the main
    clock has a position left, and so has every object of the merged view. *)
Lemma advance_buffers_ok (s : State) :
  synced s → goes_on s → fst (advance_buffers s) = Ok tt.
Proof.
  intros Hs Hg. pose proof (goes_on_room s Hs Hg) as Hroom.
  destruct Hs as (W & Hidx & Hlast & Hstart & Hobj & Hown & Hnd & _).
  unfold advance_buffers, bind at 1.
  assert (E1 : main_next s
               = (Ok tt, with_store
                           (mkStore (mkLine (l_array (st_main (store s)))
                                       (S (l_cursor (st_main (store s)))))
                              (st_regs (store s)) (st_objs (store s)))
                           (with_trace (trace s ++ [EvMainNext]) s))).
  { unfold main_next, bind, emit, modify, get, raise, Line_next. simpl.
    unfold main_cursor, main_length in Hroom. apply Nat.ltb_lt in Hroom.
    rewrite Hroom. reflexivity. }
  rewrite E1. unfold call, modify, get, bind. cbn beta iota.
  set (s2 := with_broker _ _).
  assert (Ed : datas s2 = datas s) by reflexivity. rewrite Ed.
  apply foreach_data_next_ok; [by apply datas_NoDup|].
  intros l Hl. apply datas_owned in Hl. apply Hown in Hl.
  destruct (lookup_lt_is_Some_2 _ _ Hl) as [d Ed'].
  exists d. split; [exact Ed'|].
  destruct (Hobj l d Ed') as [Hi Hc]. rewrite Hi, <- Hidx.
  unfold main_cursor, main_length in *. lia.
Qed.

End Advance.

(** ** One iteration on a built instance *)

Section Iteration.

Context `{Externals}.

Lemma keeps_owned (s s' : State) : keeps s s' → owned s' = owned s.
Proof.
  unfold keeps, owned, registry. intros K.
  destruct K as (_ & _ & -> & -> & -> & _ & _ & _ & _ & _ & -> & _). reflexivity.
Qed.

Lemma main_next_same (s : State) :
  let s' := snd (main_next s) in
  st_objs (store s') = st_objs (store s) ∧ st_regs (store s') = st_regs (store s) ∧
  self s' = self s.
Proof.
  unfold main_next, bind, emit, modify, get, raise. simpl.
  destruct (Line_next _); simpl; auto.
Qed.

(** The advance moves cursors and nothing else: no object is added,
    removed or rebound. *)
Lemma advance_buffers_same (s : State) :
  Forall2 same_data (st_objs (store s)) (st_objs (store (snd (advance_buffers s)))).
Proof.
  unfold advance_buffers, bind at 1.
  pose proof (main_next_same s) as Hm. cbn zeta in Hm.
  destruct (main_next s) as [[[]|e] s1]; simpl in Hm; destruct Hm as (Ho & _ & _).
  - unfold call, modify, get, bind. cbn beta iota.
    set (s2 := with_broker _ _).
    destruct (foreach_data_next_same (od_values (datas s2)) s2) as (F & _).
    change (st_objs (store s2)) with (st_objs (store s1)) in F. rewrite Ho in F. exact F.
  - simpl. rewrite Ho. apply Forall2_same_refl.
Qed.

Lemma tick_same (s : State) :
  Forall2 same_data (st_objs (store s)) (st_objs (store (snd (tick s)))).
Proof. rewrite tick_store_any. apply advance_buffers_same. Qed.

Lemma tick_keeps (s : State) : keeps s (snd (tick s)).
Proof. destruct (tick_spec s) as (r & s' & done & -> & K & _). exact K. Qed.

(** When the advance completes and the hedge pair is there if needed, the
    iteration completes. *)
Lemma tick_ok (s : State) :
  fst (advance_buffers s) = Ok tt → hedge_ready s → fst (tick s) = Ok tt.
Proof.
  intros Ha R. unfold tick, bind at 1.
  destruct (advance_buffers_spec s) as (r1 & s1 & done & E1 & K1 & _).
  rewrite E1 in *. simpl in Ha. subst r1.
  unfold call, modify, get, hedges_registered, bind, get, ret. cbn beta iota.
  set (s2 := with_broker _ (with_trace _ (with_broker _ _))).
  assert (K2 : keeps s s2) by (revert K1; unfold keeps; simpl; tauto).
  change (registry (store s1) (bt_hedges (self s1))) with
    (registry (store s2) (bt_hedges (self s2))).
  fold (hedged s2). rewrite (keeps_hedged _ _ K2).
  destruct (hedged s) eqn:Eh; unfold when; [|reflexivity].
  destruct (hedge_next_spec s2) as (r3 & s3 & d3 & -> & _ & _ & _ & _ & _ & R3 & _).
  destruct (R Eh) as [R1 R2].
  destruct K2 as (_&_&_&_&_&_&_& E1' & E2' &_).
  rewrite <- E1' in R1. rewrite <- E2' in R2.
  rewrite (R3 (conj R1 R2)). reflexivity.
Qed.

Lemma tick_synced (s : State) :
  synced s → goes_on s →
  let s' := snd (tick s) in
  synced s' ∧ main_cursor s' = S (main_cursor s) ∧
  S (main_cursor s) < main_length s ∧
  (∀ l, st_objs (store s') !! l
        = if decide (l ∈ od_values (datas s)) then st_objs (store s) !! l ≫= Data_next
          else st_objs (store s) !! l) ∧
  (hedge_ready s → fst (tick s) = Ok tt).
Proof.
  intros Hs Hg. cbn zeta.
  pose proof (advance_buffers_ok s Hs Hg) as Ha.
  pose proof (goes_on_room s Hs Hg) as Hroom.
  pose proof (tick_keeps s) as K.
  pose proof (tick_same s) as F.
  pose proof (tick_store_any s) as Hst.
  destruct (advance_buffers_spec s) as (r1 & s1 & done & E1 & K1 & _ & _ & O1 & _).
  rewrite E1 in Ha, Hst. simpl in Ha, Hst. subst r1.
  destruct (O1 eq_refl) as (_ & C1 & _).
  assert (Hnd := Hs). destruct Hnd as (W & Hidx & Hlast & Hstart & Hobj & Hown & Hnd & Kb & Ka & Kh).
  pose proof (advance_buffers_objs s s1 (datas_NoDup s Hnd) E1) as Hobjs.
  assert (C : main_cursor (snd (tick s)) = S (main_cursor s)).
  { unfold main_cursor in *. rewrite Hst. exact C1. }
  assert (Hd : ∀ l, st_objs (store (snd (tick s))) !! l
               = if decide (l ∈ od_values (datas s)) then st_objs (store s) !! l ≫= Data_next
                 else st_objs (store s) !! l).
  { intros l. rewrite Hst. apply Hobjs. }
  split_and!; [|exact C|exact Hroom|exact Hd|intros R; apply tick_ok; [by rewrite E1|exact R]].
  pose proof (keeps_owned _ _ K) as Ho.
  assert (Kd := K). destruct Kd as (Ki & Kl & Kbs & Kas & Khs & _ & _ & _ & _ & _ & Kr & Km & _).
  unfold synced. rewrite Ho, C, Ki, Kl, Km. unfold registry. rewrite Kr, Kbs, Kas, Khs.
  split_and!; auto.
  - apply (keeps_wired s); auto.
  - intros l d'. rewrite Hd. destruct (decide _) as [Hin|Hnin].
    + destruct (st_objs (store s) !! l) as [d|] eqn:Ed; [|discriminate]. simpl.
      destruct (Hobj l d Ed) as [Hi Hc].
      unfold Data_next. destruct (_ <? _)%nat; [|discriminate].
      intros [= <-]. simpl. split; [exact Hi|lia].
    + intros Ed. destruct (Hobj l d' Ed). split; [assumption|lia].
  - intros l Hl. rewrite <- (Forall2_length _ _ _ F). auto.
Qed.

End Iteration.

(** ** The loop and [run()] on a built instance *)

Section Runs.

Context `{Externals}.

Lemma hedge_init_store (s : State) : store (snd (hedge_init s)) = store s.
Proof.
  unfold hedge_init, hpipeline, hstrategy, bind, get, ret, raise, call, modify. simpl.
  destruct (bt_hpipeline (self s)); simpl; [|reflexivity].
  destruct (bt_hstrategy (self s)); reflexivity.
Qed.

(** What every iteration the loop enters keeps, the loop keeps. *)
Lemma run_loop_preserves (P : State → Prop) :
  (∀ s, P s → goes_on s → P (snd (tick s))) →
  ∀ fuel s, P s → P (snd (run_loop fuel s)).
Proof.
  intros Htick. induction fuel as [|fuel IH]; intros s HP; [exact HP|].
  cbn [run_loop]. unfold bind, dt, get.
  destruct (Line_get0 (st_main (store s))) as [d|] eqn:Ed; [|exact HP].
  cbn beta iota. destruct (d <? bt_lastdate (self s))%Z eqn:Eg; [|exact HP].
  assert (Hg : goes_on s) by (exists d; split; [exact Ed|by apply Z.ltb_lt]).
  specialize (Htick s HP Hg).
  destruct (tick s) as [[[]|e] s1]; [|exact Htick]. cbn beta iota.
  destruct (max_loss_hit s1); [exact Htick|]. apply IH, Htick.
Qed.

(** What looks at the store and the references only, and is kept by every
    iteration the loop enters, is kept by [run()], however it ends. *)
Lemma run_preserves (P : State → Prop) :
  (∀ s s', store s' = store s → same_self s s' → P s → P s') →
  (∀ s, P s → goes_on s → P (snd (tick s))) →
  ∀ s, P s → P (snd (run s)).
Proof.
  intros Hview Htick s HP. unfold run, bind, get. cbn beta iota.
  destruct (negb _); [exact HP|].
  destruct (config_backtest_spec s) as (r0 & s0 & -> & K0 & _ & _ & S0 & _).
  assert (P0 : P s0) by (apply (Hview s); auto using keeps_same_self).
  destruct r0 as [[]|e]; [|exact P0].
  unfold call, modify, hedges_registered, bind, get, ret. cbn beta iota.
  set (s1 := with_broker _ (with_trace _ (with_broker _ _))).
  assert (P1 : P s1).
  { apply (Hview s0); [reflexivity| |exact P0]. unfold same_self. simpl. tauto. }
  clearbody s1.
  assert (P2 : ∀ s2, P s2 → P (snd (simulate s2))).
  { intros s2 HP2. unfold simulate, bind, get.
    pose proof (run_loop_preserves P Htick (S (length (l_array (st_main (store s2))))) s2 HP2)
      as HP3.
    destruct (run_loop _ s2) as [[[]|e] s3]; [|exact HP3].
    destruct (bt_properties (self s3)); exact HP3. }
  destruct (nonempty _); unfold when.
  - pose proof (hedge_init_store s1) as S2.
    destruct (hedge_init_spec s1) as (r2 & s2 & dh & E2 & K2 & _).
    rewrite E2 in *. simpl in S2.
    assert (HP2 : P s2) by (apply (Hview s1); auto using keeps_same_self).
    destruct r2 as [[]|e]; [|exact HP2]. apply P2, HP2.
  - unfold ret. apply P2, P1.
Qed.

Lemma run_synced (s : State) : synced s → synced (snd (run s)).
Proof.
  apply (run_preserves synced).
  - intros s1 s2. apply synced_view.
  - intros s1 Hs Hg. by destruct (tick_synced s1 Hs Hg) as (? & _).
Qed.

(** A clock that is on an index position stays on one. *)
Lemma run_on_index (s : State) :
  synced s → main_cursor s < main_length s →
  main_cursor (snd (run s)) < main_length (snd (run s)).
Proof.
  intros Hs Hc.
  apply (run_preserves (fun s => synced s ∧ main_cursor s < main_length s)); [| |auto].
  - intros s1 s2 Hst Hself [Hs1 Hc1]. split; [by apply (synced_view s1)|].
    unfold main_cursor, main_length. rewrite Hst. exact Hc1.
  - intros s1 [Hs1 Hc1] Hg.
    destruct (tick_synced s1 Hs1 Hg) as (Hs2 & C & L & _).
    split; [exact Hs2|]. rewrite (keeps_main_length _ _ (tick_keeps s1)), C. exact L.
Qed.

(** On a built instance whose clock is on the index, with the hedge pair
    there if needed, the loop returns, and it returns for a reason. *)
Lemma run_loop_returns (fuel : nat) : ∀ s,
  synced s → hedge_ready s → main_cursor s < main_length s →
  main_length s - main_cursor s < fuel →
  ∃ s', run_loop fuel s = (Ok tt, s') ∧ stopped s' ∧ keeps s s'.
Proof.
  induction fuel as [|fuel IH]; intros s Hs R Hc Hf; [lia|].
  cbn [run_loop]. unfold bind, dt, get.
  destruct (Line_get0 (st_main (store s))) as [d|] eqn:Ed.
  2:{ apply lookup_ge_None in Ed. unfold main_cursor, main_length in Hc. lia. }
  cbn beta iota. destruct (d <? bt_lastdate (self s))%Z eqn:Eg.
  2:{ exists s. unfold ret. split_and!; auto using keeps_refl.
      left. exists d. split; [exact Ed|]. apply Z.ltb_ge in Eg. exact Eg. }
  assert (Hg : goes_on s) by (exists d; split; [exact Ed|by apply Z.ltb_lt]).
  destruct (tick_synced s Hs Hg) as (Hs1 & C1 & L1 & _ & O1).
  pose proof (tick_keeps s) as K1. specialize (O1 R).
  destruct (tick s) as [r1 s1]. simpl in *. subst r1. cbn beta iota.
  destruct (max_loss_hit s1) eqn:Em.
  - exists s1. unfold ret. split_and!; auto. by right.
  - pose proof (keeps_main_length _ _ K1) as Hlen.
    destruct (IH s1) as (s' & E' & St & K'); auto.
    + by apply (keeps_hedge_ready s).
    + lia.
    + lia.
    + exists s'. split_and!; eauto using keeps_trans.
Qed.

End Runs.

(** ** Every state a built instance goes through *)

Section Reachable.

Context `{Externals}.

Lemma synced_refs (s s' : State) :
  store s' = store s →
  bt_index (self s') = bt_index (self s) → bt_lastdate (self s') = bt_lastdate (self s) →
  bt_bases (self s') = bt_bases (self s) → bt_assets (self s') = bt_assets (self s) →
  bt_hedges (self s') = bt_hedges (self s) →
  wired s' → synced s → synced s'.
Proof.
  intros Hst Hi Hl Hb Ha Hh W'.
  unfold synced, owned, main_cursor. rewrite Hst, Hi, Hl, Hb, Ha, Hh. tauto.
Qed.

Lemma config_hedge_view (pc : PipelineClass) (sc : StrategyClass) (s : State) :
  let s' := snd (config_hedge pc sc s) in
  store s' = store s ∧
  bt_index (self s') = bt_index (self s) ∧ bt_lastdate (self s') = bt_lastdate (self s) ∧
  bt_bases (self s') = bt_bases (self s) ∧ bt_assets (self s') = bt_assets (self s) ∧
  bt_hedges (self s') = bt_hedges (self s).
Proof.
  unfold config_hedge.
  destruct (negb _); [unfold raise; simpl; auto 10|].
  destruct (negb _); [unfold raise; simpl; auto 10|].
  unfold bind, get, construct, modify. cbn beta iota zeta.
  destruct (pc_new pc _ _ _) as [[[]|e] w1]; [|simpl; auto 10].
  cbn [store broker with_broker with_trace with_self self].
  destruct (sc_new sc _ _ _) as [[[]|e] w2]; simpl; auto 10.
Qed.

Lemma invoke_synced (m : Method) (s : State) : synced s → synced (invoke m s).
Proof.
  intros Hs. assert (W : wired s) by (by destruct Hs).
  destruct m as [pc sc|t d|t d kw|t d kw|].
  - destruct (config_hedge_view pc sc s) as (Hst & Hi & Hl & Hb & Ha & Hh).
    apply (synced_refs s); auto.
    by destruct (invoke_wired (CallConfigHedge pc sc) s W).
  - destruct (add_base_shape t d s) as (E1 & E2 & E3 & E4).
    eapply (register_synced (bt_bases (self s))); eauto.
  - destruct (add_asset_shape t d kw s) as (E1 & E2 & E3 & E4).
    eapply (register_synced (bt_assets (self s))); eauto.
  - destruct (add_hedge_shape t d kw s) as (E1 & E2 & E3 & E4).
    eapply (register_synced (bt_hedges (self s))); eauto.
  - by apply run_synced.
Qed.

Lemma invoke_on_index (m : Method) (s : State) :
  synced s → main_cursor s < main_length s →
  main_cursor (invoke m s) < main_length (invoke m s).
Proof.
  intros Hs Hc. unfold main_cursor, main_length.
  destruct m as [pc sc|t d|t d kw|t d kw|]; cbn [invoke].
  - destruct (config_hedge_view pc sc s) as (-> & _). exact Hc.
  - destruct (add_base_shape t d s) as (_ & -> & _). exact Hc.
  - destruct (add_asset_shape t d kw s) as (_ & -> & _). exact Hc.
  - destruct (add_hedge_shape t d kw s) as (_ & -> & _). exact Hc.
  - by apply run_on_index.
Qed.

Lemma history_synced (ms : list Method) : ∀ s,
  synced s → synced (history ms s) ∧
  (main_cursor s < main_length s →
   main_cursor (history ms s) < main_length (history ms s)).
Proof.
  induction ms as [|m ms IH]; intros s Hs; simpl; [auto|].
  destruct (IH (invoke m s) (invoke_synced m s Hs)) as [Hs' Hc'].
  split; [exact Hs'|]. intros Hc. apply Hc'. by apply invoke_on_index.
Qed.

Lemma history_app (ms1 ms2 : list Method) (s : State) :
  history (ms1 ++ ms2) s = history ms2 (history ms1 s).
Proof. unfold history. apply fold_left_app. Qed.

(** The lookup in the merged view, registry by registry. *)
Lemma datas_get (k : string) (s : State) :
  synced s →
  od_get k (datas s)
  = match od_get k (registry (store s) (bt_hedges (self s))) with
    | Some l => Some l
    | None =>
        match od_get k (registry (store s) (bt_assets (self s))) with
        | Some l => Some l
        | None => od_get k (registry (store s) (bt_bases (self s)))
        end
    end.
Proof.
  intros (_ & _ & _ & _ & _ & _ & _ & _ & Ka & Kh).
  unfold datas. rewrite od_get_merge by exact Kh. by rewrite od_get_merge by exact Ka.
Qed.

Lemma datas_NoDup_keys (s : State) : synced s → NoDup (od_keys (datas s)).
Proof.
  intros (_ & _ & _ & _ & _ & _ & _ & Kb & _). unfold datas.
  by do 2 apply od_merge_NoDup_keys.
Qed.

Lemma od_get_update_case (k t : string) (v : loc) (d : Registry) :
  od_get k (od_update t v d) = if decide (k = t) then Some v else od_get k d.
Proof.
  destruct (decide (k = t)) as [->|Hne]; [apply od_get_update|by apply od_get_update_ne].
Qed.

(** A registration brings one object into the merged view at most, the new
    one: an object that is not in the view does not come back. *)
Lemma register_datas (r : loc) (ticker : string) (s s' : State) :
  self s' = self s →
  st_regs (store s')
  = <[r := od_update ticker (length (st_objs (store s))) (registry (store s) r)]>
      (st_regs (store s)) →
  r = bt_bases (self s) ∨ r = bt_assets (self s) ∨ r = bt_hedges (self s) →
  synced s → synced s' →
  ∀ l, l ∈ od_values (datas s') →
       l = length (st_objs (store s)) ∨ l ∈ od_values (datas s).
Proof.
  intros Hself Hregs Hr Hs Hs' l Hl.
  assert (W : wired s) by (by destruct Hs).
  pose proof (register_registries r ticker s s' Hself Hregs Hr W) as Hreg.
  assert (Wd := W). destruct Wd as (_ & _ & _ & Nba & Nbh & Nah & _).
  destruct (od_values_elem_of l _ (datas_NoDup_keys s' Hs') Hl) as [k Ek].
  rewrite (datas_get k s' Hs'), Hself in Ek.
  rewrite (Hreg (bt_bases (self s)) (or_introl eq_refl)),
          (Hreg (bt_assets (self s)) (or_intror (or_introl eq_refl))),
          (Hreg (bt_hedges (self s)) (or_intror (or_intror eq_refl))) in Ek.
  assert (Hold : od_get k (datas s) = Some l → l ∈ od_values (datas s))
    by apply od_get_elem_of.
  rewrite (datas_get k s Hs) in Hold.
  destruct Hr as [-> | [-> | ->]];
    repeat (first [rewrite decide_True in Ek by reflexivity
                  |rewrite decide_False in Ek by congruence]);
    rewrite od_get_update_case in Ek;
    destruct (decide (k = ticker));
    destruct (od_get k (registry (store s) (bt_hedges (self s))));
    destruct (od_get k (registry (store s) (bt_assets (self s))));
    destruct (od_get k (registry (store s) (bt_bases (self s))));
    simplify_eq; auto.
Qed.

Lemma register_in_step (r : loc) (ticker : string) (d : Data) (s s' : State) :
  self s' = self s → st_main (store s') = st_main (store s) →
  st_regs (store s')
  = <[r := od_update ticker (length (st_objs (store s))) (registry (store s) r)]>
      (st_regs (store s)) →
  st_objs (store s') = st_objs (store s) ++ [d] →
  d_index d = bt_index (self s) → d_cursor d = line_start →
  r = bt_bases (self s) ∨ r = bt_assets (self s) ∨ r = bt_hedges (self s) →
  synced s → in_step s → main_cursor s = line_start → in_step s'.
Proof.
  intros Hself Hmain Hregs Hobjs Hdi Hdc Hr Hs Hin Hc l Hl.
  pose proof (register_synced r ticker d s s' Hself Hmain Hregs Hobjs Hdi Hdc Hr Hs) as Hs'.
  unfold main_cursor in *. rewrite Hmain, Hobjs.
  destruct (register_datas r ticker s s' Hself Hregs Hr Hs Hs' l Hl) as [->|Hold].
  - rewrite list_lookup_middle by reflexivity. simpl. congruence.
  - specialize (Hin l Hold).
    destruct (st_objs (store s) !! l) as [d0|] eqn:E0; [|discriminate].
    by rewrite (lookup_app_l_Some _ _ _ _ E0).
Qed.

Lemma tick_in_step (s : State) :
  synced s → in_step s → goes_on s → in_step (snd (tick s)).
Proof.
  intros Hs Hin Hg l Hl.
  destruct (tick_synced s Hs Hg) as (_ & C & L & Hd & _).
  rewrite (keeps_datas _ _ (tick_keeps s)) in Hl.
  rewrite Hd, decide_True by exact Hl. rewrite C.
  specialize (Hin l Hl). unfold loc in *.
  destruct (st_objs (store s) !! l) as [d|] eqn:Ed; [|discriminate].
  injection Hin as Hc.
  change (d_cursor <$> Data_next d = Some (S (main_cursor s))).
  destruct Hs as (_ & Hidx & _ & _ & Hobj & _). destruct (Hobj l d Ed) as [Hi _].
  unfold Data_next. rewrite Hi, <- Hidx, Hc.
  unfold main_length in L. apply Nat.ltb_lt in L. rewrite L. reflexivity.
Qed.

Lemma run_in_step (s : State) : synced s → in_step s → in_step (snd (run s)).
Proof.
  intros Hs Hin.
  apply (run_preserves (fun s => synced s ∧ in_step s)); [| |auto].
  - intros s1 s2 Hst Hself [Hs1 Hin1]. split; [by apply (synced_view s1)|].
    unfold in_step, main_cursor. rewrite (same_view_datas _ _ Hst Hself), Hst. exact Hin1.
  - intros s1 [Hs1 Hin1] Hg. split; [by destruct (tick_synced s1 Hs1 Hg)|].
    by apply tick_in_step.
Qed.

(** While no run has been made, a registration leaves every object of the
    merged view on the position of the main clock. *)
Lemma setup_in_step (m : Method) (s : State) :
  is_setup m = true → synced s → in_step s → main_cursor s = line_start →
  in_step (invoke m s) ∧ main_cursor (invoke m s) = line_start.
Proof.
  intros Hm Hs Hin Hc. unfold main_cursor in *.
  destruct m as [pc sc|t d|t d kw|t d kw|]; [| | | |discriminate]; cbn [invoke].
  - destruct (config_hedge_view pc sc s) as (Hst & _ & _ & Hb & Ha & Hh).
    split; [|by rewrite Hst].
    unfold in_step, main_cursor, datas. rewrite Hst, Hb, Ha, Hh. exact Hin.
  - destruct (add_base_shape t d s) as (E1 & E2 & E3 & E4).
    split; [|by rewrite E2]. eapply (register_in_step (bt_bases (self s))); eauto.
  - destruct (add_asset_shape t d kw s) as (E1 & E2 & E3 & E4).
    split; [|by rewrite E2]. eapply (register_in_step (bt_assets (self s))); eauto.
  - destruct (add_hedge_shape t d kw s) as (E1 & E2 & E3 & E4).
    split; [|by rewrite E2]. eapply (register_in_step (bt_hedges (self s))); eauto.
Qed.

Lemma setups_in_step (ms : list Method) : ∀ s,
  forallb is_setup ms = true → synced s → in_step s → main_cursor s = line_start →
  in_step (history ms s).
Proof.
  induction ms as [|m ms IH]; intros s Hms Hs Hin Hc; simpl; [exact Hin|].
  simpl in Hms. apply andb_true_iff in Hms as [Hm Hms].
  destruct (setup_in_step m s Hm Hs Hin Hc) as [Hin' Hc'].
  apply IH; auto using invoke_synced.
Qed.

Lemma runs_in_step (n : nat) : ∀ s,
  synced s → in_step s → in_step (history (replicate n CallRun) s).
Proof.
  induction n as [|n IH]; intros s Hs Hin; simpl; [exact Hin|].
  apply IH; [by apply run_synced|by apply run_in_step].
Qed.

End Reachable.

(** ** What a built instance guarantees *)

Section Guarantees.

Context `{Externals}.

Lemma built_synced sc pc cal cfg now (s0 : State) (ms : list Method) :
  Backtest_init sc pc cal cfg now = Ok s0 →
  synced (history ms s0) ∧
  (line_start < length (cal_index cal) →
   main_cursor (history ms s0) < main_length (history ms s0)).
Proof.
  intros Hinit.
  destruct (Backtest_init_synced _ _ _ _ _ _ Hinit) as (Hs & Hc & _ & Hi & _).
  destruct (history_synced ms s0 Hs) as [Hs' Hc']. split; [exact Hs'|].
  intros Hlt. apply Hc'. destruct Hs as (_ & Hidx & _).
  unfold main_length. rewrite Hidx, Hi, Hc. exact Hlt.
Qed.

Lemma run_returns_from (s : State) :
  synced s → main_cursor s < main_length s →
  nonempty (registry (store s) (bt_assets (self s))) = true →
  hedge_ready s → is_Ok (bookname (self s)) →
  ∃ b s', run s = (Ok (Some b), s') ∧ stopped s' ∧
          broker_handle b = broker s' ∧ bt_properties (self s') = Some (meta b).
Proof.
  intros Hs Hc Ha R [book Hb]. unfold run, bind, get. cbn beta iota. rewrite Ha. cbn [negb].
  destruct (config_backtest_spec s) as (r0 & s0 & -> & K0 & _ & _ & S0 & _ & _ & _ & Hok).
  rewrite Hb in Hok. destruct Hok as (-> & P0).
  unfold call, modify, hedges_registered, bind, get, ret. cbn beta iota.
  set (s1 := with_broker _ (with_trace _ (with_broker _ _))).
  assert (K1 : keeps s s1) by (revert K0; unfold keeps; simpl; tauto).
  assert (S1 : store s1 = store s) by exact S0.
  assert (P1 : is_Some (bt_properties (self s1))) by exact P0.
  fold (hedged s1). rewrite (keeps_hedged _ _ K1).
  clearbody s1. clear dependent s0.
  assert (Hsim : ∀ s2, store s2 = store s → keeps s s2 →
            is_Some (bt_properties (self s2)) →
            ∃ b s', simulate s2 = (Ok (Some b), s') ∧ stopped s' ∧
                    broker_handle b = broker s' ∧ bt_properties (self s') = Some (meta b)).
  { intros s2 S2 K2 P2. unfold simulate, bind, get.
    destruct (run_loop_returns (S (length (l_array (st_main (store s2))))) s2)
      as (s3 & -> & St & K3).
    - apply (synced_view s); auto using keeps_same_self.
    - by apply (keeps_hedge_ready s).
    - unfold main_cursor, main_length in *. by rewrite S2.
    - fold (main_length s2). lia.
    - destruct K3 as (_&_&_&_&_&_&_&_&_&_&_&_& K3).
      destruct (K3 P2) as [m Em]. rewrite Em. unfold ret.
      do 2 eexists. split_and!; [reflexivity|exact St|reflexivity|exact Em]. }
  destruct (hedged s) eqn:Eh; unfold when.
  - pose proof (hedge_init_store s1) as S2.
    destruct (hedge_init_spec s1) as (r2 & s2 & dh & E2 & K2 & _ & _ & _ & _ & R2 & _).
    rewrite E2 in *. simpl in S2.
    destruct (R Eh) as [R1' R2'].
    assert (K1' := K1). destruct K1' as (_&_&_&_&_&_&_& E1 & E3 &_).
    rewrite <- E1 in R1'. rewrite <- E3 in R2'. rewrite (R2 (conj R1' R2')).
    apply Hsim; [congruence|eauto using keeps_trans|].
    destruct K2 as (_&_&_&_&_&_&_&_&_&_&_&_& K2). auto.
  - apply Hsim; auto.
Qed.

(** On an instance the constructor built, after any calls of the public
    methods: when an asset is registered, the hedge pair is configured if
    a hedge is registered, and the book name is defined, [run()] returns
    a result bundle.  It stops on a date that is not before the last date,
    or with the circuit breaker tripped; the bundle carries the Broker and
    the metadata record the instance keeps. *)
Theorem run_returns (sc : StrategyClass) (pc : PipelineClass) (cal : CalendarObj)
    (cfg : list (string * PyVal)) (now : string) (s0 : State) (ms : list Method) :
  Backtest_init sc pc cal cfg now = Ok s0 →
  line_start < length (cal_index cal) →
  nonempty (registry (store (history ms s0)) (bt_assets (self (history ms s0)))) = true →
  hedge_ready (history ms s0) →
  is_Ok (bookname (self (history ms s0))) →
  ∃ b s', run (history ms s0) = (Ok (Some b), s') ∧ stopped s' ∧
          broker_handle b = broker s' ∧ bt_properties (self s') = Some (meta b).
Proof.
  intros Hinit Hlt Ha R Hb.
  destruct (built_synced _ _ _ _ _ s0 ms Hinit) as [Hs Hc].
  apply run_returns_from; auto.
Qed.

(** When every registration precedes the first run, every object of the
    merged view is on the position of the main clock, after the set-up and
    after any number of runs. *)
Theorem registered_before_run_in_step (sc : StrategyClass) (pc : PipelineClass)
    (cal : CalendarObj) (cfg : list (string * PyVal)) (now : string) (s0 : State)
    (setup : list Method) (runs : nat) :
  Backtest_init sc pc cal cfg now = Ok s0 →
  forallb is_setup setup = true →
  ∀ l, l ∈ od_values (datas (history (setup ++ replicate runs CallRun) s0)) →
       d_cursor <$> st_objs (store (history (setup ++ replicate runs CallRun) s0)) !! l
       = Some (main_cursor (history (setup ++ replicate runs CallRun) s0)).
Proof.
  intros Hinit Hsetup.
  destruct (Backtest_init_synced _ _ _ _ _ _ Hinit) as (Hs & Hc & Ho & _ & Eb & Ea & Eh).
  assert (Hin0 : in_step s0).
  { intros l. unfold datas. rewrite Eb, Ea, Eh. simpl. intros Hl. by apply elem_of_nil in Hl. }
  rewrite history_app. apply runs_in_step.
  - by apply history_synced.
  - by apply setups_in_step.
Qed.

(** The merged view of an instance the constructor built, after any calls:
    a ticker is looked up among the hedges, then the assets, then the
    bases; no ticker and no object is listed twice. *)
Theorem datas_lookup (sc : StrategyClass) (pc : PipelineClass) (cal : CalendarObj)
    (cfg : list (string * PyVal)) (now : string) (s0 : State) (ms : list Method) :
  Backtest_init sc pc cal cfg now = Ok s0 →
  let s := history ms s0 in
  (∀ k, od_get k (datas s)
        = match od_get k (registry (store s) (bt_hedges (self s))) with
          | Some l => Some l
          | None =>
              match od_get k (registry (store s) (bt_assets (self s))) with
              | Some l => Some l
              | None => od_get k (registry (store s) (bt_bases (self s)))
              end
          end) ∧
  NoDup (od_keys (datas s)) ∧ NoDup (od_values (datas s)).
Proof.
  intros Hinit. cbn zeta.
  destruct (built_synced _ _ _ _ _ s0 ms Hinit) as [Hs _].
  split_and!.
  - intros k. by apply datas_get.
  - by apply datas_NoDup_keys.
  - apply datas_NoDup. by destruct Hs as (_ & _ & _ & _ & _ & _ & ? & _).
Qed.

(** When no ticker is registered in two registries, the merged view is
    the bases, then the assets, then the hedges, each in registration
    order: every registered object is in it, once. *)
Theorem datas_of_distinct_tickers (s : State) :
  let B := registry (store s) (bt_bases (self s)) in
  let A := registry (store s) (bt_assets (self s)) in
  let Hd := registry (store s) (bt_hedges (self s)) in
  NoDup (od_keys B ++ od_keys A ++ od_keys Hd) →
  datas s = B ++ A ++ Hd ∧ od_values (datas s) = owned s.
Proof.
  cbn zeta. intros (Kb & Hb & (Ka & Ha & Kh)%NoDup_app)%NoDup_app.
  assert (E : datas s
              = registry (store s) (bt_bases (self s))
                ++ registry (store s) (bt_assets (self s))
                ++ registry (store s) (bt_hedges (self s))).
  { unfold datas. rewrite (od_merge_disjoint _ _ Ka).
    - rewrite od_merge_disjoint; [by rewrite <- app_assoc|exact Kh|].
      intros k Hk. unfold od_keys. rewrite map_app, elem_of_app.
      intros [Hin|Hin].
      + apply (Hb k Hin), elem_of_app. by right.
      + by apply (Ha k Hin).
    - intros k Hk Hin. apply (Hb k Hin), elem_of_app. by left. }
  split; [exact E|]. rewrite E. unfold owned, od_values. by rewrite !map_app.
Qed.

End Guarantees.

(** ** How [run()] fails, and how the constructor does *)

Section Failures.

Context `{Externals}.


Lemma dict_getitem_mapper (k : string) :
  dict_getitem k mapper
  = if decide (k = "EXPO") then Ok "/"
    else if decide (k = "BETA") then Ok "#" else Raise (KeyError k).
Proof.
  unfold mapper. cbn [dict_getitem].
  destruct (String.eqb_spec "EXPO" k) as [<-|N1]; [reflexivity|].
  rewrite decide_False by congruence.
  destruct (String.eqb_spec "BETA" k) as [<-|N2]; [reflexivity|].
  rewrite decide_False by congruence. reflexivity.
Qed.

(** The book name is defined exactly when no hedge ticker is configured
    or the configured hedge method is EXPO or BETA; otherwise reading it
    raises the [KeyError] of the method. *)
Theorem bookname_defined (b : Backtest) :
  (is_Ok (bookname b)
   ↔ py_truthy (bt_hedge b) = false ∨ _DEFAULT_HEDGE = "EXPO" ∨ _DEFAULT_HEDGE = "BETA") ∧
  (¬ is_Ok (bookname b) → bookname b = Raise (KeyError _DEFAULT_HEDGE)).
Proof.
  unfold bookname, book_label. rewrite dict_getitem_mapper.
  destruct (py_truthy (bt_hedge b)).
  - destruct (decide (_DEFAULT_HEDGE = "EXPO")) as [E1|N1];
      [|destruct (decide (_DEFAULT_HEDGE = "BETA")) as [E2|N2]].
    + split; [split; [auto|intros _; eexists; reflexivity]|].
      intros N. destruct N. eexists. reflexivity.
    + split; [split; [auto|intros _; eexists; reflexivity]|].
      intros N. destruct N. eexists. reflexivity.
    + split; [|reflexivity]. split.
      * intros [x [=]].
      * intros [?|[?|?]]; [discriminate|contradiction|contradiction].
  - split; [split; [auto|intros _; eexists; reflexivity]|].
    intros N. destruct N. eexists. reflexivity.
Qed.


(** The constructor builds an instance exactly when the strategy and the
    pipeline are subclasses of [Strategy] and [Pipeline], the calendar is a
    [Calendar], the calendar's index is not empty, and the two constructor
    calls return: that of the Pipeline class and then that of the Strategy
    class, each by keyword.  The checks are made in this order, and the
    first one that fails decides the exception; a constructor that raises
    makes [__init__] raise the same exception.  A Strategy class that
    inherits the constructor of [Strategy] is refused with a [TypeError]:
    [Strategy] itself for its abstract methods, a subclass that defines
    them for the keyword [pipeline].  The instance that is built has three
    empty registries, no data object, no hedge pair and no run identity;
    its first and last dates are the ends of the index, and the Pipeline
    was constructed before the Strategy. *)
Theorem Backtest_init_outcome (sc : StrategyClass) (pc : PipelineClass)
    (cal : CalendarObj) (cfg : list (string * PyVal)) (now : string) :
  let st := initial_store (cal_index cal) in
  let w0 := Broker_new (cal_index cal) _DEFAULT_ECHO in
  let checked :=
    issubclass (sc_mro sc) "Strategy" = true ∧ issubclass (pc_mro pc) "Pipeline" = true ∧
    issubclass (cal_mro cal) "Calendar" = true ∧ cal_index cal ≠ [] in
  (is_Ok (Backtest_init sc pc cal cfg now)
   ↔ checked ∧
     ∃ w1 w2, pc_new pc (pipeline_keywords true) st w0 = (Ok tt, w1) ∧
              sc_new sc strategy_keywords st w1 = (Ok tt, w2)) ∧
  (issubclass (sc_mro sc) "Strategy" = false →
   ∃ msg, Backtest_init sc pc cal cfg now = Raise (TypeError msg)) ∧
  (issubclass (sc_mro sc) "Strategy" = true → issubclass (pc_mro pc) "Pipeline" = false →
   ∃ msg, Backtest_init sc pc cal cfg now = Raise (TypeError msg)) ∧
  (issubclass (sc_mro sc) "Strategy" = true → issubclass (pc_mro pc) "Pipeline" = true →
   issubclass (cal_mro cal) "Calendar" = false →
   ∃ msg, Backtest_init sc pc cal cfg now = Raise (TypeError msg)) ∧
  (issubclass (sc_mro sc) "Strategy" = true → issubclass (pc_mro pc) "Pipeline" = true →
   issubclass (cal_mro cal) "Calendar" = true → cal_index cal = [] →
   Backtest_init sc pc cal cfg now = Raise IndexError) ∧
  (checked → ∀ e w1,
     pc_new pc (pipeline_keywords true) st w0 = (Raise e, w1) →
     Backtest_init sc pc cal cfg now = Raise e) ∧
  (checked → ∀ w1 e w2,
     pc_new pc (pipeline_keywords true) st w0 = (Ok tt, w1) →
     sc_new sc strategy_keywords st w1 = (Raise e, w2) →
     Backtest_init sc pc cal cfg now = Raise e) ∧
  (checked → ∀ w1 name abstract,
     pc_new pc (pipeline_keywords true) st w0 = (Ok tt, w1) →
     sc_new sc = Strategy_new name abstract →
     (∃ msg, Backtest_init sc pc cal cfg now = Raise (TypeError msg)) ∧
     (abstract = [] →
      Backtest_init sc pc cal cfg now
      = Raise (TypeError "Strategy.__init__() got an unexpected keyword argument 'pipeline'")) ∧
     (name = "Strategy" → abstract = ["init"; "next"] →
      Backtest_init sc pc cal cfg now
      = Raise (TypeError
                 "Can't instantiate abstract class Strategy with abstract methods init, next"))) ∧
  (∀ s, Backtest_init sc pc cal cfg now = Ok s →
     bt_index (self s) = cal_index cal ∧
     head (cal_index cal) = Some (bt_firstdate (self s)) ∧
     last (cal_index cal) = Some (bt_lastdate (self s)) ∧
     Line_get0 (st_main (store s)) = cal_index cal !! line_start ∧
     registry (store s) (bt_bases (self s)) = [] ∧
     registry (store s) (bt_assets (self s)) = [] ∧
     registry (store s) (bt_hedges (self s)) = [] ∧
     st_objs (store s) = [] ∧
     bt_hpipeline (self s) = None ∧ bt_hstrategy (self s) = None ∧
     bt_hash (self s) = None ∧ bt_uid (self s) = None ∧ bt_properties (self s) = None ∧
     trace s = [EvPipelineNew Primary; EvStrategyNew Primary]).
Proof.
  cbn zeta.
  assert (Hraise : ∀ e w1 w2,
            issubclass (sc_mro sc) "Strategy" = true ∧
            issubclass (pc_mro pc) "Pipeline" = true ∧
            issubclass (cal_mro cal) "Calendar" = true ∧ cal_index cal ≠ [] →
            pc_new pc (pipeline_keywords true) (initial_store (cal_index cal))
              (Broker_new (cal_index cal) _DEFAULT_ECHO) = (Ok tt, w1) →
            sc_new sc strategy_keywords (initial_store (cal_index cal)) w1 = (Raise e, w2) →
            Backtest_init sc pc cal cfg now = Raise e).
  { intros e w1 w2 (E1 & E2 & E3 & Ei) Hp Hs. unfold Backtest_init.
    rewrite E1, E2, E3. cbn [negb].
    destruct (cal_index cal) as [|d0 ds] eqn:Ec; [congruence|]. cbn [head].
    destruct (last (d0 :: ds)) as [dn|] eqn:El.
    2:{ apply last_None in El. discriminate. }
    cbn [new_registry st_regs st_main st_objs length app].
    change (mkStore (mkLine (d0 :: ds) line_start) [[]; []; []] [])
      with (initial_store (d0 :: ds)).
    rewrite Hp, Hs. reflexivity. }
  split_and!.
  - split.
    + intros [s Hs].
      destruct (Backtest_init_built _ _ _ _ _ _ Hs) as (fd & ld & w1 & Hh & _ & Hp & Hc & _).
      revert Hs. unfold Backtest_init.
      destruct (issubclass (sc_mro sc) "Strategy"); [|discriminate].
      destruct (issubclass (pc_mro pc) "Pipeline"); [|discriminate].
      destruct (issubclass (cal_mro cal) "Calendar"); [|discriminate].
      intros _. split; [|eauto].
      split_and!; auto. intros Ec. rewrite Ec in Hh. discriminate.
    + intros ((E1 & E2 & E3 & Ei) & w1 & w2 & Hp & Hs). unfold Backtest_init.
      rewrite E1, E2, E3. cbn [negb].
      destruct (cal_index cal) as [|d0 ds] eqn:Ec; [congruence|]. cbn [head].
      destruct (last (d0 :: ds)) as [dn|] eqn:El.
      2:{ apply last_None in El. discriminate. }
      cbn [new_registry st_regs st_main st_objs length app].
      change (mkStore (mkLine (d0 :: ds) line_start) [[]; []; []] [])
        with (initial_store (d0 :: ds)).
      rewrite Hp, Hs. eexists. reflexivity.
  - intros E1. unfold Backtest_init. rewrite E1. eauto.
  - intros E1 E2. unfold Backtest_init. rewrite E1, E2. eauto.
  - intros E1 E2 E3. unfold Backtest_init. rewrite E1, E2, E3. eauto.
  - intros E1 E2 E3 Ei. unfold Backtest_init. rewrite E1, E2, E3, Ei. reflexivity.
  - intros (E1 & E2 & E3 & Ei) e w1 Hp. unfold Backtest_init.
    rewrite E1, E2, E3. cbn [negb].
    destruct (cal_index cal) as [|d0 ds] eqn:Ec; [congruence|]. cbn [head].
    destruct (last (d0 :: ds)) as [dn|] eqn:El.
    2:{ apply last_None in El. discriminate. }
    cbn [new_registry st_regs st_main st_objs length app].
    change (mkStore (mkLine (d0 :: ds) line_start) [[]; []; []] [])
      with (initial_store (d0 :: ds)).
    rewrite Hp. reflexivity.
  - intros Hch w1 e w2. apply Hraise, Hch.
  - intros Hch w1 name abstract Hp Hnew. split_and!.
    + destruct (Strategy_new_refuses name abstract (initial_store (cal_index cal)) w1)
        as [msg Hmsg].
      exists msg. apply (Hraise _ w1 w1 Hch Hp). rewrite Hnew. exact Hmsg.
    + intros ->. apply (Hraise _ w1 w1 Hch Hp). rewrite Hnew. reflexivity.
    + intros -> ->. apply (Hraise _ w1 w1 Hch Hp). rewrite Hnew. reflexivity.
  - intros s Hs.
    destruct (Backtest_init_built _ _ _ _ _ _ Hs) as (fd & ld & w1 & Hh & Hl & _ & _ & ->).
    simpl. rewrite Hh, Hl. split_and!; reflexivity.
Qed.

(** Once [config_hedge] has returned, the instance has a hedge pair after
    every later call: no method removes it. *)
Theorem hedge_pair_stays_configured (pc : PipelineClass) (sc : StrategyClass)
    (s s1 : State) (ms : list Method) :
  config_hedge pc sc s = (Ok tt, s1) →
  is_Some (bt_hpipeline (self (history ms s1))) ∧
  is_Some (bt_hstrategy (self (history ms s1))) ∧
  hedge_ready (history ms s1).
Proof.
  intros Hc. destruct (config_hedge_configures pc sc s s1 Hc) as [Hp Hs].
  clear Hc. revert s1 Hp Hs.
  assert (Hstep : ∀ m s,
            is_Some (bt_hpipeline (self s)) → is_Some (bt_hstrategy (self s)) →
            is_Some (bt_hpipeline (self (invoke m s))) ∧
            is_Some (bt_hstrategy (self (invoke m s)))).
  { intros m s0 Hp Hs. destruct m as [pc' sc'|t d|t d kw|t d kw|]; cbn [invoke].
    - unfold config_hedge.
      destruct (negb _); [unfold raise; simpl; auto|].
      destruct (negb _); [unfold raise; simpl; auto|].
      unfold bind, get, construct, modify. cbn beta iota zeta.
      destruct (pc_new pc' _ _ _) as [[[]|e] w1]; [|simpl; auto].
      cbn [store broker with_broker with_trace with_self self].
      destruct (sc_new sc' _ _ _) as [[[]|e] w2]; simpl; eauto.
    - destruct (add_base_shape t d s0) as (-> & _). auto.
    - destruct (add_asset_shape t d kw s0) as (-> & _). auto.
    - destruct (add_hedge_shape t d kw s0) as (-> & _). auto.
    - destruct (run_keeps s0) as (_&_&_&_&_&_&_& -> & -> &_). auto. }
  induction ms as [|m ms IH]; intros s1 Hp Hs; simpl.
  - split_and!; auto. intros _. auto.
  - destruct (Hstep m s1 Hp Hs). apply IH; auto.
Qed.

End Failures.

(** ** Registering a ticker, and the first and last bases *)

Section Tickers.

Context `{Externals}.

Lemma registers_shape (m : Method) (r : loc) (ticker : string) (s : State) :
  registers m (self s) = Some (r, ticker) →
  (r = bt_bases (self s) ∨ r = bt_assets (self s) ∨ r = bt_hedges (self s)) ∧
  self (invoke m s) = self s ∧
  st_main (store (invoke m s)) = st_main (store s) ∧
  st_regs (store (invoke m s))
  = <[r := od_update ticker (length (st_objs (store s))) (registry (store s) r)]>
      (st_regs (store s)) ∧
  ∃ d, st_objs (store (invoke m s)) = st_objs (store s) ++ [d] ∧
       d_ticker d = ticker ∧ d_cursor d = line_start ∧ d_index d = bt_index (self s).
Proof.
  destruct m as [pc sc|t d|t d kw|t d kw|]; cbn [registers invoke]; try discriminate;
    intros [= <- <-].
  - destruct (add_base_shape t d s) as (E1 & E2 & E3 & E4).
    split_and!; auto. eexists. split_and!; [exact E4|reflexivity..].
  - destruct (add_asset_shape t d kw s) as (E1 & E2 & E3 & E4).
    split_and!; auto. eexists. split_and!; [exact E4|reflexivity..].
  - destruct (add_hedge_shape t d kw s) as (E1 & E2 & E3 & E4).
    split_and!; auto. eexists. split_and!; [exact E4|reflexivity..].
Qed.

(** A registration, on an instance the constructor built and after any
    calls: a ticker the registry does not hold goes last; a ticker it holds
    keeps its place and is bound to the new object; every other ticker
    keeps its object, the other registries are as they were, and the new
    object is put at the end of the store, at the starting position. *)
Theorem registering_a_ticker (sc : StrategyClass) (pc : PipelineClass) (cal : CalendarObj)
    (cfg : list (string * PyVal)) (now : string) (s0 : State) (ms : list Method)
    (m : Method) (r : loc) (ticker : string) :
  Backtest_init sc pc cal cfg now = Ok s0 →
  registers m (self (history ms s0)) = Some (r, ticker) →
  let s := history ms s0 in
  let s' := invoke m s in
  od_keys (registry (store s') r)
  = (if decide (ticker ∈ od_keys (registry (store s) r))
     then od_keys (registry (store s) r)
     else od_keys (registry (store s) r) ++ [ticker]) ∧
  (∀ k, od_get k (registry (store s') r)
        = if decide (k = ticker) then Some (length (st_objs (store s)))
          else od_get k (registry (store s) r)) ∧
  (∀ r', r' ≠ r → registry (store s') r' = registry (store s) r') ∧
  ∃ d, st_objs (store s') = st_objs (store s) ++ [d] ∧
       d_ticker d = ticker ∧ d_cursor d = line_start ∧ d_index d = bt_index (self s).
Proof.
  intros Hinit Hm. cbn zeta.
  destruct (built_synced _ _ _ _ _ s0 ms Hinit) as [(W & _) _].
  destruct (registers_shape m r ticker _ Hm) as (Hr & Hself & Hmain & Hregs & Hobj).
  assert (Hlt : r < length (st_regs (store (history ms s0)))).
  { destruct W as (? & ? & ? & _). destruct Hr as [-> | [-> | ->]]; assumption. }
  assert (E : registry (store (invoke m (history ms s0))) r
              = od_update ticker (length (st_objs (store (history ms s0))))
                  (registry (store (history ms s0)) r)).
  { unfold registry at 1. rewrite Hregs. by rewrite list_lookup_insert_eq. }
  split_and!.
  - rewrite E. apply od_keys_update.
  - intros k. rewrite E. apply od_get_update_case.
  - intros r' Hne. unfold registry. rewrite Hregs. by rewrite list_lookup_insert_ne.
  - exact Hobj.
Qed.

Lemma od_get_head (k : string) (d : Registry) :
  head (od_keys d) = Some k →
  ∃ l, od_get k d = Some l ∧ head (od_values d) = Some l.
Proof.
  destruct d as [|[k0 v0] d]; simpl; [discriminate|].
  intros [= ->]. exists v0. by rewrite String.eqb_refl.
Qed.

Lemma od_get_last (k : string) (d : Registry) :
  NoDup (od_keys d) → last (od_keys d) = Some k →
  ∃ l, od_get k d = Some l ∧ last (od_values d) = Some l.
Proof.
  induction d as [|[k0 v0] d IH]; [discriminate|].
  intros [Hk0 Hnd]%NoDup_cons. destruct d as [|[k1 v1] d'].
  - simpl. intros [= ->]. exists v0. by rewrite String.eqb_refl.
  - change (last (od_keys ((k1, v1) :: d')) = Some k →
            ∃ l, od_get k ((k0, v0) :: (k1, v1) :: d') = Some l ∧
                 last (od_values ((k1, v1) :: d')) = Some l).
    intros Hl. destruct (IH Hnd Hl) as (l & Eg & El). exists l. split; [|exact El].
    cbn [od_get]. destruct (String.eqb_spec k0 k) as [->|_]; [|exact Eg].
    destruct Hk0.
    destruct (decide (k ∈ od_keys ((k1, v1) :: d'))) as [Hin|Hnin]; [exact Hin|].
    apply od_get_None in Hnin. congruence.
Qed.

(** The base is the object bound to the first ticker of the base registry,
    the hedge base the object bound to its last ticker; with no base
    registered, reading either raises [IndexError].  [add_base] leaves the
    first ticker in place, and makes its ticker the last one only when the
    ticker is new: a ticker registered again stays where it was. *)
Theorem base_and_hbase (sc : StrategyClass) (pc : PipelineClass) (cal : CalendarObj)
    (cfg : list (string * PyVal)) (now : string) (s0 : State) (ms : list Method) :
  Backtest_init sc pc cal cfg now = Ok s0 →
  let s := history ms s0 in
  let B := registry (store s) (bt_bases (self s)) in
  (B = [] → base s = (Raise IndexError, s) ∧ hbase s = (Raise IndexError, s)) ∧
  (∀ k, head (od_keys B) = Some k → ∃ l, od_get k B = Some l ∧ base s = (Ok l, s)) ∧
  (∀ k, last (od_keys B) = Some k → ∃ l, od_get k B = Some l ∧ hbase s = (Ok l, s)) ∧
  (∀ ticker data,
     let B' := registry (store (snd (add_base ticker data s)))
                 (bt_bases (self (snd (add_base ticker data s)))) in
     head (od_keys B') = Some (default ticker (head (od_keys B))) ∧
     last (od_keys B')
     = Some (if decide (ticker ∈ od_keys B) then default ticker (last (od_keys B))
             else ticker)).
Proof.
  intros Hinit. cbn zeta.
  destruct (built_synced _ _ _ _ _ s0 ms Hinit) as [Hs _].
  set (s := history ms s0) in *.
  assert (Kb : NoDup (od_keys (registry (store s) (bt_bases (self s)))))
    by (by destruct Hs as (_ & _ & _ & _ & _ & _ & _ & ? & _)).
  assert (W : wired s) by (by destruct Hs).
  split_and!.
  - intros E. unfold base, hbase, bind, get, lift. cbn beta iota. rewrite E. auto.
  - intros k Hk. destruct (od_get_head k _ Hk) as (l & Eg & Eh). exists l.
    split; [exact Eg|]. unfold base, bind, get, lift, first_value. cbn beta iota.
    by rewrite Eh.
  - intros k Hk. destruct (od_get_last k _ Kb Hk) as (l & Eg & El). exists l.
    split; [exact Eg|]. unfold hbase, bind, get, lift, last_value. cbn beta iota.
    by rewrite El.
  - intros ticker data.
    destruct (add_base_shape ticker data s) as (-> & _).
    rewrite add_base_registry. rewrite decide_True by (by destruct W as (? & _)).
    rewrite od_keys_update.
    destruct (od_keys (registry (store s) (bt_bases (self s)))) as [|k0 ks] eqn:Ek.
    + rewrite decide_False by apply not_elem_of_nil. auto.
    + destruct (decide _) as [Hin|Hnin].
      * split; [reflexivity|].
        destruct (last (k0 :: ks)) eqn:El; [reflexivity|].
        apply last_None in El. discriminate.
      * split; [reflexivity|]. by rewrite last_snoc.
Qed.


End Tickers.

(** ** Declaring indicators *)

Section Declarations.

Context `{Payload} `{IndicatorLib}.

Lemma kwargs_pop_filter (key : string) (kw : list (string * PyVal)) :
  NoDup (map fst kw) →
  kwargs_pop key kw
  = (kwargs_get key kw, List.filter (fun kv => negb (String.eqb (fst kv) key)) kw).
Proof.
  induction kw as [|[k v] kw IH]; [reflexivity|].
  cbn [map fst]. intros [Hk Hnd]%NoDup_cons. cbn [kwargs_pop kwargs_get List.filter fst].
  destruct (String.eqb_spec k key) as [->|Hne]; cbn [negb].
  - f_equal. symmetry. apply forallb_filter_id, forallb_forall.
    intros [k' v'] Hin. cbn [fst]. destruct (String.eqb_spec k' key) as [->|]; [|reflexivity].
    destruct Hk. apply list_elem_of_In, in_map_iff. by exists (key, v').
  - rewrite (IH Hnd). reflexivity.
Qed.

(** Assigning to a key of a dictionary. *)
Lemma dict_set_spec (key : PyVal) (line : LineObj) (d : list (PyVal * LineObj)) :
  (dict_has key d = true →
   length (dict_set key line d) = length d ∧
   map fst (dict_set key line d) = map fst d) ∧
  (dict_has key d = false → dict_set key line d = d ++ [(key, line)]) ∧
  (∃ k, (k, line) ∈ dict_set key line d ∧ (k = key ∨ same_key k key = true)).
Proof.
  unfold dict_has. induction d as [|[k v] d (IH1 & IH2 & k0 & IH3 & IH4)].
  - cbn. split_and!; [discriminate|reflexivity|].
    exists key. split; [left|by left].
  - cbn [existsb dict_set fst]. destruct (same_key k key) eqn:Ek; cbn [orb].
    + split_and!; [auto|discriminate|]. exists k. split; [left|by right].
    + split_and!.
      * intros Hd. destruct (IH1 Hd) as [E1 E2]. cbn. by rewrite E1, E2.
      * intros Hd. rewrite (IH2 Hd). reflexivity.
      * exists k0. split; [by right|exact IH4].
Qed.

(** A str that names an indicator names it again: the second declaration
    finds the key. *)
Lemma dict_has_set (a : string) (line : LineObj) (d : list (PyVal * LineObj)) :
  dict_has (PyStr a) (dict_set (PyStr a) line d) = true.
Proof.
  unfold dict_has. induction d as [|[k v] d IH].
  - cbn. by rewrite same_key_str, String.eqb_refl.
  - cbn [dict_set]. destruct (same_key k (PyStr a)) eqn:Ek; cbn [existsb fst].
    + by rewrite Ek.
    + by rewrite Ek, IH.
Qed.

(** [I] returns with the indicator assigned in the dictionary, or raises
    with the dictionary as it was.  It calls [f] once at most, with the
    keywords it was given, in order, except [name].  The key is the name
    given, or, when none is given (or [None]), the name of [f] followed by
    the tuple of the remaining keywords.  The assignment is a dictionary
    assignment: a key in use keeps its entry, which gets the new Line, and
    the dictionary is no longer; a new key is added last.  A name that
    cannot be hashed is found out by the assignment only, after [f] has
    run and the Line is built. *)
Theorem I_declares_one_indicator (data : Data) (f : Callable)
    (params : list (string * PyVal)) (st : Indicators) :
  NoDup (map fst params) →
  let rest := List.filter (fun kv => negb (String.eqb (fst kv) "name")) params in
  let r := Strategy_I data f params st in
  (is_Ok (fst r) →
   ∃ key line,
     unhashable_type key = None ∧
     indicators (snd r) = dict_set key line (indicators st) ∧
     invoked (snd r) = invoked st ++ [rest] ∧
     (kwargs_get "name" params ≠ PyNone → key = kwargs_get "name" params) ∧
     (kwargs_get "name" params = PyNone →
      ∃ n, f_name f = Some n ∧ key = PyStr (n +:+ py_str (items_tuple rest)))) ∧
  (¬ is_Ok (fst r) →
   indicators (snd r) = indicators st ∧
   (invoked (snd r) = invoked st ∨ invoked (snd r) = invoked st ++ [rest])) ∧
  (∀ t, d_type data = Asset → unhashable_type (kwargs_get "name" params) = Some t →
     ¬ is_Ok (fst r) ∧ invoked (snd r) = invoked st ++ [rest] ∧
     (∀ ind line,
        f_call f rest = Ok ind →
        Line_new (if is_DataFrame ind then values_T ind else ind) (d_index data) = Some line →
        fst r = Raise (TypeError ("unhashable type: '" +:+ t +:+ "'")))) ∧
  (∀ key line d,
     (dict_has key d = true →
      length (dict_set key line d) = length d ∧
      map fst (dict_set key line d) = map fst d) ∧
     (dict_has key d = false → dict_set key line d = d ++ [(key, line)]) ∧
     (∃ k, (k, line) ∈ dict_set key line d ∧ (k = key ∨ same_key k key = true))) ∧
  (∀ (a : string) line d, dict_has (PyStr a) (dict_set (PyStr a) line d) = true).
Proof.
  intros Hnd. cbn zeta.
  split_and!; [| | |apply dict_set_spec|apply dict_has_set];
    unfold Strategy_I;
    (destruct (PyType_eqb (d_type data) Asset) eqn:Et; cbn [negb];
     [|try (intros [? [=]]); try (intros _; auto);
       try (intros t Ety; rewrite Ety in Et; discriminate)]);
    rewrite (kwargs_pop_filter "name" params Hnd);
    set (rest := List.filter _ params).
  - assert (Hcall : ∀ key,
      let r := match f_call f rest with
               | Raise e =>
                   (Raise (Exception (exn_str e)),
                    mkIndicators (indicators st) (invoked st ++ [rest]))
               | Ok ind =>
                   match Line_new (if is_DataFrame ind then values_T ind else ind)
                           (d_index data) with
                   | None => (Raise ShapeError,
                              mkIndicators (indicators st) (invoked st ++ [rest]))
                   | Some line =>
                       match unhashable_type key with
                       | Some t =>
                           (Raise (TypeError ("unhashable type: " +:+ chr squote +:+ t
                                              +:+ chr squote)),
                            mkIndicators (indicators st) (invoked st ++ [rest]))
                       | None =>
                           (Ok tt, mkIndicators (dict_set key line (indicators st))
                                     (invoked st ++ [rest]))
                       end
                   end
               end in
      is_Ok (fst r) → ∃ line, unhashable_type key = None ∧
                              indicators (snd r) = dict_set key line (indicators st) ∧
                              invoked (snd r) = invoked st ++ [rest]).
    { intros key. cbn zeta. destruct (f_call f rest) as [ind|e]; [|intros [? [=]]].
      destruct (Line_new _ _) as [line|]; [|intros [? [=]]].
      destruct (unhashable_type key) as [t|] eqn:Eh; [intros [? [=]]|].
      intros _. eauto. }
    destruct (kwargs_get "name" params) as [| b | z | r | nm | l | l | l] eqn:En;
      try (pose proof (Hcall (kwargs_get "name" params)) as Hk; rewrite En in Hk;
           intros O; destruct (Hk O) as (line & E0 & E1 & E2);
           eexists _, line; split_and!; [exact E0|exact E1|exact E2|reflexivity|discriminate]).
    destruct (f_name f) as [n|]; [|intros [? [=]]].
    intros O.
    destruct (Hcall (PyStr (n +:+ py_str (items_tuple rest))) O) as (line & E0 & E1 & E2).
    eexists _, line. split_and!; [exact E0|exact E1|exact E2|congruence|eauto].
  - assert (Hcall : ∀ key,
      let r := match f_call f rest with
               | Raise e =>
                   (Raise (Exception (exn_str e)),
                    mkIndicators (indicators st) (invoked st ++ [rest]))
               | Ok ind =>
                   match Line_new (if is_DataFrame ind then values_T ind else ind)
                           (d_index data) with
                   | None => (Raise ShapeError,
                              mkIndicators (indicators st) (invoked st ++ [rest]))
                   | Some line =>
                       match unhashable_type key with
                       | Some t =>
                           (Raise (TypeError ("unhashable type: " +:+ chr squote +:+ t
                                              +:+ chr squote)),
                            mkIndicators (indicators st) (invoked st ++ [rest]))
                       | None =>
                           (Ok tt, mkIndicators (dict_set key line (indicators st))
                                     (invoked st ++ [rest]))
                       end
                   end
               end in
      ¬ is_Ok (fst r) → indicators (snd r) = indicators st ∧
         (invoked (snd r) = invoked st ∨ invoked (snd r) = invoked st ++ [rest])).
    { intros key. cbn zeta. destruct (f_call f rest) as [ind|e]; [|auto].
      destruct (Line_new _ _) as [line|]; [|auto].
      destruct (unhashable_type key) as [t|] eqn:Eh; [auto|].
      intros N. destruct N. by eexists. }
    destruct (kwargs_get "name" params) as [| b | z | r | nm | l | l | l] eqn:En;
      try (pose proof (Hcall (kwargs_get "name" params)) as Hk; rewrite En in Hk; exact Hk).
    destruct (f_name f) as [n|]; [|auto].
    exact (Hcall (PyStr (n +:+ py_str (items_tuple rest)))).
  - intros t _ Eh.
    assert (Hname : kwargs_get "name" params ≠ PyNone) by (intros E; rewrite E in Eh; discriminate).
    destruct (kwargs_get "name" params) as [| b | z | r | nm | l | l | l] eqn:En;
      try discriminate; try (by destruct Hname);
      (destruct (f_call f rest) as [ind|e];
       [destruct (Line_new _ _) as [line|] eqn:El; [rewrite Eh|]|]);
      cbn [fst snd invoked];
      (split_and!; [intros [? [=]]|reflexivity|]);
      intros ind' line' [= <-]; try discriminate;
      rewrite El; try discriminate; intros _; reflexivity.
Qed.

Lemma filter_keeps_out (key : string) (kw : list (string * PyVal)) (x : string) :
  x ∉ map fst kw →
  x ∉ map fst (List.filter (fun kv => negb (String.eqb (fst kv) key)) kw).
Proof.
  intros Hx Hin. apply Hx. apply list_elem_of_In, in_map_iff in Hin as ([k v] & <- & Hin).
  apply filter_In in Hin as [Hin _]. apply list_elem_of_In, in_map_iff. by exists (k, v).
Qed.

(** A function that has a parameter [data] and is called without it does
    not get to its body. *)
Lemma bind_keywords_without_data (name : string) (ps : list string)
    (kw : list (string * PyVal)) :
  "data" ∈ ps → "data" ∉ map fst kw → ∃ msg, bind_keywords name ps kw = Raise (TypeError msg).
Proof.
  intros Hp Hk. unfold bind_keywords.
  destruct (List.find _ kw) as [[k v]|]; [eauto|].
  destruct (List.filter _ ps) as [|m ms] eqn:Ef; [|eauto].
  assert (Hin : In "data" (List.filter
            (fun p => negb (existsb (String.eqb p) (map fst kw))) ps)).
  { apply filter_In. split; [by apply list_elem_of_In|].
    apply negb_true_iff, not_true_is_false. intros Hex.
    apply existsb_exists in Hex as (k & Hin & Heq). apply String.eqb_eq in Heq as <-.
    by apply Hk, list_elem_of_In. }
  rewrite Ef in Hin. destruct Hin.
Qed.

(** [I] calls the indicator function with the keywords alone: the data is
    not handed over.  Every function of [indicators/indicators.py] takes
    the data as its first parameter, so [I] never declares one of them: on
    an Asset the call of the function fails and [I] raises [Exception]; on
    anything else the assertion fails.  No indicator is stored.  The
    keywords of a call of [I] cannot hold [data], which is a parameter of
    [I] itself. *)
Theorem library_indicator_never_declared (name : string) (ps : list string)
    (body : list PyVal → Res Ind) (data : Data) (params : list (string * PyVal))
    (st : Indicators) :
  (name, ps) ∈ indicators_py → NoDup (map fst params) → "data" ∉ map fst params →
  let r := Strategy_I data (def name ps body) params st in
  ¬ is_Ok (fst r) ∧ indicators (snd r) = indicators st ∧
  (d_type data = Asset → ∃ msg, fst r = Raise (Exception msg)) ∧
  (d_type data ≠ Asset → fst r = Raise AssertionError).
Proof.
  intros Hlib Hnd Hdata. cbn zeta.
  assert (Hp : "data" ∈ ps).
  { unfold indicators_py in Hlib.
    repeat (apply elem_of_cons in Hlib as [[= _ ->]|Hlib]; [repeat constructor|]).
    by apply elem_of_nil in Hlib. }
  unfold Strategy_I.
  destruct (PyType_eqb (d_type data) Asset) eqn:Et; cbn [negb].
  2:{ split_and!; [intros [? [=]]|reflexivity| |reflexivity].
      intros E. rewrite E in Et. discriminate. }
  rewrite (kwargs_pop_filter "name" params Hnd).
  set (rest := List.filter _ params).
  destruct (bind_keywords_without_data name ps rest Hp) as [msg Hmsg].
  { by apply filter_keeps_out. }
  assert (Hcall : f_call (def name ps body) rest = Raise (TypeError msg)).
  { unfold def. cbn [f_call]. by rewrite Hmsg. }
  assert (Hne : d_type data ≠ Asset → False).
  { intros N. apply N. apply PyType_eqb_eq. exact Et. }
  destruct (kwargs_get "name" params); cbn [def f_name]; rewrite Hcall; cbn [fst snd indicators];
    (split_and!; [intros [? [=]]|reflexivity|eauto|intros N; by destruct (Hne N)]).
Qed.

End Declarations.

Section DeclarationsOnRegistered.

Context `{Externals} `{IndicatorLib}.

(** The objects [add_asset] and [add_hedge] build are Assets, and [I]
    takes them; the object [add_base] builds is a Base, and [I] refuses it
    with [AssertionError], leaving the indicators as they were. *)
Theorem I_on_registered_objects (s : State) (ticker : string) (data : Frame)
    (kw : list (string * PyVal)) (f : Callable) (params : list (string * PyVal))
    (st : Indicators) :
  (∃ obj, st_objs (store (snd (add_base ticker data s))) !! length (st_objs (store s))
          = Some obj ∧
          Strategy_I obj f params st = (Raise AssertionError, st)) ∧
  (∃ obj, st_objs (store (snd (add_asset ticker data kw s))) !! length (st_objs (store s))
          = Some obj ∧
          fst (Strategy_I obj f params st) ≠ Raise AssertionError) ∧
  (∃ obj, st_objs (store (snd (add_hedge ticker data kw s))) !! length (st_objs (store s))
          = Some obj ∧
          fst (Strategy_I obj f params st) ≠ Raise AssertionError).
Proof.
  assert (Hasset : ∀ obj, d_type obj = Asset →
            fst (Strategy_I obj f params st) ≠ Raise AssertionError).
  { intros obj Hty. unfold Strategy_I. rewrite Hty. cbn [PyType_eqb negb].
    destruct (kwargs_pop "name" params) as [name rest].
    destruct name; try destruct (f_name f); cbn -[unhashable_type];
      try discriminate;
      destruct (f_call f rest); cbn -[unhashable_type]; try discriminate;
      (destruct (Line_new _ _); cbn -[unhashable_type]; [|discriminate]);
      destruct (unhashable_type _); cbn; discriminate. }
  split_and!.
  - destruct (add_base_shape ticker data s) as (_ & _ & _ & ->).
    eexists. split; [by apply list_lookup_middle|]. reflexivity.
  - destruct (add_asset_shape ticker data kw s) as (_ & _ & _ & ->).
    eexists. split; [by apply list_lookup_middle|]. by apply Hasset.
  - destruct (add_hedge_shape ticker data kw s) as (_ & _ & _ & ->).
    eexists. split; [by apply list_lookup_middle|]. by apply Hasset.
Qed.

End DeclarationsOnRegistered.

(** ** Orders *)

Section OrderSides.

Context {Ledger Receipt : Type} (order : string → Q → Q → Ledger → Receipt * Ledger).

Lemma Qabs_opp_eq (x : Q) : Qabs (- x) = Qabs x.
Proof. destruct x as [n d]. unfold Qabs, Qopp. cbn [Qnum Qden]. by rewrite Z.abs_opp. Qed.

(** [buy] and [sell] look at the magnitude of the size only: [buy] orders
    it, [sell] orders its opposite, whatever the sign of the size they are
    given. *)
Theorem buy_and_sell_sides (ticker : string) (size price : Q) :
  ∃ q : Q,
    (0 <= q)%Q ∧ (q == size ∨ q == - size)%Q ∧
    buy order ticker size price = order ticker q price ∧
    sell order ticker size price = order ticker (- q)%Q price ∧
    buy order ticker (- size) price = order ticker q price ∧
    sell order ticker (- size) price = order ticker (- q)%Q price.
Proof.
  exists (Qabs size). unfold buy, sell. rewrite Qabs_opp_eq.
  split_and!; try reflexivity.
  - apply Qabs_nonneg.
  - apply Qabs_case; intros _; [left|right]; reflexivity.
Qed.

End OrderSides.

(** ** Objects registered late *)

Section Lag.

Context `{Externals}.

(** An iteration the loop enters moves an object of the merged view and
    the main clock by one position each, and leaves every other object
    where it is. *)
Lemma tick_lag (l : loc) (c k : nat) (s : State) :
  synced s → goes_on s →
  (∃ d, st_objs (store s) !! l = Some d ∧
        (l ∈ od_values (datas s) → d_cursor d + c = k + main_cursor s)) →
  ∃ d, st_objs (store (snd (tick s))) !! l = Some d ∧
       (l ∈ od_values (datas (snd (tick s))) →
        d_cursor d + c = k + main_cursor (snd (tick s))).
Proof.
  intros Hs Hg (d & Ed & Hlag).
  destruct (tick_synced s Hs Hg) as (_ & C & L & Hd & _).
  rewrite (keeps_datas _ _ (tick_keeps s)), Hd, C. unfold loc in *. rewrite Ed.
  destruct (decide (l ∈ od_values (datas s))) as [Hin|Hnin].
  - rewrite decide_True by exact Hin.
    destruct Hs as (_ & Hidx & _ & _ & Hobj & _). destruct (Hobj l d Ed) as [Hi Hc].
    change (Some d ≫= Data_next) with (Data_next d). unfold Data_next.
    assert (Hroom : (S (d_cursor d) <? length (d_index d))%nat = true).
    { apply Nat.ltb_lt. rewrite Hi, <- Hidx. unfold main_cursor, main_length in *. lia. }
    rewrite Hroom. eexists. split; [reflexivity|]. simpl. intros _.
    specialize (Hlag Hin). lia.
  - rewrite decide_False by exact Hnin.
    exists d. split; [reflexivity|]. intros Hin. contradiction.
Qed.

Lemma invoke_lag (m : Method) (l : loc) (c k : nat) (s : State) :
  synced s →
  (∃ d, st_objs (store s) !! l = Some d ∧
        (l ∈ od_values (datas s) → d_cursor d + c = k + main_cursor s)) →
  ∃ d, st_objs (store (invoke m s)) !! l = Some d ∧
       (l ∈ od_values (datas (invoke m s)) →
        d_cursor d + c = k + main_cursor (invoke m s)).
Proof.
  intros Hs Hlag.
  assert (Hreg : ∀ r ticker d0,
    self (invoke m s) = self s → st_main (store (invoke m s)) = st_main (store s) →
    st_regs (store (invoke m s))
    = <[r := od_update ticker (length (st_objs (store s))) (registry (store s) r)]>
        (st_regs (store s)) →
    st_objs (store (invoke m s)) = st_objs (store s) ++ [d0] →
    r = bt_bases (self s) ∨ r = bt_assets (self s) ∨ r = bt_hedges (self s) →
    ∃ d, st_objs (store (invoke m s)) !! l = Some d ∧
         (l ∈ od_values (datas (invoke m s)) →
          d_cursor d + c = k + main_cursor (invoke m s))).
  { intros r ticker d0 Hself Hmain Hregs Hobjs Hr.
    destruct Hlag as (d & Ed & Hlag). exists d.
    split; [rewrite Hobjs; by apply lookup_app_l_Some|].
    intros Hin. unfold main_cursor in *. rewrite Hmain. apply Hlag.
    destruct (register_datas r ticker s (invoke m s) Hself Hregs Hr Hs
                (invoke_synced m s Hs) l Hin) as [->|Hold]; [|exact Hold].
    apply lookup_lt_Some in Ed. lia. }
  destruct m as [pc sc|t d0|t d0 kw|t d0 kw|].
  - cbn [invoke]. destruct (config_hedge_view pc sc s) as (Hst & _ & _ & Hb & Ha & Hh).
    unfold datas, main_cursor in *. rewrite Hst, Hb, Ha, Hh. exact Hlag.
  - destruct (add_base_shape t d0 s) as (E1 & E2 & E3 & E4).
    apply (Hreg (bt_bases (self s)) t _ E1 E2 E3 E4). auto.
  - destruct (add_asset_shape t d0 kw s) as (E1 & E2 & E3 & E4).
    apply (Hreg (bt_assets (self s)) t _ E1 E2 E3 E4). auto.
  - destruct (add_hedge_shape t d0 kw s) as (E1 & E2 & E3 & E4).
    apply (Hreg (bt_hedges (self s)) t _ E1 E2 E3 E4). auto.
  - cbn [invoke]. clear Hreg.
    apply (run_preserves
             (fun s => synced s ∧
                ∃ d, st_objs (store s) !! l = Some d ∧
                     (l ∈ od_values (datas s) → d_cursor d + c = k + main_cursor s)));
      [| |auto].
    + intros s1 s2 Hst Hself [Hs1 H1]. split; [by apply (synced_view s1)|].
      unfold main_cursor in *. rewrite (same_view_datas _ _ Hst Hself), Hst. exact H1.
    + intros s1 [Hs1 H1] Hg. split; [by destruct (tick_synced s1 Hs1 Hg)|].
      by apply tick_lag.
Qed.

(** An object keeps its distance to the main clock for as long as it is
    in the merged view: whatever is called later, the clock and the object
    have moved by the same number of positions.  An object registered
    after the clock has advanced is never brought level with it. *)
Theorem lag_is_kept (sc : StrategyClass) (pc : PipelineClass) (cal : CalendarObj)
    (cfg : list (string * PyVal)) (now : string) (s0 : State)
    (before after : list Method) (l : loc) (d : Data) :
  Backtest_init sc pc cal cfg now = Ok s0 →
  st_objs (store (history before s0)) !! l = Some d →
  l ∈ od_values (datas (history after (history before s0))) →
  ∃ d', st_objs (store (history after (history before s0))) !! l = Some d' ∧
        d_cursor d' + main_cursor (history before s0)
        = d_cursor d + main_cursor (history after (history before s0)).
Proof.
  intros Hinit Ed.
  destruct (built_synced _ _ _ _ _ s0 before Hinit) as [Hs _].
  set (s := history before s0) in *. clearbody s.
  assert (Hgen : ∀ ms t, synced t →
            (∃ d', st_objs (store t) !! l = Some d' ∧
                   (l ∈ od_values (datas t) →
                    d_cursor d' + main_cursor s = d_cursor d + main_cursor t)) →
            ∃ d', st_objs (store (history ms t)) !! l = Some d' ∧
                  (l ∈ od_values (datas (history ms t)) →
                   d_cursor d' + main_cursor s = d_cursor d + main_cursor (history ms t))).
  { induction ms as [|m ms IH]; intros t Ht Hlag; [exact Hlag|].
    simpl. apply IH; [by apply invoke_synced|by apply invoke_lag]. }
  intros Hin. destruct (Hgen after s Hs) as (d' & Ed' & Hlag); [by exists d|].
  exists d'. split; [exact Ed'|]. by apply Hlag.
Qed.

End Lag.

(** ** The early exit, and only the early exit, returns nothing *)

Section NothingToRun.

Context `{Externals}.

(** [run()] returns [None] when no asset is registered, and only then:
    with an asset registered, a run that returns, returns a bundle. *)
Theorem run_returns_none_iff (s : State) :
  fst (run s) = Ok None ↔ registry (store s) (bt_assets (self s)) = [].
Proof.
  split.
  - intros Hnone. destruct (registry (store s) (bt_assets (self s))) as [|kv A] eqn:EA;
      [reflexivity|].
    revert Hnone. unfold run, bind, get. cbn beta iota. rewrite EA. cbn [nonempty negb].
    destruct (config_backtest s) as [[[]|e] s0]; [|discriminate].
    unfold call, modify, hedges_registered, bind, get, ret. cbn beta iota.
    assert (Hsim : ∀ s2, fst (simulate s2) ≠ Ok None).
    { intros s2. unfold simulate, bind, get.
      destruct (run_loop _ s2) as [[[]|e] s3]; [|discriminate].
      destruct (bt_properties (self s3)); discriminate. }
    destruct (nonempty _); unfold when.
    + destruct (hedge_init _) as [[[]|e] s2]; [|discriminate].
      intros E. destruct (Hsim _ E).
    + unfold ret. intros E. destruct (Hsim _ E).
  - intros EA. unfold run, bind, get. cbn beta iota. rewrite EA. reflexivity.
Qed.

End NothingToRun.


(** * The concrete instance *)

#[local] Existing Instance Demo.payload.
#[local] Existing Instance Demo.ext.

(** ** The run identity of two instances *)



(** ** The early exit, on an instance with a hedge and no asset *)

Lemma run_without_assets_witness :
  registry (store Demo.only_hedges) (bt_hedges (self Demo.only_hedges)) = [("DOLM21", 0)] ∧
  run Demo.only_hedges = (Ok None, Demo.only_hedges).
Proof.
  split; [reflexivity|]. apply (run_without_assets Demo.only_hedges). reflexivity.
Defined.

(** ** The circuit breaker, on the third iteration of the receipts run *)

Lemma max_loss_stops_loop_witness :
  let s := Demo.after config_backtest Demo.receipts in
  let s' := after_ticks 3 s in
  (∀ fuel, (2 < fuel)%nat → run_loop fuel s = (Ok tt, s')) ∧
  (∃ m, simulate s
        = (Ok (Some (mkBundle m (Broker_df (broker s')) (Broker_rec (broker s')) (broker s'))),
           s')) ∧
  trace s' = trace s ++ concat (replicate 3 (tick_events s)) ∧
  main_cursor s' = (main_cursor s + 3)%nat ∧
  advance_steps (trace s') = (advance_steps (trace s) + 3)%nat ∧
  ∃ rest, trace (snd (run s')) = trace s' ++ init_events (hedged s') ++ EvMainNext :: rest.
Proof.
  cbn zeta.
  destruct (max_loss_stops_loop 2 (Demo.after config_backtest Demo.receipts))
    as (H1 & H2 & H3 & H4 & H5 & H6).
  - eexists. vm_compute. reflexivity.
  - intros i Hi.
    assert (Hc : i = 0 ∨ i = 1 ∨ i = 2) by lia.
    destruct Hc as [-> | [-> | ->]];
      (split;
       [eexists; split; [vm_compute; reflexivity|vm_compute; reflexivity]
       |vm_compute; reflexivity]).
  - intros i Hi.
    assert (Hc : i = 1 ∨ i = 2) by lia.
    destruct Hc as [-> | ->]; intros Hlt; vm_compute in Hlt; discriminate.
  - vm_compute. reflexivity.
  - split_and!; [exact H1|exact H2|exact H3|exact H4|exact H5|].
    apply H6.
    + vm_compute. reflexivity.
    + eexists. vm_compute. reflexivity.
    + intros _. split; eexists; vm_compute; reflexivity.
    + eexists. split; [vm_compute; reflexivity|vm_compute; reflexivity].
Defined.

(** Against C3 as stated: the breaker is not latched.  The run of the
    receipts set-up stops on the fourth of six days with the return below
    the threshold; a second [run()] on the same instance returns after one
    more iteration, on the fifth day, the return still below the
    threshold. *)
Lemma run_resumes_after_breach :
  let s1 := Demo.after run Demo.receipts in
  let s2 := Demo.after run s1 in
  is_Ok (fst (run Demo.receipts)) ∧
  (cum_return (broker s1) < _DEFAULT_MAX_LOSS)%Q ∧
  main_cursor s1 = 3 ∧ main_length s1 = 6 ∧
  is_Ok (fst (run s1)) ∧
  (cum_return (broker s2) < _DEFAULT_MAX_LOSS)%Q ∧
  main_cursor s2 = 4 ∧
  advance_steps (trace s2) = advance_steps (trace s1) + 1 ∧
  trace s2 = trace s1 ++ init_events true ++ tick_events s1.
Proof.
  cbn zeta. split_and!; try (vm_compute; reflexivity);
    eexists; vm_compute; reflexivity.
Qed.

(** ** The hedge pair, with and without registered hedges *)



(** ** A ticker in small letters, with an accent *)


(** ** Late registrations, seen through the references handed over *)

Lemma registries_shared_witness :
  let s := history [CallConfigHedge Demo.Rolling Demo.Hedge_Expo;
                    @CallAddBase Demo.payload "XAU" []; CallRun] Demo.fresh in
  let s' := snd (add_asset "BIAU39" [] [] s) in
  od_get "BIAU39" (registry (store s') (p_assets (bt_pipeline (self Demo.fresh)))) = Some 1 ∧
  od_get "BIAU39" (registry (store s') (s_assets (bt_strategy (self Demo.fresh)))) = Some 1.
Proof.
  cbn zeta.
  destruct (registries_shared_by_reference Demo.Riskpar_BuyNHold Demo.Single Demo.calendar
              Demo.config "2021-06-01T12:00:00" Demo.fresh
              [CallConfigHedge Demo.Rolling Demo.Hedge_Expo; @CallAddBase Demo.payload "XAU" []; CallRun]
              eq_refl) as (_ & _ & _ & _ & _ & _ & _ & _ & _ & _ & Hasset & _).
  exact (Hasset "BIAU39" [] []).
Defined.

(** Against C9 as stated: a hedge registered after construction is in the
    hedge registry and in none of the registries the Pipeline and the
    Strategy built by the constructor hold. *)
Lemma add_hedge_not_seen_by_primary_pair :
  let s' := snd (add_hedge "DOLM21" [] [] Demo.fresh) in
  od_get "DOLM21" (registry (store s') (bt_hedges (self s'))) = Some 0 ∧
  od_get "DOLM21" (registry (store s') (p_assets (bt_pipeline (self s')))) = None ∧
  od_get "DOLM21" (registry (store s') (s_assets (bt_strategy (self s')))) = None ∧
  od_get "DOLM21" (registry (store s') (s_bases (bt_strategy (self s')))) = None.
Proof. cbn zeta. split_and!; vm_compute; reflexivity. Qed.

(** ** A ticker registered twice *)

(** C2, on the instance where "XAU" is a base and an asset: both objects
    are registered, and one iteration advances the main clock, the Broker
    and the Asset; the Base gets no [next()] call and its cursor stays
    where it was. *)
Lemma shadowed_base_skipped_by_tick :
  registry (store Demo.shadowed) (bt_bases (self Demo.shadowed)) = [("XAU", 0)] ∧
  registry (store Demo.shadowed) (bt_assets (self Demo.shadowed)) = [("XAU", 1)] ∧
  fst (tick Demo.shadowed) = Ok tt ∧
  trace (snd (tick Demo.shadowed)) =
    trace Demo.shadowed
    ++ [EvMainNext; EvBrokerNext; EvDataNext 1; EvBegOfPeriod;
        EvPipelineNext Primary; EvStrategyNext Primary; EvEndOfPeriod] ∧
  main_cursor (snd (tick Demo.shadowed)) = 1 ∧
  d_cursor <$> st_objs (store (snd (tick Demo.shadowed))) !! 0 = Some 0 ∧
  d_cursor <$> st_objs (store (snd (tick Demo.shadowed))) !! 1 = Some 1.
Proof. split_and!; vm_compute; reflexivity. Qed.

(** C8, on the same instance over its three-day calendar: the run returns
    after two advance steps with the main clock and the Asset on the last
    day, and the Base on the first. *)
Lemma shadowed_base_left_behind_by_run :
  length (bt_index (self Demo.shadowed)) = 3 ∧
  is_Ok (fst (run Demo.shadowed)) ∧
  advance_steps (trace (snd (run Demo.shadowed))) = 2 ∧
  main_cursor (snd (run Demo.shadowed)) = 2 ∧
  d_cursor <$> st_objs (store (snd (run Demo.shadowed))) !! 1 = Some 2 ∧
  d_cursor <$> st_objs (store (snd (run Demo.shadowed))) !! 0 = Some 0.
Proof.
  split_and!; try (vm_compute; reflexivity).
  eexists. vm_compute. reflexivity.
Qed.

(** ** The order of calls and the number of advances, on the receipts run *)

Lemma tick_call_order_witness :
  let s := Demo.receipts in
  let s' := Demo.after tick s in
  trace s' =
    trace s
    ++ [EvMainNext; EvBrokerNext] ++ map EvDataNext (od_values (datas s))
    ++ [EvBegOfPeriod; EvPipelineNext Primary; EvStrategyNext Primary]
    ++ (if hedged s then [EvPipelineNext Hedging; EvStrategyNext Hedging] else [])
    ++ [EvEndOfPeriod] ∧
  main_cursor s' = S (main_cursor s) ∧
  (∀ l, st_objs (store s') !! l
        = if decide (l ∈ od_values (datas s)) then st_objs (store s) !! l ≫= Data_next
          else st_objs (store s) !! l).
Proof.
  cbn zeta. apply (tick_call_order Demo.receipts (Demo.after tick Demo.receipts)).
  - vm_compute. repeat constructor; rewrite ?list_elem_of_In; simpl; intuition discriminate.
  - vm_compute. reflexivity.
Defined.

Lemma run_advance_bound_witness :
  Demo.main_steps_left Demo.receipts = 5 ∧
  ∃ k : nat,
    advance_steps (trace (Demo.after run Demo.receipts))
    = advance_steps (trace Demo.receipts) + k ∧
    main_cursor (Demo.after run Demo.receipts) = main_cursor Demo.receipts + k ∧
    (k ≤ main_length Demo.receipts - 1 - main_cursor Demo.receipts)%nat ∧
    (nonempty (registry (store Demo.receipts) (bt_assets (self Demo.receipts))) = true →
     main_cursor (Demo.after run Demo.receipts) < main_length Demo.receipts).
Proof.
  split; [reflexivity|].
  refine (proj2 (run_advance_bound Demo.receipts (fst (run Demo.receipts))
                   (Demo.after run Demo.receipts) _) _).
  - vm_compute. reflexivity.
  - eexists. vm_compute. reflexivity.
Defined.
(** ** A built instance, on the receipts set-up *)

#[local] Existing Instance Demo.indlib.

Lemma run_returns_witness :
  ∃ b s',
    run (history [CallConfigHedge Demo.Rolling Demo.Hedge_Expo;
                  @CallAddBase Demo.payload "XAU" []; CallAddBase "carry" [];
                  CallAddBase "USDBRL" []; CallAddAsset "BIAU39" [] [];
                  CallAddHedge "DOLM21" [] [("multiplier", PyInt 50)];
                  CallAddHedge "DOLN21" [] [("multiplier", PyInt 50)]] Demo.fresh)
    = (Ok (Some b), s') ∧ stopped s' ∧
    broker_handle b = broker s' ∧ bt_properties (self s') = Some (meta b).
Proof.
  apply (run_returns Demo.Riskpar_BuyNHold Demo.Single Demo.calendar Demo.config
           "2021-06-01T12:00:00" Demo.fresh).
  - reflexivity.
  - simpl. lia.
  - reflexivity.
  - intros _. split; eexists; reflexivity.
  - eexists. reflexivity.
Defined.

Lemma registered_before_run_in_step_witness :
  let s := history ([CallConfigHedge Demo.Rolling Demo.Hedge_Expo;
                     @CallAddBase Demo.payload "XAU" []; CallAddAsset "BIAU39" [] [];
                     CallAddHedge "DOLM21" [] []] ++ replicate 2 CallRun) Demo.fresh in
  main_cursor s = 4 ∧
  d_cursor <$> st_objs (store s) !! 0 = Some (main_cursor s) ∧
  d_cursor <$> st_objs (store s) !! 2 = Some (main_cursor s).
Proof.
  cbn zeta. split; [reflexivity|].
  pose proof (registered_before_run_in_step Demo.Riskpar_BuyNHold Demo.Single Demo.calendar
                Demo.config "2021-06-01T12:00:00" Demo.fresh
                [CallConfigHedge Demo.Rolling Demo.Hedge_Expo;
                 @CallAddBase Demo.payload "XAU" []; CallAddAsset "BIAU39" [] [];
                 CallAddHedge "DOLM21" [] []] 2 eq_refl eq_refl) as Hstep.
  split; apply Hstep; vm_compute; repeat constructor.
Defined.

Lemma datas_lookup_witness :
  let s := history [@CallAddBase Demo.payload "XAU" []; @CallAddAsset Demo.payload "XAU" [] []]
             (Demo.fresh_on Demo.short_calendar Demo.config "2021-06-01T12:00:00") in
  od_get "XAU" (datas s) = od_get "XAU" (registry (store s) (bt_assets (self s))) ∧
  od_get "XAU" (registry (store s) (bt_bases (self s))) = Some 0 ∧
  od_get "XAU" (datas s) = Some 1 ∧
  NoDup (od_keys (datas s)) ∧ NoDup (od_values (datas s)).
Proof.
  cbn zeta.
  destruct (@datas_lookup Demo.payload Demo.ext Demo.Riskpar_BuyNHold Demo.Single Demo.short_calendar Demo.config
              "2021-06-01T12:00:00"
              (Demo.fresh_on Demo.short_calendar Demo.config "2021-06-01T12:00:00")
              [@CallAddBase Demo.payload "XAU" []; @CallAddAsset Demo.payload "XAU" [] []]
              eq_refl)
    as (Hget & Hk & Hv).
  split_and!; [rewrite (Hget "XAU"); reflexivity|reflexivity|reflexivity|exact Hk|exact Hv].
Defined.

Lemma datas_of_distinct_tickers_witness :
  datas Demo.receipts
  = registry (store Demo.receipts) (bt_bases (self Demo.receipts))
    ++ registry (store Demo.receipts) (bt_assets (self Demo.receipts))
    ++ registry (store Demo.receipts) (bt_hedges (self Demo.receipts)) ∧
  od_values (datas Demo.receipts) = [0; 1; 2; 3; 4; 5].
Proof.
  destruct (datas_of_distinct_tickers Demo.receipts) as [E V].
  - by apply (bool_decide_unpack _).
  - split; [exact E|]. rewrite V. reflexivity.
Defined.

(** ** The ways [run()] fails *)


(** ** A Strategy class that inherits the constructor of [Strategy] *)

Lemma Backtest_init_outcome_witness :
  is_Ok (Backtest_init Demo.Riskpar_BuyNHold Demo.Single Demo.calendar Demo.config
           "2021-06-01T12:00:00") ∧
  Backtest_init Demo.Plain Demo.Single Demo.calendar Demo.config "2021-06-01T12:00:00"
  = Raise (TypeError "Strategy.__init__() got an unexpected keyword argument 'pipeline'").
Proof.
  split.
  - apply (Backtest_init_outcome Demo.Riskpar_BuyNHold Demo.Single Demo.calendar Demo.config
             "2021-06-01T12:00:00").
    split; [split_and!; [reflexivity..|discriminate]|].
    eexists _, _. split; reflexivity.
  - destruct (Backtest_init_outcome Demo.Plain Demo.Single Demo.calendar Demo.config
                "2021-06-01T12:00:00") as (_ & _ & _ & _ & _ & _ & _ & Hinherits & _).
    destruct (Hinherits ltac:(split_and!; [reflexivity..|discriminate])
                0 "Plain" [] eq_refl eq_refl) as (_ & Hmsg & _).
    exact (Hmsg eq_refl).
Defined.


Lemma hedge_pair_stays_configured_witness :
  let s := history [@CallAddHedge Demo.payload "DOLM21" [] []; CallRun;
                    CallAddAsset "BIAU39" [] []; CallRun]
             (Demo.after (config_hedge Demo.Rolling Demo.Hedge_Expo) Demo.fresh) in
  is_Some (bt_hpipeline (self s)) ∧ is_Some (bt_hstrategy (self s)) ∧ hedge_ready s.
Proof.
  cbn zeta.
  apply (hedge_pair_stays_configured Demo.Rolling Demo.Hedge_Expo Demo.fresh).
  reflexivity.
Defined.

(** ** Registering the asset of the receipts set-up again *)

Lemma registering_a_ticker_witness :
  let s := history [@CallAddBase Demo.payload "XAU" []; @CallAddAsset Demo.payload "BIAU39" [] [];
                    @CallAddAsset Demo.payload "TAEE11" [] []] Demo.fresh in
  let s' := invoke (@CallAddAsset Demo.payload "BIAU39" [] []) s in
  od_keys (registry (store s) (bt_assets (self s))) = ["BIAU39"; "TAEE11"] ∧
  od_keys (registry (store s') (bt_assets (self s))) = ["BIAU39"; "TAEE11"] ∧
  od_get "BIAU39" (registry (store s) (bt_assets (self s))) = Some 1 ∧
  od_get "BIAU39" (registry (store s') (bt_assets (self s))) = Some 3 ∧
  od_get "TAEE11" (registry (store s') (bt_assets (self s))) = Some 2.
Proof.
  cbn zeta.
  destruct (@registering_a_ticker Demo.payload Demo.ext Demo.Riskpar_BuyNHold Demo.Single
              Demo.calendar Demo.config "2021-06-01T12:00:00" Demo.fresh
              [@CallAddBase Demo.payload "XAU" []; @CallAddAsset Demo.payload "BIAU39" [] [];
               @CallAddAsset Demo.payload "TAEE11" [] []]
              (@CallAddAsset Demo.payload "BIAU39" [] []) 1 "BIAU39" eq_refl eq_refl)
    as (Hkeys & Hget & _).
  split_and!.
  - reflexivity.
  - exact Hkeys.
  - reflexivity.
  - exact (Hget "BIAU39").
  - exact (Hget "TAEE11").
Defined.

Lemma base_and_hbase_witness :
  let s := history [@CallAddBase Demo.payload "XAU" []; @CallAddBase Demo.payload "carry" [];
                    @CallAddBase Demo.payload "USDBRL" []] Demo.fresh in
  (∃ l, od_get "XAU" (registry (store s) (bt_bases (self s))) = Some l ∧
        base s = (Ok l, s)) ∧
  (∃ l, od_get "USDBRL" (registry (store s) (bt_bases (self s))) = Some l ∧
        hbase s = (Ok l, s)) ∧
  last (od_keys (registry (store (snd (add_base "XAU" [] s)))
                   (bt_bases (self (snd (add_base "XAU" [] s))))))
  = Some "USDBRL".
Proof.
  cbn zeta.
  destruct (@base_and_hbase Demo.payload Demo.ext Demo.Riskpar_BuyNHold Demo.Single
              Demo.calendar Demo.config "2021-06-01T12:00:00" Demo.fresh
              [@CallAddBase Demo.payload "XAU" []; @CallAddBase Demo.payload "carry" [];
               @CallAddBase Demo.payload "USDBRL" []] eq_refl)
    as (_ & Hbase & Hhbase & Hadd).
  split_and!.
  - apply Hbase. reflexivity.
  - apply Hhbase. reflexivity.
  - destruct (Hadd "XAU" []) as [_ Hl]. exact Hl.
Defined.

(** ** Declaring an indicator on an Asset *)

Lemma I_declares_one_indicator_witness :
  let st1 := snd (Strategy_I Demo.biau39 Demo.ones [("name", PyStr "signal"); ("p1", PyInt 10)]
                    (mkIndicators [] [])) in
  let r := Strategy_I Demo.biau39 Demo.ones [("name", PyStr "signal")] st1 in
  map fst (indicators st1) = [PyStr "signal"] ∧
  is_Ok (fst r) ∧
  (∃ key line,
     indicators (snd r) = dict_set key line (indicators st1) ∧
     invoked (snd r) = invoked st1 ++ [[]] ∧
     key = PyStr "signal") ∧
  map fst (indicators (snd r)) = [PyStr "signal"] ∧
  fst (Strategy_I Demo.biau39 Demo.ones [("name", PyList [PyInt 1])] st1)
  = Raise (TypeError "unhashable type: 'list'").
Proof.
  cbn zeta.
  set (st1 := snd (Strategy_I Demo.biau39 Demo.ones
                     [("name", PyStr "signal"); ("p1", PyInt 10)] (mkIndicators [] []))).
  destruct (I_declares_one_indicator Demo.biau39 Demo.ones [("name", PyStr "signal")] st1)
    as (Hok & _ & _ & _ & _).
  { by apply (bool_decide_unpack _). }
  destruct (I_declares_one_indicator Demo.biau39 Demo.ones [("name", PyList [PyInt 1])] st1)
    as (_ & _ & Hbad & _ & _).
  { by apply (bool_decide_unpack _). }
  assert (O : is_Ok (fst (Strategy_I Demo.biau39 Demo.ones [("name", PyStr "signal")] st1)))
    by (eexists; reflexivity).
  split_and!.
  - reflexivity.
  - exact O.
  - destruct (Hok O) as (key & line & _ & E1 & E2 & E3 & _).
    exists key, line. split_and!; [exact E1|exact E2|].
    apply E3. discriminate.
  - reflexivity.
  - destruct (Hbad "list" eq_refl eq_refl) as (_ & _ & Hty).
    exact (Hty [1; 1; 1; 1; 1; 1]%Z [1; 1; 1; 1; 1; 1]%Z eq_refl eq_refl).
Defined.

Lemma library_indicator_never_declared_witness :
  let r := Strategy_I Demo.biau39 (def "SMACross" ["data"; "p1"; "p2"] Demo.six_ones)
             [("p1", PyInt 10); ("p2", PyInt 30)] (mkIndicators [] []) in
  fst r = Raise (Exception "SMACross() missing 1 required positional argument: 'data'") ∧
  ¬ is_Ok (fst r) ∧ indicators (snd r) = [].
Proof.
  cbn zeta.
  destruct (library_indicator_never_declared "SMACross" ["data"; "p1"; "p2"] Demo.six_ones
              Demo.biau39 [("p1", PyInt 10); ("p2", PyInt 30)] (mkIndicators [] []))
    as (Hno & Hind & _).
  - by apply (bool_decide_unpack _).
  - by apply (bool_decide_unpack _).
  - by apply (bool_decide_unpack _).
  - split_and!; [reflexivity|exact Hno|exact Hind].
Defined.

(** ** An asset registered after a run *)

Lemma lag_is_kept_witness :
  let s := history [@CallAddAsset Demo.payload "BIAU39" [] []; CallRun;
                    @CallAddAsset Demo.payload "TAEE11" [] []] Demo.fresh in
  let s' := history [@CallRun Demo.payload] s in
  main_cursor s = 3 ∧ main_cursor s' = 4 ∧
  d_cursor <$> st_objs (store s) !! 1 = Some 0 ∧
  ∃ d', st_objs (store s') !! 1 = Some d' ∧ d_cursor d' + main_cursor s = 0 + main_cursor s'.
Proof.
  cbn zeta. split_and!; [reflexivity..|].
  apply (@lag_is_kept Demo.payload Demo.ext Demo.Riskpar_BuyNHold Demo.Single Demo.calendar
           Demo.config "2021-06-01T12:00:00" Demo.fresh
           [@CallAddAsset Demo.payload "BIAU39" [] []; CallRun;
            @CallAddAsset Demo.payload "TAEE11" [] []]
           [@CallRun Demo.payload] 1
           (@mkData Demo.payload Asset "TAEE11" [] [] (cal_index Demo.calendar) 0)).
  - reflexivity.
  - reflexivity.
  - vm_compute. repeat constructor.
Defined.
